(** * faux-gnome-screensaver: the XScreenSaverManager state tracker

    A shallow embedding of [XScreenSaverManager] from
    [faux-gnome-screensaver.py]: the watcher line reader, the options-file
    timeout reader, the inhibition timer and the derived active time,
    together with the Python library functions they rest on
    ([bytes.decode], [str.split], [str.strip], [re.search],
    [datetime.strptime], [datetime] subtraction).

    Conventions.
    - The program runs under Python 3.  Python [int] is [Z]; a [bytes]
      object, a command line, a path or a format string is a [string]; a
      [str] that the program inspects is the list of its code points.
    - An attribute that may hold [None] is an [option].
    - Everything outside the program (child processes, the clock, the
      options file) is read from an [Env]; everything the program does to the
      outside (log records, spawned commands, emitted signals, main-loop
      sources) is appended to a trace of [effect]s.
    - A method is a computation [M A]: it reads the [Env], threads the
      [World] and either returns or raises; what was mutated before a raise
      stays mutated, as in Python. *)

From Stdlib Require Import ZArith String Ascii List Bool Lia.
From stdpp Require Import base option gmap.
Import ListNotations.

#[local] Open Scope string_scope.
#[local] Open Scope Z_scope.
#[local] Open Scope list_scope.

(** ** Text: the parts of Python's [str] and [bytes] the program uses *)

Module Text.

(** A [str], by its code points. *)
Definition str : Type := list Z.

Definition code (c : ascii) : Z := Z.of_N (N_of_ascii c).

(** The bytes of a [bytes] object. *)
Definition codes (b : string) : list Z := map code (list_ascii_of_string b).

(** A [str] literal of the source; the literals hold ASCII only. *)
Definition lit (s : string) : str := codes s.

(** [a == b] on [str]. *)
Fixpoint eqb (a b : str) : bool :=
  match a, b with
  | [], [] => true
  | x :: a', y :: b' => (x =? y) && eqb a' b'
  | _, _ => false
  end.

(** [str.isspace] for one character, which is also [\s] of [re] on a
    [str], and what [str.strip] and [str.split] take for whitespace: TAB..CR,
    FS..US, the space, U+0085, U+00A0, U+1680, U+2000..U+200A, U+2028,
    U+2029, U+202F, U+205F and U+3000. *)
Definition isspace (c : Z) : bool :=
  ((0x09 <=? c) && (c <=? 0x0D)) || ((0x1C <=? c) && (c <=? 0x20))
  || (c =? 0x85) || (c =? 0xA0) || (c =? 0x1680)
  || ((0x2000 <=? c) && (c <=? 0x200A))
  || (c =? 0x2028) || (c =? 0x2029) || (c =? 0x202F) || (c =? 0x205F)
  || (c =? 0x3000).

(** ASCII whitespace of [bytes.strip]: TAB..CR and the space only. *)
Definition isspace_bytes (c : ascii) : bool :=
  let n := code c in
  ((9 <=? n) && (n <=? 13)) || (n =? 32).

(** The decimal digits ([\d] of [re] on a [str], the characters [int]
    reads): Unicode has them in runs of ten, zero to nine; these are the
    zeros of the runs in Unicode 14.0, the table of CPython 3.11. *)
Definition decimal_zeros : list Z :=
  [ 0x30; 0x660; 0x6F0; 0x7C0; 0x966; 0x9E6; 0xA66; 0xAE6; 0xB66; 0xBE6;
    0xC66; 0xCE6; 0xD66; 0xDE6; 0xE50; 0xED0; 0xF20; 0x1040; 0x1090; 0x17E0;
    0x1810; 0x1946; 0x19D0; 0x1A80; 0x1A90; 0x1B50; 0x1BB0; 0x1C40; 0x1C50;
    0xA620; 0xA8D0; 0xA900; 0xA9D0; 0xA9F0; 0xAA50; 0xABF0; 0xFF10; 0x104A0;
    0x10D30; 0x11066; 0x110F0; 0x11136; 0x111D0; 0x112F0; 0x11450; 0x114D0;
    0x11650; 0x116C0; 0x11730; 0x118E0; 0x11950; 0x11C50; 0x11D50; 0x11DA0;
    0x16A60; 0x16AC0; 0x16B50; 0x1D7CE; 0x1D7D8; 0x1D7E2; 0x1D7EC; 0x1D7F6;
    0x1E140; 0x1E2F0; 0x1E950; 0x1FBF0 ].

(** The zero of the run a digit belongs to. *)
Definition zero_of (c : Z) : option Z :=
  List.find (fun z => (z <=? c) && (c <=? z + 9)) decimal_zeros.

Definition isdigit (c : Z) : bool :=
  match zero_of c with Some _ => true | None => false end.

Definition digit_value (c : Z) : Z :=
  match zero_of c with Some z => c - z | None => 0 end.

(** Lower-casing of the ASCII letters, for the case-insensitive matching
    of [strptime]. *)
Definition lower (c : Z) : Z :=
  if (65 <=? c) && (c <=? 90) then c + 32 else c.

Definition is_empty {A} (s : list A) : bool :=
  match s with [] => true | _ :: _ => false end.

Definition is_empty_bytes (s : string) : bool :=
  match s with EmptyString => true | String _ _ => false end.

(** Longest prefix whose characters satisfy [p], and what follows it. *)
Fixpoint span (p : Z -> bool) (s : str) : str * str :=
  match s with
  | [] => ([], [])
  | c :: s' =>
      if p c then let '(a, b) := span p s' in (c :: a, b)
      else ([], s)
  end.

Fixpoint lstrip_with (p : Z -> bool) (s : str) : str :=
  match s with
  | [] => []
  | c :: s' => if p c then lstrip_with p s' else s
  end.

Fixpoint rstrip_with (p : Z -> bool) (s : str) : str :=
  match s with
  | [] => []
  | c :: s' =>
      let r := rstrip_with p s' in
      if p c && is_empty r then [] else c :: r
  end.

(** [s.strip()] on a [str]. *)
Definition strip (s : str) : str :=
  rstrip_with isspace (lstrip_with isspace s).

Fixpoint lstrip_bytes (s : string) : string :=
  match s with
  | EmptyString => EmptyString
  | String c s' => if isspace_bytes c then lstrip_bytes s' else s
  end.

Fixpoint rstrip_bytes (s : string) : string :=
  match s with
  | EmptyString => EmptyString
  | String c s' =>
      let r := rstrip_bytes s' in
      if isspace_bytes c && is_empty_bytes r then EmptyString else String c r
  end.

(** [b.strip()] on a [bytes]. *)
Definition strip_bytes (s : string) : string := rstrip_bytes (lstrip_bytes s).

(** [s.split()]: the maximal runs of non-whitespace, in order. *)
Fixpoint split (s : str) : list str :=
  match s with
  | [] => []
  | c :: s' =>
      if isspace c then split s'
      else
        match s' with
        | [] => [[c]]
        | c' :: _ =>
            if isspace c' then [c] :: split s'
            else
              match split s' with
              | t :: ts => (c :: t) :: ts
              | [] => [[c]]
              end
        end
  end.

(** [s.split(None, 1)]: at most one split; the second piece keeps its
    trailing whitespace. *)
Definition split1 (s : str) : list str :=
  let s0 := lstrip_with isspace s in
  if is_empty s0 then []
  else
    let '(tok, rest) := span (fun c => negb (isspace c)) s0 in
    let rest' := lstrip_with isspace rest in
    if is_empty rest' then [tok] else [tok; rest'].

Fixpoint strip_prefix (p s : str) : option str :=
  match p with
  | [] => Some s
  | a :: p' =>
      match s with
      | [] => None
      | b :: s' => if a =? b then strip_prefix p' s' else None
      end
  end.

(** One attempt of the pattern [screen (\S+) since ([^\(]+)] at the start
    of [s].  Both groups are greedy; the first cannot give characters back
    (the literal after it starts with a space), the second ends the
    pattern. *)
Definition match_screen_since (s : str) : option (str * str) :=
  match strip_prefix (lit "screen ") s with
  | None => None
  | Some s1 =>
      let '(state, s2) := span (fun c => negb (isspace c)) s1 in
      if is_empty state then None
      else
        match strip_prefix (lit " since ") s2 with
        | None => None
        | Some s3 =>
            let '(date_str, _) := span (fun c => negb (c =? code "("%char)) s3 in
            if is_empty date_str then None else Some (state, date_str)
        end
  end.

(** [re.search(r"screen (\S+) since ([^\(]+)", s)]: the leftmost match,
    as its two groups. *)
Fixpoint search_screen_since (s : str) : option (str * str) :=
  match match_screen_since s with
  | Some g => Some g
  | None =>
      match s with
      | [] => None
      | _ :: s' => search_screen_since s'
      end
  end.

(** A continuation byte of UTF-8. *)
Definition cont (b : Z) : bool := (0x80 <=? b) && (b <=? 0xBF).

(** The code points of a byte sequence in UTF-8, as the strict decoder
    reads them; [None] where it raises [UnicodeDecodeError]: a byte that
    starts no sequence, a sequence cut short, an overlong form, a surrogate,
    a code point beyond U+10FFFF. *)
Fixpoint utf8 (b : list Z) : option str :=
  match b with
  | [] => Some []
  | b0 :: r0 =>
      if b0 <=? 0x7F then option_map (cons b0) (utf8 r0)
      else
        match r0 with
        | [] => None
        | b1 :: r1 =>
            if (0xC2 <=? b0) && (b0 <=? 0xDF) then
              if cont b1
              then option_map (cons ((b0 - 0xC0) * 64 + (b1 - 0x80))) (utf8 r1)
              else None
            else
              match r1 with
              | [] => None
              | b2 :: r2 =>
                  if (0xE0 <=? b0) && (b0 <=? 0xEF) then
                    if cont b1 && cont b2
                       && negb ((b0 =? 0xE0) && (b1 <? 0xA0))
                       && negb ((b0 =? 0xED) && (0xA0 <=? b1))
                    then option_map
                           (cons ((b0 - 0xE0) * 4096 + (b1 - 0x80) * 64 + (b2 - 0x80)))
                           (utf8 r2)
                    else None
                  else
                    match r2 with
                    | [] => None
                    | b3 :: r3 =>
                        if (0xF0 <=? b0) && (b0 <=? 0xF4)
                           && cont b1 && cont b2 && cont b3
                           && negb ((b0 =? 0xF0) && (b1 <? 0x90))
                           && negb ((b0 =? 0xF4) && (0x90 <=? b1))
                        then option_map
                               (cons ((b0 - 0xF0) * 262144 + (b1 - 0x80) * 4096
                                      + (b2 - 0x80) * 64 + (b3 - 0x80)))
                               (utf8 r3)
                        else None
                    end
              end
        end
  end.

(** [b.decode('utf-8')]. *)
Definition decode (b : string) : option str := utf8 (codes b).

End Text.

(** ** Dates: the parts of Python's [datetime] the program uses *)

Module Datetime.

(** A naive [datetime.datetime]. *)
Record datetime : Type := mk_datetime {
  year : Z; month : Z; day : Z;
  hour : Z; minute : Z; second : Z; microsecond : Z
}.

(** A [datetime.timedelta] in its normal form:
    [0 <= seconds < 86400], [0 <= microseconds < 1000000]. *)
Record timedelta : Type := mk_timedelta {
  days : Z; seconds : Z; microseconds : Z
}.

Definition is_leap (y : Z) : bool :=
  (y mod 4 =? 0) && (negb (y mod 100 =? 0) || (y mod 400 =? 0)).

Definition days_in_month (y m : Z) : Z :=
  if m =? 2 then (if is_leap y then 29 else 28)
  else if (m =? 4) || (m =? 6) || (m =? 9) || (m =? 11) then 30
  else 31.

Definition days_before_year (y : Z) : Z :=
  let y1 := y - 1 in y1 * 365 + y1 / 4 - y1 / 100 + y1 / 400.

(** Days of year [y] before the first of month [m]. *)
Definition days_before_month (y m : Z) : Z :=
  fold_right Z.add 0
    (map (days_in_month y) (map Z.of_nat (seq 1 (Z.to_nat (m - 1))))).

Definition toordinal (d : datetime) : Z :=
  days_before_year (year d) + days_before_month (year d) (month d) + day d.

Definition in_range (lo x hi : Z) : bool := (lo <=? x) && (x <=? hi).

(** The constructor [datetime(y, m, d, H, M, S, us)]; [None] stands for
    the [ValueError] it raises on a field out of range. *)
Definition new (y m d H M S us : Z) : option datetime :=
  if in_range 1 y 9999 && in_range 1 m 12
     && in_range 1 d (days_in_month y m)
     && in_range 0 H 23 && in_range 0 M 59 && in_range 0 S 59
     && in_range 0 us 999999
  then Some (mk_datetime y m d H M S us)
  else None.

(** [timedelta(days, seconds, microseconds)], normalised. *)
Definition normalize (d s us : Z) : timedelta :=
  let s1 := s + us / 1000000 in
  mk_timedelta (d + s1 / 86400) (s1 mod 86400) (us mod 1000000).

(** [a - b] on datetimes. *)
Definition sub (a b : datetime) : timedelta :=
  normalize (toordinal a - toordinal b)
    ((second a + minute a * 60 + hour a * 3600)
     - (second b + minute b * 60 + hour b * 3600))
    (microsecond a - microsecond b).

(** The whole duration in microseconds, [a] minus [b]. *)
Definition elapsed_us (a b : datetime) : Z :=
  ((toordinal a - toordinal b) * 86400
   + ((second a + minute a * 60 + hour a * 3600)
      - (second b + minute b * 60 + hour b * 3600))) * 1000000
  + (microsecond a - microsecond b).

End Datetime.

(** ** [datetime.strptime] for the two formats of the program

    CPython turns the format into a regular expression (a run of whitespace
    becomes [\s+], a directive becomes a group of alternatives tried in
    order, anything else stands for itself), matches it at the start of the
    data with backtracking and without regard to case, refuses data left
    over, and builds the [datetime] from the groups.  The matcher below does
    the same for the directives of [DATETIME_FORMAT] and [TIMEOUT_FORMAT],
    with the English names of the C locale.  Every failure of [strptime] is
    a [ValueError], here [None].

    Without regard to case the letters [i], [k] and [s] of a pattern also
    match U+0130, U+0131, U+212A and U+017F.  A day or month name with one of
    these is then refused when it is looked up among the lower-cased names,
    so the data is refused with or without them; the matcher leaves them
    out. *)

Module Strptime.
Import Text.

Inductive directive := Da | Db | Dd | DH | DM | DS | DY.

Definition directive_eq_dec (a b : directive) : {a = b} + {a <> b}.
Proof. decide equality. Defined.

Inductive item :=
| Dir (d : directive)
| Spaces
| Lit (c : ascii).

(** A character class, and an alternative as a sequence of classes. *)
Definition cls := Z -> bool.
Definition chr (c : ascii) : cls := fun x => lower x =? lower (code c).
Definition rng (lo hi : ascii) : cls :=
  fun x => (code lo <=? x) && (x <=? code hi).
Definition digit : cls := isdigit.

Definition word (w : string) : list cls := map chr (list_ascii_of_string w).

(** The alternatives of each directive, in the order the regular
    expression tries them. *)
Definition alternatives (d : directive) : list (list cls) :=
  match d with
  | Da => map word ["mon"; "tue"; "wed"; "thu"; "fri"; "sat"; "sun"]
  | Db => map word ["jan"; "feb"; "mar"; "apr"; "may"; "jun";
                    "jul"; "aug"; "sep"; "oct"; "nov"; "dec"]
  | Dd => [ [chr "3"%char; rng "0"%char "1"%char];
            [rng "1"%char "2"%char; digit];
            [chr "0"%char; rng "1"%char "9"%char];
            [rng "1"%char "9"%char];
            [chr " "%char; rng "1"%char "9"%char] ]
  | DH => [ [chr "2"%char; rng "0"%char "3"%char];
            [rng "0"%char "1"%char; digit];
            [digit] ]
  | DM => [ [rng "0"%char "5"%char; digit]; [digit] ]
  | DS => [ [chr "6"%char; rng "0"%char "1"%char];
            [rng "0"%char "5"%char; digit];
            [digit] ]
  | DY => [ [digit; digit; digit; digit] ]
  end.

(** Match one alternative at the start of [s]: the text it consumed and
    the rest. *)
Fixpoint match_alt (alt : list cls) (s : str) : option (str * str) :=
  match alt with
  | [] => Some ([], s)
  | p :: alt' =>
      match s with
      | [] => None
      | c :: s' =>
          if p c then
            match match_alt alt' s' with
            | Some (m, r) => Some (c :: m, r)
            | None => None
            end
          else None
      end
  end.

(** All the ways [\s+] can match at the start of [s], longest first. *)
Fixpoint spaces_candidates (s : str) : list (str * str) :=
  match s with
  | [] => []
  | c :: s' =>
      if isspace c then
        map (fun '(m, r) => (c :: m, r)) (spaces_candidates s')
          ++ [([c], s')]
      else []
  end.

(** All the ways one item can match at the start of [s], in the order a
    backtracking matcher explores them. *)
Definition candidates (it : item) (s : str) : list (str * str) :=
  match it with
  | Dir d => omap (fun alt => match_alt alt s) (alternatives d)
  | Spaces => spaces_candidates s
  | Lit c => omap (fun alt => match_alt alt s) [[chr c]]
  end.

Fixpoint first_some {A B} (f : A -> option B) (l : list A) : option B :=
  match l with
  | [] => None
  | x :: l' => match f x with Some y => Some y | None => first_some f l' end
  end.

(** The first complete match of the items, with the captured groups and
    the data left over. *)
Fixpoint match_items (items : list item) (s : str)
  : option (list (directive * str) * str) :=
  match items with
  | [] => Some ([], s)
  | it :: items' =>
      first_some
        (fun '(m, r) =>
           match match_items items' r with
           | Some (caps, rest) =>
               Some (match it with Dir d => (d, m) :: caps | _ => caps end, rest)
           | None => None
           end)
        (candidates it s)
  end.

(** The format as items. [None]: a directive the model does not know. *)
Fixpoint compile (drop_space : bool) (fmt : string) : option (list item) :=
  match fmt with
  | EmptyString => Some []
  | String c fmt' =>
      if isspace (code c) then
        if drop_space then compile true fmt'
        else option_map (cons Spaces) (compile true fmt')
      else if Ascii.eqb c "%"%char then
        match fmt' with
        | String k fmt'' =>
            let d :=
              (if Ascii.eqb k "a" then Some Da else if Ascii.eqb k "b" then Some Db
               else if Ascii.eqb k "d" then Some Dd else if Ascii.eqb k "H" then Some DH
               else if Ascii.eqb k "M" then Some DM else if Ascii.eqb k "S" then Some DS
               else if Ascii.eqb k "Y" then Some DY else None)%char in
            match d, compile false fmt'' with
            | Some d, Some its => Some (Dir d :: its)
            | _, _ => None
            end
        | EmptyString => None
        end
      else option_map (cons (Lit c)) (compile false fmt')
  end.

(** [int(text)] for a captured group: decimal digits, a leading space
    allowed. *)
Definition int_of (s : str) : Z :=
  fold_left (fun acc c => if isdigit c then acc * 10 + digit_value c else acc) s 0.

Definition matches_word (n : string) (w : str) : bool :=
  match match_alt (word n) w with
  | Some (_, []) => true
  | _ => false
  end.

(** 1-based position of the name [w] in [names]. *)
Fixpoint index_of_word (w : str) (names : list string) (i : Z) : Z :=
  match names with
  | [] => 0
  | n :: names' =>
      if matches_word n w then i else index_of_word w names' (i + 1)
  end.

Definition month_names : list string :=
  ["jan"; "feb"; "mar"; "apr"; "may"; "jun";
   "jul"; "aug"; "sep"; "oct"; "nov"; "dec"].

Fixpoint field (d : directive) (caps : list (directive * str)) : option str :=
  match caps with
  | [] => None
  | (d', m) :: caps' => if directive_eq_dec d d' then Some m else field d caps'
  end.

Definition num_field (d : directive) (caps : list (directive * str)) (dflt : Z) : Z :=
  match field d caps with Some m => int_of m | None => dflt end.

(** [datetime.datetime.strptime(data, fmt)]. *)
Definition strptime (data : str) (fmt : string) : option Datetime.datetime :=
  match compile false fmt with
  | None => None
  | Some items =>
      match match_items items data with
      | Some (caps, []) =>
          let mon :=
            match field Db caps with
            | Some m => index_of_word m month_names 1
            | None => 1
            end in
          Datetime.new (num_field DY caps 1900) mon (num_field Dd caps 1)
            (num_field DH caps 0) (num_field DM caps 0) (num_field DS caps 0) 0
      | _ => None
      end
  end.

#[global] Instance directive_eq_decision : EqDecision directive := directive_eq_dec.

(** The text of [n] in two decimal digits, for [0 <= n < 100]. *)
Definition digit_char (d : Z) : Z := 48 + d.

Definition two_digits (n : Z) : str := [digit_char (n / 10); digit_char (n mod 10)].

(** What is checked of a two-digit field [n] of directive [d] followed by
    a colon: it matches in two ways, the two digits or the first digit
    alone; its second digit is not a colon; its digits read back as [n]; and
    alone at the end of the data it matches whole. *)
Definition two_digit_field_ok (d : directive) (n : Z) : bool :=
  bool_decide
    (candidates (Dir d) (two_digits n ++ lit ":")
     = [ (two_digits n, lit ":");
         ([digit_char (n / 10)], digit_char (n mod 10) :: lit ":") ])
  && negb (chr ":" (digit_char (n mod 10)))
  && (int_of (two_digits n) =? n)
  && bool_decide
       (match_items [Dir d] (two_digits n) = Some ([(d, two_digits n)], [])).

End Strptime.

(** ** The manager object and its surroundings *)

(** A child process, by its command line. *)
Inductive process := Process (argv : list string).

(** An attribute assigned only by [activate] and [deactivate]: absent on a
    fresh object, [None] after [deactivate], an [int] in between. *)
Inductive slot := Missing | PyNone | PyInt (z : Z).

(** The attributes of an [XScreenSaverManager]. *)
Record XScreenSaverManager : Type := mk_manager {
  _screensaver : option process;
  _active : option bool;
  _active_since : option Datetime.datetime;
  _locked : option bool;
  _watcher : option process;
  _watcher_read_buf : option (list string);
  _watcher_id : option nat;
  _timeout : slot;
  _options_path : option string;
  _options_gfile : option string;
  _options_monitor : option string;
  _options_monitor_id : option nat;
  _manage_dpms : bool;
  _inhibit_id : option nat
}.

(** Assignment to one attribute. *)

Definition with_screensaver (v : option process) (s : XScreenSaverManager)
  : XScreenSaverManager :=
  {| _screensaver := v; _active := _active s;
     _active_since := _active_since s; _locked := _locked s;
     _watcher := _watcher s; _watcher_read_buf := _watcher_read_buf s;
     _watcher_id := _watcher_id s; _timeout := _timeout s;
     _options_path := _options_path s; _options_gfile := _options_gfile s;
     _options_monitor := _options_monitor s;
     _options_monitor_id := _options_monitor_id s;
     _manage_dpms := _manage_dpms s; _inhibit_id := _inhibit_id s |}.

Definition with_active (v : option bool) (s : XScreenSaverManager)
  : XScreenSaverManager :=
  {| _screensaver := _screensaver s; _active := v;
     _active_since := _active_since s; _locked := _locked s;
     _watcher := _watcher s; _watcher_read_buf := _watcher_read_buf s;
     _watcher_id := _watcher_id s; _timeout := _timeout s;
     _options_path := _options_path s; _options_gfile := _options_gfile s;
     _options_monitor := _options_monitor s;
     _options_monitor_id := _options_monitor_id s;
     _manage_dpms := _manage_dpms s; _inhibit_id := _inhibit_id s |}.

Definition with_active_since (v : option Datetime.datetime) (s : XScreenSaverManager)
  : XScreenSaverManager :=
  {| _screensaver := _screensaver s; _active := _active s;
     _active_since := v; _locked := _locked s; _watcher := _watcher s;
     _watcher_read_buf := _watcher_read_buf s; _watcher_id := _watcher_id s;
     _timeout := _timeout s; _options_path := _options_path s;
     _options_gfile := _options_gfile s;
     _options_monitor := _options_monitor s;
     _options_monitor_id := _options_monitor_id s;
     _manage_dpms := _manage_dpms s; _inhibit_id := _inhibit_id s |}.

Definition with_locked (v : option bool) (s : XScreenSaverManager)
  : XScreenSaverManager :=
  {| _screensaver := _screensaver s; _active := _active s;
     _active_since := _active_since s; _locked := v; _watcher := _watcher s;
     _watcher_read_buf := _watcher_read_buf s; _watcher_id := _watcher_id s;
     _timeout := _timeout s; _options_path := _options_path s;
     _options_gfile := _options_gfile s;
     _options_monitor := _options_monitor s;
     _options_monitor_id := _options_monitor_id s;
     _manage_dpms := _manage_dpms s; _inhibit_id := _inhibit_id s |}.

Definition with_watcher (v : option process) (s : XScreenSaverManager)
  : XScreenSaverManager :=
  {| _screensaver := _screensaver s; _active := _active s;
     _active_since := _active_since s; _locked := _locked s; _watcher := v;
     _watcher_read_buf := _watcher_read_buf s; _watcher_id := _watcher_id s;
     _timeout := _timeout s; _options_path := _options_path s;
     _options_gfile := _options_gfile s;
     _options_monitor := _options_monitor s;
     _options_monitor_id := _options_monitor_id s;
     _manage_dpms := _manage_dpms s; _inhibit_id := _inhibit_id s |}.

Definition with_watcher_read_buf (v : option (list string)) (s : XScreenSaverManager)
  : XScreenSaverManager :=
  {| _screensaver := _screensaver s; _active := _active s;
     _active_since := _active_since s; _locked := _locked s;
     _watcher := _watcher s; _watcher_read_buf := v;
     _watcher_id := _watcher_id s; _timeout := _timeout s;
     _options_path := _options_path s; _options_gfile := _options_gfile s;
     _options_monitor := _options_monitor s;
     _options_monitor_id := _options_monitor_id s;
     _manage_dpms := _manage_dpms s; _inhibit_id := _inhibit_id s |}.

Definition with_watcher_id (v : option nat) (s : XScreenSaverManager)
  : XScreenSaverManager :=
  {| _screensaver := _screensaver s; _active := _active s;
     _active_since := _active_since s; _locked := _locked s;
     _watcher := _watcher s; _watcher_read_buf := _watcher_read_buf s;
     _watcher_id := v; _timeout := _timeout s;
     _options_path := _options_path s; _options_gfile := _options_gfile s;
     _options_monitor := _options_monitor s;
     _options_monitor_id := _options_monitor_id s;
     _manage_dpms := _manage_dpms s; _inhibit_id := _inhibit_id s |}.

Definition with_timeout (v : slot) (s : XScreenSaverManager)
  : XScreenSaverManager :=
  {| _screensaver := _screensaver s; _active := _active s;
     _active_since := _active_since s; _locked := _locked s;
     _watcher := _watcher s; _watcher_read_buf := _watcher_read_buf s;
     _watcher_id := _watcher_id s; _timeout := v;
     _options_path := _options_path s; _options_gfile := _options_gfile s;
     _options_monitor := _options_monitor s;
     _options_monitor_id := _options_monitor_id s;
     _manage_dpms := _manage_dpms s; _inhibit_id := _inhibit_id s |}.

Definition with_options_path (v : option string) (s : XScreenSaverManager)
  : XScreenSaverManager :=
  {| _screensaver := _screensaver s; _active := _active s;
     _active_since := _active_since s; _locked := _locked s;
     _watcher := _watcher s; _watcher_read_buf := _watcher_read_buf s;
     _watcher_id := _watcher_id s; _timeout := _timeout s;
     _options_path := v; _options_gfile := _options_gfile s;
     _options_monitor := _options_monitor s;
     _options_monitor_id := _options_monitor_id s;
     _manage_dpms := _manage_dpms s; _inhibit_id := _inhibit_id s |}.

Definition with_options_gfile (v : option string) (s : XScreenSaverManager)
  : XScreenSaverManager :=
  {| _screensaver := _screensaver s; _active := _active s;
     _active_since := _active_since s; _locked := _locked s;
     _watcher := _watcher s; _watcher_read_buf := _watcher_read_buf s;
     _watcher_id := _watcher_id s; _timeout := _timeout s;
     _options_path := _options_path s; _options_gfile := v;
     _options_monitor := _options_monitor s;
     _options_monitor_id := _options_monitor_id s;
     _manage_dpms := _manage_dpms s; _inhibit_id := _inhibit_id s |}.

Definition with_options_monitor (v : option string) (s : XScreenSaverManager)
  : XScreenSaverManager :=
  {| _screensaver := _screensaver s; _active := _active s;
     _active_since := _active_since s; _locked := _locked s;
     _watcher := _watcher s; _watcher_read_buf := _watcher_read_buf s;
     _watcher_id := _watcher_id s; _timeout := _timeout s;
     _options_path := _options_path s; _options_gfile := _options_gfile s;
     _options_monitor := v; _options_monitor_id := _options_monitor_id s;
     _manage_dpms := _manage_dpms s; _inhibit_id := _inhibit_id s |}.

Definition with_options_monitor_id (v : option nat) (s : XScreenSaverManager)
  : XScreenSaverManager :=
  {| _screensaver := _screensaver s; _active := _active s;
     _active_since := _active_since s; _locked := _locked s;
     _watcher := _watcher s; _watcher_read_buf := _watcher_read_buf s;
     _watcher_id := _watcher_id s; _timeout := _timeout s;
     _options_path := _options_path s; _options_gfile := _options_gfile s;
     _options_monitor := _options_monitor s; _options_monitor_id := v;
     _manage_dpms := _manage_dpms s; _inhibit_id := _inhibit_id s |}.

Definition with_inhibit_id (v : option nat) (s : XScreenSaverManager)
  : XScreenSaverManager :=
  {| _screensaver := _screensaver s; _active := _active s;
     _active_since := _active_since s; _locked := _locked s;
     _watcher := _watcher s; _watcher_read_buf := _watcher_read_buf s;
     _watcher_id := _watcher_id s; _timeout := _timeout s;
     _options_path := _options_path s; _options_gfile := _options_gfile s;
     _options_monitor := _options_monitor s;
     _options_monitor_id := _options_monitor_id s;
     _manage_dpms := _manage_dpms s; _inhibit_id := v |}.

(** Python exceptions the program can meet.  [UnicodeDecodeError] is a
    subclass of [ValueError]. *)
Inductive exn := OSError | ValueError | UnicodeDecodeError | AttributeError | TypeError.

(** [IOError] is another name of [OSError]. *)
Abbreviation IOError := OSError (only parsing).

Inductive level := DEBUG | ERROR.

(** The two GObject signals of the manager. *)
Inductive signal :=
| active_changed (active : bool)
| timeout_changed (timeout : Z).

(** [Gio.FileMonitorEvent]. *)
Inductive FileMonitorEvent :=
| CHANGED | CHANGES_DONE_HINT | DELETED | CREATED | ATTRIBUTE_CHANGED
| PRE_UNMOUNT | UNMOUNTED | MOVED.

#[global] Instance FileMonitorEvent_eq_dec : EqDecision FileMonitorEvent.
Proof. solve_decision. Defined.

(** What the program does to the outside, in the order it does it.  A log
    record is kept by its level and format string. *)
Inductive effect :=
| Log (l : level) (fmt : string)
| Popen (argv : list string)
| CheckOutput (argv : list string)
| Terminate (p : process)
| Sleep (secs : Z)
| Open (path : string)
| Emit (s : signal)
| IoAddWatch (id : nat)
| TimeoutAdd (id : nat) (ms : Z)
| SourceRemove (id : nat)
| MonitorFile (path : string)
| MonitorConnect (id : nat)
| MonitorDisconnect (id : nat)
| MonitorCancel.

(** How a call of [xset] through [subprocess.check_output] ends. *)
Inductive xset_outcome :=
| XsetOSError
| XsetCalledProcessError
| XsetOutput (out : string).

(** How the iteration over the lines of an open file ends: at the end of
    the file, with an [OSError] of the read, or with the
    [UnicodeDecodeError] of a byte that is not text in the encoding of the
    locale. *)
Inductive read_end := EndOfFile | ReadOSError | ReadUnicodeDecodeError.

(** What [open(path, 'r')] and the iteration over the file give: [open]
    raises [IOError], or the iteration yields these lines, as text, and ends
    as said. *)
Inductive file :=
| NoFile
| File (lines : list Text.str) (last : read_end).

(** The outside, as one method call finds it. *)
Record Env : Type := mk_env {
  (** [datetime.datetime.now()] *)
  env_now : Datetime.datetime;
  (** whether [subprocess.Popen(argv)] can start the child; if not it
      raises [OSError] *)
  env_popen : list string -> bool;
  (** [returncode] and standard output of a finished child *)
  env_communicate : list string -> Z * string;
  (** [process.poll() is None]: the child still runs *)
  env_running : process -> bool;
  env_xset : string -> xset_outcome;
  (** what [open(path, 'r')] and [for line in f] give *)
  env_open : string -> file;
  (** [os.path.expanduser] *)
  env_expanduser : string -> string
}.

(** The manager, the sources of the GLib main loop (the armed timeouts
    with their interval in milliseconds, the I/O watches, the next source
    id) and the trace so far. *)
Record World : Type := mk_world {
  self : XScreenSaverManager;
  next_source : nat;
  timers : gmap nat Z;
  io_watches : gset nat;
  trace : list effect
}.

Inductive result (A : Type) : Type :=
| Return (a : A)
| Raise (e : exn).
Arguments Return {A} a.
Arguments Raise {A} e.

(** A method body. *)
Definition M (A : Type) : Type := Env -> World -> result A * World.

#[global] Instance M_ret : MRet M := fun A a _ w => (Return a, w).

#[global] Instance M_bind : MBind M := fun A B k c env w =>
  match c env w with
  | (Return a, w') => k a env w'
  | (Raise e, w') => (Raise e, w')
  end.

Definition raise {A} (e : exn) : M A := fun _ w => (Raise e, w).

(** [try: body / except: handler]; the handler says which exceptions it
    catches. *)
Definition try_except {A} (body : M A) (handler : exn -> option (M A)) : M A :=
  fun env w =>
    match body env w with
    | (Return a, w') => (Return a, w')
    | (Raise e, w') =>
        match handler e with
        | Some h => h env w'
        | None => (Raise e, w')
        end
    end.

Definition ask : M Env := fun env w => (Return env, w).
Definition get : M XScreenSaverManager := fun _ w => (Return (self w), w).

(** The world with the manager changed by [f]. *)
Definition update (f : XScreenSaverManager -> XScreenSaverManager) (w : World) : World :=
  mk_world (f (self w)) (next_source w) (timers w) (io_watches w) (trace w).

(** The world with the effects [es] added to its trace. *)
Definition extend (es : list effect) (w : World) : World :=
  mk_world (self w) (next_source w) (timers w) (io_watches w) (trace w ++ es).

Definition assign (f : XScreenSaverManager -> XScreenSaverManager) : M unit :=
  fun _ w => (Return tt, update f w).

Definition tell (e : effect) : M unit :=
  fun _ w => (Return tt, extend [e] w).

Definition log (l : level) (fmt : string) : M unit := tell (Log l fmt).

(** [self.emit(...)] *)
Definition emit (s : signal) : M unit := tell (Emit s).

(** [time.sleep] *)
Definition sleep (secs : Z) : M unit := tell (Sleep secs).

(** [subprocess.Popen(argv)] *)
Definition popen (argv : list string) : M process :=
  tell (Popen argv) ;;
  env ← ask ;
  if env_popen env argv then mret (Process argv) else raise OSError.

(** [process.communicate()[0]] and [process.returncode] *)
Definition communicate (p : process) : M (Z * string) :=
  env ← ask ;
  let 'Process argv := p in
  let '(retcode, out) := env_communicate env argv in
  mret (retcode, out).

(** [GLib.io_add_watch] *)
Definition io_add_watch : M nat :=
  fun _ w =>
    let id := next_source w in
    (Return id,
     mk_world (self w) (S id) (timers w) ({[ id ]} ∪ io_watches w)
       (trace w ++ [IoAddWatch id])).

(** [GLib.timeout_add(ms, callback)]; the callbacks of the program return
    [True], so the source stays armed until it is removed. *)
Definition timeout_add (ms : Z) : M nat :=
  fun _ w =>
    let id := next_source w in
    (Return id,
     mk_world (self w) (S id) (<[ id := ms ]> (timers w)) (io_watches w)
       (trace w ++ [TimeoutAdd id ms])).

(** [GLib.source_remove(id)] *)
Definition source_remove (id : nat) : M unit :=
  fun _ w =>
    (Return tt,
     mk_world (self w) (next_source w) (delete id (timers w)) (io_watches w ∖ {[ id ]})
       (trace w ++ [SourceRemove id])).

(** [datetime.datetime.strptime(data, fmt)] *)
Definition strptime (data : Text.str) (fmt : string) : M Datetime.datetime :=
  match Strptime.strptime data fmt with
  | Some dt => mret dt
  | None => raise ValueError
  end.

(** ** class XScreenSaverManager *)

Definition XSS : string := "xscreensaver".
Definition XSS_COMMAND : string := "xscreensaver-command".
Definition XSS_OPTIONS : string := "~/.xscreensaver".
Definition XSET : string := "xset".
Definition DEFAULT_TIMEOUT : Z := 600.
Definition DATETIME_FORMAT : string := "%a %b %d %H:%M:%S %Y".
Definition TIMEOUT_FORMAT : string := "%H:%M:%S".

Definition newline : string := String "010"%char EmptyString.

Definition __init__ (no_dpms : bool) : XScreenSaverManager :=
  {| _screensaver := None; _active := None; _active_since := None;
     _locked := None; _watcher := None; _watcher_read_buf := None;
     _watcher_id := None; _timeout := Missing; _options_path := None;
     _options_gfile := None; _options_monitor := None;
     _options_monitor_id := None; _manage_dpms := negb no_dpms;
     _inhibit_id := None |}.

(** The world around a fresh manager: no source registered, nothing done. *)
Definition created (no_dpms : bool) : World :=
  mk_world (__init__ no_dpms) 1 ∅ ∅ [].

Definition catch_OSError {A} (h : M A) : exn -> option (M A) :=
  fun e => match e with OSError => Some h | _ => None end.

Definition catch_ValueError {A} (h : M A) : exn -> option (M A) :=
  fun e => match e with ValueError | UnicodeDecodeError => Some h | _ => None end.

(** Runs [xscreensaver-command -cmd]; the stripped output, or [None] when
    the child cannot be started or was killed by a signal. *)
Definition _do_command (cmd : string) : M (option string) :=
  log DEBUG "Calling %s -%s" ;;
  try_except
    (process ← popen [XSS_COMMAND; String.append "-" cmd] ;
     '(retcode, out) ← communicate process ;
     let output := Text.strip_bytes out in
     if retcode <? 0 then
       log ERROR "%s was terminated by signal %d" ;;
       mret None
     else
       log DEBUG "  output (exit: %d): %s" ;;
       mret (Some output))
    (catch_OSError
       (log ERROR "Cannot call %s: %s" ;;
        mret None)).

(** [subprocess.check_output([XSET, cmd])] *)
Definition check_output_xset (cmd : string) : M xset_outcome :=
  tell (CheckOutput [XSET; cmd]) ;;
  env ← ask ;
  mret (env_xset env cmd).

Definition _set_dpms (enable : bool) : M unit :=
  s ← get ;
  if _manage_dpms s then
    let cmd := if enable then "+dpms" else "-dpms" in
    log DEBUG "Calling %s %s" ;;
    r ← check_output_xset cmd ;
    match r with
    | XsetOutput output =>
        if negb (Text.is_empty_bytes output) then log ERROR "%s returned with output: %s"
        else log DEBUG "  exited normally"
    | XsetCalledProcessError => log ERROR "%s returned non-zero exit status %d: %s"
    | XsetOSError => log ERROR "Cannot call %s: %s"
    end
  else mret tt.

(** Truth value of an attribute holding [None] or a [bool]. *)
Definition truthy (o : option bool) : bool :=
  match o with Some b => b | None => false end.

(** One suppression tick, also the callback of the inhibition timer. *)
Definition _do_inhibit : M bool :=
  s ← get ;
  (if negb (truthy (_locked s)) then
     log DEBUG "Inhibiting" ;;
     _do_command "deactivate" ;;
     _set_dpms false
   else
     log DEBUG "Screensaver is locked, skipping inhibit") ;;
  mret true.

(** [self._timeout - 10], as far as it is defined. *)
Definition timeout_minus_10 : M Z :=
  s ← get ;
  match _timeout s with
  | Missing => raise AttributeError
  | PyNone => raise TypeError
  | PyInt t => mret (t - 10)
  end.

Definition inhibit : M unit :=
  d ← timeout_minus_10 ;
  let interval := Z.max 20 d in
  log DEBUG "Inhibiting screensaver every %d seconds" ;;
  s ← get ;
  match _inhibit_id s with
  | Some id => source_remove id
  | None => mret tt
  end ;;
  _do_inhibit ;;
  id ← timeout_add (interval * 1000) ;
  assign (with_inhibit_id (Some id)).

Definition uninhibit : M unit :=
  log DEBUG "Uninhibiting screensaver" ;;
  s ← get ;
  match _inhibit_id s with
  | Some id =>
      _set_dpms true ;;
      source_remove id ;;
      assign (with_inhibit_id None)
  | None => mret tt
  end.

(** [a = line.strip().split()] with [len(a) == 2 and a[0] == 'timeout:']:
    the second token [a[1]] of such a line. *)
Definition timeout_token (line : Text.str) : option Text.str :=
  match Text.split (Text.strip line) with
  | [a0; a1] => if Text.eqb a0 (Text.lit "timeout:") then Some a1 else None
  | _ => None
  end.

(** The loop [for line in f] of [_read_timeout]: the first line of
    exactly two tokens, the first being [timeout:], decides and ends the
    loop; when no line is left the iteration ends, or raises. *)
Fixpoint scan_options (lines : list Text.str) (last : read_end) (timeout : Z) : M Z :=
  match lines with
  | [] =>
      match last with
      | EndOfFile => mret timeout
      | ReadOSError => raise OSError
      | ReadUnicodeDecodeError => raise UnicodeDecodeError
      end
  | line :: lines' =>
      match timeout_token line with
      | Some a1 =>
          log DEBUG "  found timeout: %s" ;;
          try_except
            (dt ← strptime a1 TIMEOUT_FORMAT ;
             let timeout :=
               Datetime.second dt + (Datetime.minute dt * 60)
               + (Datetime.hour dt * 3600) in
             log DEBUG "Timeout was %d seconds, now %d seconds" ;;
             mret timeout)
            (catch_ValueError
               (log DEBUG "  cannot parse timeout: %s" ;;
                log DEBUG "Resetting timeout to default (%d seconds)" ;;
                mret timeout))
      | None => scan_options lines' last timeout
      end
  end.

(** [f = open(self._options_path, 'r')]: the lines the iteration over
    [f] will yield and how it will end. *)
Definition open_options : M (list Text.str * read_end) :=
  s ← get ;
  match _options_path s with
  | None => raise TypeError
  | Some path =>
      tell (Open path) ;;
      env ← ask ;
      match env_open env path with
      | File lines last => mret (lines, last)
      | NoFile => raise IOError
      end
  end.

Definition is_event (e : FileMonitorEvent) (event_type : option FileMonitorEvent) : bool :=
  bool_decide (event_type = Some e).

(** [timeout != self._timeout] *)
Definition differs (timeout : Z) (stored : slot) : bool :=
  match stored with
  | PyInt t => negb (timeout =? t)
  | PyNone => true
  | Missing => true
  end.

(** The first half of [_read_timeout]: the value of its local [timeout]
    when the comparison with the stored timeout is reached. *)
Definition computed_timeout (event_type : option FileMonitorEvent) (init : bool) : M Z :=
  let timeout := DEFAULT_TIMEOUT in
  if is_event CHANGES_DONE_HINT event_type || init then
    (if init then log DEBUG "Attempting to read from %s"
     else log DEBUG "%s changed, attempting to read") ;;
    try_except
      ('(lines, last) ← open_options ;
       scan_options lines last timeout)
      (catch_OSError
         (log DEBUG "  failed: %s" ;;
          log DEBUG "Resetting timeout to default (%d seconds)" ;;
          mret timeout))
  else
    log DEBUG "%s deleted, resetting timeout to default (%d seconds)" ;;
    mret timeout.

Definition _read_timeout (event_type : option FileMonitorEvent) (init : bool) : M unit :=
  if is_event CHANGES_DONE_HINT event_type || is_event DELETED event_type || init then
    timeout ← computed_timeout event_type init ;
    s ← get ;
    match _timeout s with
    | Missing => raise AttributeError
    | stored =>
        if differs timeout stored then
          assign (with_timeout (PyInt timeout)) ;;
          s ← get ;
          match _inhibit_id s with
          | Some _ => inhibit
          | None => mret tt
          end ;;
          emit (timeout_changed timeout)
        else mret tt
    end
  else mret tt.

(** [state == 'BLANK' or state == 'LOCK' or state == 'UNBLANK'] *)
Definition recognized (state : Text.str) : bool :=
  Text.eqb state (Text.lit "BLANK") || Text.eqb state (Text.lit "LOCK")
  || Text.eqb state (Text.lit "UNBLANK").

(** An object of one of the two string types of Python 3. *)
Inductive pystring := Bytes (b : string) | Str (s : Text.str).

(** [a != b]: a [bytes] and a [str] are never equal. *)
Definition ne (a b : pystring) : bool :=
  match a, b with
  | Bytes x, Bytes y => negb (String.eqb x y)
  | Str x, Str y => negb (Text.eqb x y)
  | _, _ => true
  end.

(** [''.join(parts)] for a list that holds [bytes]: the empty [str] for
    the empty list, [TypeError] at the first item otherwise. *)
Definition join (parts : list string) : M Text.str :=
  match parts with
  | [] => mret []
  | _ :: _ => raise TypeError
  end.

(** The callback of the I/O watch on the watcher's output; [c] is what
    [source.read(1)] returned.  The pipe was opened without a text mode, so
    [c] is a [bytes]: one byte, or none at the end of the stream. *)
Definition _read_from_watcher (c : string) : M bool :=
  (if ne (Bytes c) (Str (Text.lit newline)) then
     s ← get ;
     match _watcher_read_buf s with
     | Some buf => assign (with_watcher_read_buf (Some (buf ++ [c])%list))
     | None => raise AttributeError
     end
   else
     s ← get ;
     event ← match _watcher_read_buf s with
             | Some buf => join buf
             | None => raise TypeError
             end ;
     assign (with_watcher_read_buf (Some [])) ;;
     match Text.split1 event with
     | [state; rest] =>
         if recognized state then
           let active := negb (Text.eqb state (Text.lit "UNBLANK")) in
           since ← strptime (Text.strip rest) DATETIME_FORMAT ;
           assign (with_locked (Some (Text.eqb state (Text.lit "LOCK")))) ;;
           log DEBUG "Screensaver state changed to %s at %s" ;;
           s ← get ;
           if bool_decide (Some active ≠ _active s) then
             assign (with_active (Some active)) ;;
             assign (with_active_since (Some since)) ;;
             emit (active_changed active)
           else mret tt
         else mret tt
     | _ => raise ValueError
     end) ;;
  mret true.

(** [output.decode('utf-8')] on what [_do_command] returned: [None] has no
    such method, and bytes that are not UTF-8 raise. *)
Definition decode (output : option string) : M Text.str :=
  match output with
  | Some bytes =>
      match Text.decode bytes with
      | Some text => mret text
      | None => raise UnicodeDecodeError
      end
  | None => raise AttributeError
  end.

Definition activate : M unit :=
  log DEBUG "Starting screensaver" ;;
  try_except
    (p ← popen [XSS; "-nosplash"] ;
     assign (with_screensaver (Some p)))
    (catch_OSError
       (log ERROR "Cannot start screensaver: %s" ;;
        raise OSError)) ;;
  sleep 1 ;;
  assign (with_active (Some false)) ;;
  env ← ask ;
  assign (with_active_since (Some (env_now env))) ;;
  assign (with_locked (Some false)) ;;
  output ← _do_command "time" ;
  text ← decode output ;
  match Text.search_screen_since text with
  | Some (state, date_str) =>
      assign (with_active (Some (negb (Text.eqb state (Text.lit "non-blanked"))))) ;;
      since ← strptime (Text.strip date_str) DATETIME_FORMAT ;
      assign (with_active_since (Some since)) ;;
      assign (with_locked (Some (Text.eqb state (Text.lit "locked"))))
  | None => mret tt
  end ;;
  log DEBUG "Starting watcher" ;;
  try_except
    (p ← popen [XSS_COMMAND; "-watch"] ;
     assign (with_watcher (Some p)))
    (catch_OSError
       (log ERROR "Cannot start watcher: %s" ;;
        raise OSError)) ;;
  assign (with_watcher_read_buf (Some [])) ;;
  id ← io_add_watch ;
  assign (with_watcher_id (Some id)) ;;
  assign (with_timeout (PyInt (-1))) ;;
  assign (with_options_path (Some (env_expanduser env XSS_OPTIONS))) ;;
  _read_timeout None true ;;
  s ← get ;
  assign (with_options_gfile (_options_path s)) ;;
  tell (MonitorFile (default EmptyString (_options_path s))) ;;
  assign (with_options_monitor (_options_path s)) ;;
  tell (MonitorConnect 1) ;;
  assign (with_options_monitor_id (Some 1%nat)).

Definition when_some {A} (o : option A) (k : A -> M unit) : M unit :=
  match o with
  | Some a => k a
  | None => mret tt
  end.

Definition deactivate : M unit :=
  s ← get ;
  when_some (_inhibit_id s) source_remove ;;
  when_some (_options_monitor s) (fun _ =>
    tell (MonitorDisconnect (default 0%nat (_options_monitor_id s))) ;;
    tell MonitorCancel) ;;
  when_some (_watcher_id s) source_remove ;;
  when_some (_watcher s) (fun p =>
    log DEBUG "Ending watcher" ;;
    tell (Terminate p)) ;;
  env ← ask ;
  when_some (_screensaver s) (fun p =>
    if env_running env p then
      log DEBUG "Ending screensaver" ;;
      _do_command "exit" ;;
      sleep 1
    else mret tt) ;;
  assign (with_screensaver None) ;;
  assign (with_active None) ;;
  assign (with_active_since None) ;;
  assign (with_locked None) ;;
  assign (with_watcher None) ;;
  assign (with_watcher_read_buf None) ;;
  assign (with_watcher_id None) ;;
  assign (with_timeout PyNone) ;;
  assign (with_options_path None) ;;
  assign (with_options_gfile None) ;;
  assign (with_options_monitor None) ;;
  assign (with_options_monitor_id None) ;;
  assign (with_inhibit_id None).

(** The property [active]: its getter and its setter. *)
Definition active : M (option bool) :=
  s ← get ; mret (_active s).

Definition set_active (value : bool) : M unit :=
  s ← get ;
  if bool_decide (Some value ≠ _active s) then
    cmd ← (if value then
             log DEBUG "Screensaver is inactive, activating" ;;
             mret "activate"
           else
             log DEBUG "Screensaver is active, deactivating" ;;
             mret "deactivate") ;
    _do_command cmd ;;
    mret tt
  else
    if value then log DEBUG "Screensaver is already active"
    else log DEBUG "Screensaver is already inactive".

(** The property [active_time]. *)
Definition active_time : M Z :=
  let seconds := 0 in
  s ← get ;
  if truthy (_active s) then
    env ← ask ;
    match _active_since s with
    | Some since =>
        let delta := Datetime.sub (env_now env) since in
        let seconds := Datetime.seconds delta + (Datetime.days delta * 3600) in
        mret seconds
    | None => raise TypeError
    end
  else mret seconds.

(** The property [timeout]. *)
Definition timeout : M slot :=
  s ← get ;
  match _timeout s with
  | Missing => raise AttributeError
  | v => mret v
  end.

Definition lock : M unit :=
  s ← get ;
  if negb (truthy (_locked s)) then
    log DEBUG "Locking" ;;
    _do_command "lock" ;;
    mret tt
  else log DEBUG "Already locked".

Definition simulate_user_activity : M unit :=
  log DEBUG "Simulating user activity" ;;
  _do_command "deactivate" ;;
  mret tt.

(** ** Runs of the manager

    What can happen to a manager between its construction and the end of
    the program: a method call from the service, or a callback from the main
    loop.  An exception raised by a call ends the call; the manager keeps
    what the call had done to it. *)
Inductive op :=
| Activate
| Deactivate
| WatcherReadable (c : string)
| OptionsChanged (event_type : option FileMonitorEvent)
| GetActive
| SetActive (value : bool)
| GetActiveTime
| GetTimeout
| Lock
| SimulateUserActivity
| Inhibit
| Uninhibit
| InhibitTick.

Definition ignore {A} (c : M A) : M unit := c ;; mret tt.

Definition perform (o : op) : M unit :=
  match o with
  | Activate => activate
  | Deactivate => deactivate
  | WatcherReadable c => ignore (_read_from_watcher c)
  | OptionsChanged e => _read_timeout e false
  | GetActive => ignore active
  | SetActive v => set_active v
  | GetActiveTime => ignore active_time
  | GetTimeout => ignore timeout
  | Lock => lock
  | SimulateUserActivity => simulate_user_activity
  | Inhibit => inhibit
  | Uninhibit => uninhibit
  | InhibitTick => ignore _do_inhibit
  end.

(** The world after one call. *)
Definition after {A} (c : M A) (env : Env) (w : World) : World := (c env w).2.

(** The world after a sequence of events, each in its own environment. *)
Definition run (events : list (Env * op)) (w : World) : World :=
  fold_left (fun w '(env, o) => after (perform o) env w) events w.

(** What [source.read(1)] returns, call after call, when the watcher has
    written [output]: its bytes, one at a time. *)
Definition reads (output : string) : list string :=
  map (fun c => String c EmptyString) (list_ascii_of_string output).

(** The watcher writes [output]: one callback per byte. *)
Definition watcher_writes (env : Env) (output : string) (w : World) : World :=
  run (map (fun c => (env, WatcherReadable c)) (reads output)) w.

(** The signals emitted in a trace, in order. *)
Definition emitted (tr : list effect) : list signal :=
  omap (fun e => match e with Emit s => Some s | _ => None end) tr.

(** The child processes started in a trace, in order. *)
Definition spawned (tr : list effect) : list (list string) :=
  omap (fun e => match e with
                 | Popen argv => Some argv
                 | CheckOutput argv => Some argv
                 | _ => None
                 end) tr.

(** The main-loop source events of a trace, in order. *)
Definition source_events (tr : list effect) : list effect :=
  omap (fun e => match e with
                 | IoAddWatch _ | TimeoutAdd _ _ | SourceRemove _ => Some e
                 | _ => None
                 end) tr.

(** The commands a suppression tick runs for a manager in state [s]. *)
Definition tick_commands (s : XScreenSaverManager) : list (list string) :=
  if truthy (_locked s) then []
  else [XSS_COMMAND; "-deactivate"]
         :: (if _manage_dpms s then [[XSET; "-dpms"]] else []).

(** The seconds of inhibition interval for a stored timeout. *)
Definition interval_of (timeout : Z) : Z := Z.max 20 (timeout - 10).

(** The [time] query gives no output: the command cannot be started, or a
    signal ended it. *)
Definition query_fails (env : Env) : bool :=
  negb (env_popen env [XSS_COMMAND; "-time"])
  || ((env_communicate env [XSS_COMMAND; "-time"]).1 <? 0).

(** ** Relations between the world before and after a call *)

(** Nothing but the trace changed. *)
Definition only_trace (w w' : World) : Prop :=
  self w' = self w /\ next_source w' = next_source w
  /\ timers w' = timers w /\ io_watches w' = io_watches w.

(** [active], [locked] and [since] are as they were. *)
Definition same_tracker (w w' : World) : Prop :=
  _active (self w') = _active (self w)
  /\ _locked (self w') = _locked (self w)
  /\ _active_since (self w') = _active_since (self w).

(** No signal was emitted. *)
Definition same_signals (w w' : World) : Prop :=
  emitted (trace w') = emitted (trace w).

(** No main-loop source was added or removed. *)
Definition same_sources (w w' : World) : Prop :=
  source_events (trace w') = source_events (trace w).

(** Nothing changed but the trace, and the trace gained neither a signal
    nor a source event. *)
Definition quiet (w w' : World) : Prop :=
  only_trace w w' /\ same_signals w w' /\ same_sources w w'.

(** The property [I] survives. *)
Definition maintains (I : World -> Prop) (w w' : World) : Prop := I w -> I w'.

(** The armed timers and the stored timer id are as they were. *)
Definition same_timers (w w' : World) : Prop :=
  timers w' = timers w /\ _inhibit_id (self w') = _inhibit_id (self w).

(** [keeps R c]: whatever the environment and the world, and whether [c]
    returns or raises, the world it leaves is [R]-related to the one it
    found. *)
Definition keeps (R : relation World) {A} (c : M A) : Prop :=
  forall env w, R w (c env w).2.

(** ** Invariants *)

(** [locked] implies [active]. *)
Definition locked_implies_active (w : World) : Prop :=
  _locked (self w) = Some true -> _active (self w) = Some true.

(** The armed timers are exactly the one the manager remembers. *)
Definition timers_ok (w : World) : Prop :=
  dom (timers w) = match _inhibit_id (self w) with
                   | Some id => {[ id ]}
                   | None => ∅
                   end.

(** ** Further relations and invariants *)

(** The attribute [f] of the manager is as it was. *)
Definition same_field {A} (f : XScreenSaverManager -> A) (w w' : World) : Prop :=
  f (self w') = f (self w).

(** A stored timeout is the sentinel of [activate] or a number of
    seconds within a day. *)
Definition timeout_ok (w : World) : Prop :=
  match _timeout (self w) with
  | PyInt t => -1 <= t <= 86399
  | _ => True
  end.

(** The command lines given to [subprocess.check_output] in a trace: the
    calls of [xset]. *)
Definition xset_calls (tr : list effect) : list (list string) :=
  omap (fun e => match e with CheckOutput argv => Some argv | _ => None end) tr.

(** Power management is left alone, and has been so far. *)
Definition dpms_untouched (w : World) : Prop :=
  _manage_dpms (self w) = false /\ xset_calls (trace w) = [].

(** Power management is as it was: no call of [xset] was added. *)
Definition same_xset (w w' : World) : Prop :=
  _manage_dpms (self w') = _manage_dpms (self w)
  /\ xset_calls (trace w') = xset_calls (trace w).

(** ** The timeout the specification prescribes

    Specification, 4.3: scan the lines top to bottom; the first line whose
    first token is [timeout:] and which has exactly one more token is the
    source; that token must parse as [HH:MM:SS], and the seconds
    [H*3600 + M*60 + S] are the timeout; an unreadable file, no such line or
    a token that does not parse give the default, 600 seconds. *)

(** [HH:MM:SS], two digits each. *)
Definition hms_text (h m s : Z) : Text.str :=
  Strptime.two_digits h ++ Text.lit ":" ++ Strptime.two_digits m
  ++ Text.lit ":" ++ Strptime.two_digits s.

Definition hms_seconds (tok : Text.str) : option Z :=
  match Strptime.strptime tok TIMEOUT_FORMAT with
  | Some dt =>
      Some (Datetime.hour dt * 3600 + Datetime.minute dt * 60 + Datetime.second dt)
  | None => None
  end.

Definition spec_timeout (f : file) : Z :=
  match f with
  | NoFile => 600
  | File lines _ =>
      match head (omap timeout_token lines) with
      | Some tok => default 600 (hms_seconds tok)
      | None => 600
      end
  end.

(** The iteration over the file raises [UnicodeDecodeError] before a line
    has decided. *)
Definition undecodable (f : file) : bool :=
  match f with
  | File lines ReadUnicodeDecodeError => Text.is_empty (omap timeout_token lines)
  | _ => false
  end.

(** ** A session to compute with

    The daemon answers the [time] query with an unblanked screen, every
    child starts, [xset] is silent, and the options file sets a timeout of
    five and a half minutes. *)

Definition example_options : list Text.str :=
  map Text.lit
    ["# XScreenSaver Preferences File"; "timeout:	0:05:30"; "lock:		True"].

Definition example_env : Env :=
  {| env_now := Datetime.mk_datetime 2024 1 1 9 0 0 250000;
     env_popen := fun _ => true;
     env_communicate := fun _ =>
       (0, "XScreenSaver 5.15: screen non-blanked since Mon Jan  1 08:00:00 2024 (hack #1)");
     env_running := fun _ => true;
     env_xset := fun _ => XsetOutput EmptyString;
     env_open := fun _ => File example_options EndOfFile;
     env_expanduser := fun _ => "/home/user/.xscreensaver" |}.

(** The manager after its activation in that session. *)
Definition example_world : World := after activate example_env (created false).

(** The same session a day later, and ninety seconds after ten o'clock. *)
Definition at_time (now : Datetime.datetime) (env : Env) : Env :=
  {| env_now := now;
     env_popen := env_popen env;
     env_communicate := env_communicate env;
     env_running := env_running env;
     env_xset := env_xset env;
     env_open := env_open env;
     env_expanduser := env_expanduser env |}.

(** The session in which the [time] query is killed by a signal. *)
Definition example_env_killed : Env :=
  {| env_now := env_now example_env;
     env_popen := env_popen example_env;
     env_communicate := fun _ => (-15, EmptyString);
     env_running := env_running example_env;
     env_xset := env_xset example_env;
     env_open := env_open example_env;
     env_expanduser := env_expanduser example_env |}.

(** The session in which the daemon answers the [time] query with a
    screen blanked since ten o'clock. *)
Definition example_env_blanked : Env :=
  {| env_now := env_now example_env;
     env_popen := env_popen example_env;
     env_communicate := fun _ =>
       (0, "XScreenSaver 5.15: screen blanked since Mon Jan  1 10:00:00 2024 (hack #1)");
     env_running := env_running example_env;
     env_xset := env_xset example_env;
     env_open := env_open example_env;
     env_expanduser := env_expanduser example_env |}.

(** The same session after the user set the timeout to ten minutes. *)
Definition example_env_edited : Env :=
  {| env_now := env_now example_env;
     env_popen := env_popen example_env;
     env_communicate := env_communicate example_env;
     env_running := env_running example_env;
     env_xset := env_xset example_env;
     env_open := fun _ => File [Text.lit "timeout:	0:10:00"] EndOfFile;
     env_expanduser := env_expanduser example_env |}.

(** The same session with an options file that holds a byte which is not
    text in the encoding of the locale, such as the Latin-1 byte of
    [# caf\xe9] under UTF-8: the first read of the iteration decodes the
    whole of a short file and raises before it has yielded a line. *)
Definition example_env_undecodable : Env :=
  {| env_now := env_now example_env;
     env_popen := env_popen example_env;
     env_communicate := env_communicate example_env;
     env_running := env_running example_env;
     env_xset := env_xset example_env;
     env_open := fun _ => File [] ReadUnicodeDecodeError;
     env_expanduser := env_expanduser example_env |}.

(** * The other objects of the program

    [GSettingsManager], the three listeners, the D-Bus service and the
    table of handlers of [main].  Their methods thread the attributes of the
    object together with what the object sees of the outside, and meet
    exceptions the manager does not. *)

Inductive error :=
| Python (e : exn)
| KeyError
| OverflowError
| DBusException
(** GLib ends the process, as for a schema that is not installed *)
| Abort.

Inductive outcome (A : Type) : Type :=
| Returns (a : A)
| Raises (e : error).
Arguments Returns {A} a.
Arguments Raises {A} e.

(** A method on a state [S]. *)
Definition Method (S A : Type) : Type := S -> outcome A * S.

#[global] Instance Method_ret {S} : MRet (Method S) := fun A a s => (Returns a, s).

#[global] Instance Method_bind {S} : MBind (Method S) := fun A B k c s =>
  match c s with
  | (Returns a, s') => k a s'
  | (Raises e, s') => (Raises e, s')
  end.

Definition throw {S A} (e : error) : Method S A := fun s => (Raises e, s).

Definition read {S} : Method S S := fun s => (Returns s, s).

Definition modify {S} (f : S -> S) : Method S unit := fun s => (Returns tt, f s).

(** [for x in l: body(x)] *)
Fixpoint for_each {S A} (l : list A) (body : A -> Method S unit) : Method S unit :=
  match l with
  | [] => mret tt
  | a :: l' => body a ;; for_each l' body
  end.

(** The state after a call. *)
Definition then_ {S A} (c : Method S A) (s : S) : S := (c s).2.

(** A Python [dict] with string keys, in insertion order. *)
Fixpoint dict_get {V} (key : string) (d : list (string * V)) : option V :=
  match d with
  | [] => None
  | (k, v) :: d' => if String.eqb k key then Some v else dict_get key d'
  end.

(** [d[key] = v]: an existing key keeps its place. *)
Fixpoint dict_set {V} (key : string) (v : V) (d : list (string * V)) : list (string * V) :=
  match d with
  | [] => [(key, v)]
  | (k, v') :: d' =>
      if String.eqb k key then (k, v) :: d' else (k, v') :: dict_set key v d'
  end.

(** ** class GSettingsManager *)

Module GSettingsManager.

Inductive gtype := boolean | uint | int.

Record info : Type := mk_info {
  schema : string;
  type : gtype;
  (** a Python [bool] or [int], as the integer it compares equal to:
      [False] is [0] *)
  clamp : Z
}.

Definition SCHEMA_SCREENSAVER : string := "org.gnome.desktop.screensaver".
Definition SCHEMA_SESSION : string := "org.gnome.desktop.session".
Definition SCHEMA_POWER : string := "org.gnome.settings-daemon.plugins.power".

Definition SETTINGS : list (string * info) :=
  [("idle-activation-enabled", mk_info SCHEMA_SCREENSAVER boolean 0);
   ("idle-delay", mk_info SCHEMA_SESSION uint 0);
   ("sleep-display-ac", mk_info SCHEMA_POWER int 0);
   ("sleep-display-battery", mk_info SCHEMA_POWER int 0)].

(** An entry of [_saved]. *)
Record saved : Type := mk_saved {
  value : option Z;
  handler_id : nat
}.

Record t : Type := mk {
  (** the schemas that have a [Gio.Settings] object, in insertion order *)
  _gsettings : option (list string);
  _saved : option (list (string * saved))
}.

Inductive severity := DEBUG | WARNING.

Inductive effect :=
| Log (l : severity) (fmt : string)
| Sync (schema : string).

(** What the settings database allows. *)
Record Env : Type := mk_env {
  (** the schema is installed; [Gio.Settings] of another ends the process *)
  installed : string -> bool;
  (** [set_*] on the key succeeds *)
  writable : string -> string -> bool
}.

(** The object, the settings database (the value of every key of every
    schema, a [bool] as [0] or [1]), the connected [changed::key] handlers in
    the order of their connection, the blocked ones, the calls queued with
    [GLib.idle_add] and the trace. *)
Record world : Type := mk_world {
  self : t;
  store : gmap (string * string) Z;
  handlers : list (nat * (string * string));
  blocked : gset nat;
  next_handler : nat;
  idle : list (string * Z);
  trace : list effect
}.

Definition __init__ : t := mk None None.

Definition created (db : gmap (string * string) Z) : world :=
  mk_world __init__ db [] ∅ 1 [] [].

Definition with_self (f : t -> t) (w : world) : world :=
  mk_world (f (self w)) (store w) (handlers w) (blocked w) (next_handler w)
    (idle w) (trace w).

Definition with_store (f : gmap (string * string) Z -> gmap (string * string) Z)
    (w : world) : world :=
  mk_world (self w) (f (store w)) (handlers w) (blocked w) (next_handler w)
    (idle w) (trace w).

Definition with_handlers (f : list (nat * (string * string)) -> list (nat * (string * string)))
    (w : world) : world :=
  mk_world (self w) (store w) (f (handlers w)) (blocked w) (next_handler w)
    (idle w) (trace w).

Definition with_blocked (f : gset nat -> gset nat) (w : world) : world :=
  mk_world (self w) (store w) (handlers w) (f (blocked w)) (next_handler w)
    (idle w) (trace w).

Definition with_idle (f : list (string * Z) -> list (string * Z)) (w : world) : world :=
  mk_world (self w) (store w) (handlers w) (blocked w) (next_handler w)
    (f (idle w)) (trace w).

Definition log (l : severity) (fmt : string) : Method world unit :=
  modify (fun w =>
    mk_world (self w) (store w) (handlers w) (blocked w) (next_handler w)
      (idle w) (trace w ++ [Log l fmt])).

(** [self.SETTINGS[key]] *)
Definition setting (key : string) : Method world info :=
  match dict_get key SETTINGS with
  | Some i => mret i
  | None => throw KeyError
  end.

(** [self._gsettings[schema]]; the object is known by its schema. *)
Definition gsettings_of (schema : string) : Method world string :=
  w ← read ;
  match _gsettings (self w) with
  | None => throw (Python TypeError)
  | Some d => if existsb (String.eqb schema) d then mret schema else throw KeyError
  end.

(** [self._saved[key]] *)
Definition saved_of (key : string) : Method world saved :=
  w ← read ;
  match _saved (self w) with
  | None => throw (Python TypeError)
  | Some d =>
      match dict_get key d with
      | Some e => mret e
      | None => throw KeyError
      end
  end.

(** [gsettings.get_<type>(key)]; GLib ends the process on a key the schema
    does not have. *)
Definition get_value (schema key : string) : Method world Z :=
  w ← read ;
  match store w !! (schema, key) with
  | Some z => mret z
  | None => throw Abort
  end.

Definition _get_setting (key : string) : Method world Z :=
  info ← setting key ;
  gsettings ← gsettings_of (schema info) ;
  get_value gsettings key.

(** [GLib.idle_add(self._set_setting, key, clamp, False)] *)
Definition idle_add (key : string) (z : Z) : Method world unit :=
  modify (with_idle (fun q => q ++ [(key, z)])).

Definition _changed (key : string) (init : bool) : Method world unit :=
  info ← setting key ;
  value ← _get_setting key ;
  (if init then log DEBUG "Saving initial value %s for %s.%s"
   else log DEBUG "%s.%s changed to %s") ;;
  e ← saved_of key ;
  modify (with_self (fun s =>
    mk (_gsettings s)
       (option_map (dict_set key (mk_saved (Some value) (handler_id e))) (_saved s)))) ;;
  if negb (value =? clamp info) then idle_add key (clamp info) else mret tt.

(** The [changed::key] signal of a schema: the connected handlers that are
    not blocked run [_changed(key)], in the order of their connection; what a
    handler raises is printed and dropped. *)
Definition notify (schema key : string) : Method world unit :=
  fun w =>
    (Returns tt,
     fold_left
       (fun w '(id, (s, k)) =>
          if String.eqb s schema && String.eqb k key
             && negb (bool_decide (id ∈ blocked w))
          then then_ (_changed k false) w
          else w)
       (handlers w) w).

(** The value a [set_<type>] call passes on: a [boolean] takes the truth
    of any object, an integer must be a number in range. *)
Definition marshal (ty : gtype) (v : option Z) : Method world Z :=
  match ty, v with
  | boolean, None => mret 0
  | boolean, Some z => mret (if z =? 0 then 0 else 1)
  | uint, Some z =>
      if (0 <=? z) && (z <? 2 ^ 32) then mret z else throw OverflowError
  | int, Some z =>
      if (- 2 ^ 31 <=? z) && (z <? 2 ^ 31) then mret z else throw OverflowError
  | _, None => throw (Python TypeError)
  end.

(** [gsettings.set_<type>(key, value)]: whether the key was written. *)
Definition set_value (env : Env) (ty : gtype) (schema key : string) (v : option Z)
  : Method world bool :=
  z ← marshal ty v ;
  w ← read ;
  match store w !! (schema, key) with
  | None => throw Abort
  | Some _ =>
      if writable env schema key then
        modify (with_store <[ (schema, key) := z ]>) ;;
        notify schema key ;;
        mret true
      else mret false
  end.

Definition handler_block (id : nat) : Method world unit :=
  modify (with_blocked (fun b => {[ id ]} ∪ b)).

Definition handler_unblock (id : nat) : Method world unit :=
  modify (with_blocked (fun b => b ∖ {[ id ]})).

Definition _set_setting (env : Env) (key : string) (value : option Z) (ret : option bool)
  : Method world bool :=
  info ← setting key ;
  let schema := schema info in
  gsettings ← gsettings_of schema ;
  e ← saved_of key ;
  let handler_id := handler_id e in
  log DEBUG "Setting %s.%s to %s" ;;
  handler_block handler_id ;;
  result ← set_value env (type info) gsettings key value ;
  modify (fun w =>
    mk_world (self w) (store w) (handlers w) (blocked w) (next_handler w)
      (idle w) (trace w ++ [Sync gsettings])) ;;
  handler_unblock handler_id ;;
  (if negb result then log WARNING "Unable to set %s.%s to %s" else mret tt) ;;
  mret (match ret with Some r => r | None => result end).

(** [Gio.Settings(schema)] *)
Definition new_settings (env : Env) (schema : string) : Method world string :=
  if installed env schema then mret schema else throw Abort.

(** [gsettings.connect('changed::' + key, ...)] *)
Definition connect (schema key : string) : Method world nat :=
  fun w =>
    let id := next_handler w in
    (Returns id,
     mk_world (self w) (store w) (handlers w ++ [(id, (schema, key))]) (blocked w)
       (S id) (idle w) (trace w)).

(** [gsettings.disconnect(handler_id)] *)
Definition disconnect (id : nat) : Method world unit :=
  modify (with_handlers (List.filter (fun h => negb (Nat.eqb h.1 id)))).

(** The body of the first loop of [activate]. *)
Definition create_settings (env : Env) (item : string * info) : Method world unit :=
  let '(key, info) := item in
  let schema := schema info in
  w ← read ;
  match _gsettings (self w) with
  | None => throw (Python TypeError)
  | Some d =>
      if negb (existsb (String.eqb schema) d) then
        g ← new_settings env schema ;
        modify (with_self (fun s => mk (Some (d ++ [g])) (_saved s)))
      else mret tt
  end.

(** The body of its second loop. *)
Definition listen (item : string * info) : Method world unit :=
  let '(key, info) := item in
  let schema := schema info in
  gsettings ← gsettings_of schema ;
  w ← read ;
  if bool_decide (is_Some (store w !! (gsettings, key))) then
    log DEBUG "Listening to changes to %s.%s" ;;
    id ← connect gsettings key ;
    w ← read ;
    match _saved (self w) with
    | None => throw (Python TypeError)
    | Some d =>
        modify (with_self (fun s =>
          mk (_gsettings s) (Some (dict_set key (mk_saved None id) d))))
    end ;;
    _changed key true
  else log DEBUG "%s.%s does not exist, skipping".

Definition activate (env : Env) : Method world unit :=
  modify (with_self (fun s => mk (Some []) (_saved s))) ;;
  for_each SETTINGS (create_settings env) ;;
  modify (with_self (fun s => mk (_gsettings s) (Some []))) ;;
  for_each SETTINGS listen.

(** The body of the loop of [deactivate]. *)
Definition restore (env : Env) (item : string * saved) : Method world unit :=
  let '(key, info) := item in
  i ← setting key ;
  let schema := schema i in
  _set_setting env key (value info) None ;;
  log DEBUG "Disconnecting %s.%s" ;;
  gsettings ← gsettings_of schema ;
  disconnect (handler_id info).

Definition deactivate (env : Env) : Method world unit :=
  w ← read ;
  match _saved (self w) with
  | Some ((_ :: _) as d) => for_each d (restore env)
  | _ => mret tt
  end ;;
  modify (with_self (fun s => mk None (_saved s))) ;;
  modify (with_self (fun s => mk (_gsettings s) None)).

(** What the main loop brings: a key was changed by someone else, or the
    loop is idle and runs the first queued call. *)
Inductive event :=
| Changed (schema key : string) (z : Z)
| Idle.

(** The database after a change from outside. *)
Definition changed_db (schema key : string) (z : Z) (db : gmap (string * string) Z)
  : gmap (string * string) Z :=
  match db !! (schema, key) with
  | Some _ => <[ (schema, key) := z ]> db
  | None => db
  end.

Definition step (env : Env) (e : event) (w : world) : world :=
  match e with
  | Changed schema key z =>
      then_ (notify schema key) (with_store (changed_db schema key z) w)
  | Idle =>
      match idle w with
      | [] => w
      | (key, z) :: q =>
          then_ (_set_setting env key (Some z) (Some false)) (with_idle (fun _ => q) w)
      end
  end.

Definition run (env : Env) (events : list event) (w : world) : world :=
  fold_left (fun w e => step env e w) events w.

(** The database as it would be without the manager. *)
Definition outside (events : list event) (db : gmap (string * string) Z)
  : gmap (string * string) Z :=
  fold_left (fun db e =>
               match e with
               | Changed schema key z => changed_db schema key z db
               | Idle => db
               end) events db.

(** A value of the type of the key. *)
Definition fits (ty : gtype) (z : Z) : bool :=
  match ty with
  | boolean => (z =? 0) || (z =? 1)
  | uint => (0 <=? z) && (z <? 2 ^ 32)
  | int => (- 2 ^ 31 <=? z) && (z <? 2 ^ 31)
  end.

(** The schema of a key of the table. *)
Definition schema_of (key : string) : string :=
  match dict_get key SETTINGS with
  | Some i => schema i
  | None => EmptyString
  end.

(** The handler an entry of [_saved] stands for. *)
Definition handler_of (entry : string * saved) : nat * (string * string) :=
  (handler_id entry.2, (schema_of entry.1, entry.1)).

(** The keys of the table hold values of their types. *)
Definition typed (db : gmap (string * string) Z) : Prop :=
  forall key info z,
    dict_get key SETTINGS = Some info ->
    db !! (schema info, key) = Some z ->
    fits (type info) z = true.

(** A change from outside respects the type of a key of the table. *)
Definition typed_event (e : event) : Prop :=
  match e with
  | Changed s key z =>
      forall info,
        dict_get key SETTINGS = Some info -> schema info = s ->
        fits (type info) z = true
  | Idle => True
  end.

(** The same, as tests. *)
Definition well_typed (db : gmap (string * string) Z) : bool :=
  forallb (fun '(key, info) =>
             match db !! (schema info, key) with
             | Some z => fits (type info) z
             | None => true
             end) SETTINGS.

Definition well_typed_event (e : event) : bool :=
  match e with
  | Changed s key z =>
      match dict_get key SETTINGS with
      | Some info => if String.eqb (schema info) s then fits (type info) z else true
      | None => true
      end
  | Idle => true
  end.

(** The three schemas of the table are installed. *)
Definition schemas_installed (env : Env) : bool :=
  installed env SCHEMA_SCREENSAVER && installed env SCHEMA_SESSION
  && installed env SCHEMA_POWER.

(** What holds of a manager between [activate] and [deactivate]: [db] is
    the database as it would be without the manager, [done] the keys the
    activation has reached and [d] the dictionary [_saved]. *)
Definition consistent (env : Env) (db : gmap (string * string) Z)
    (done : list string) (d : list (string * saved)) (w : world) : Prop :=
  _gsettings (self w) = Some [SCHEMA_SCREENSAVER; SCHEMA_SESSION; SCHEMA_POWER]
  /\ _saved (self w) = Some d
  /\ handlers w = handler_of <$> d
  /\ NoDup d.*1
  /\ (forall k e,
        dict_get k d = Some e ->
        k ∈ done
        /\ exists info v,
             dict_get k SETTINGS = Some info
             /\ db !! (schema info, k) = Some v
             /\ value e = Some v)
  /\ (forall k info,
        k ∈ done -> dict_get k SETTINGS = Some info ->
        is_Some (db !! (schema info, k)) -> is_Some (dict_get k d))
  /\ blocked w = ∅
  /\ (forall s k,
        store w !! (s, k) = db !! (s, k)
        \/ exists info,
             dict_get k SETTINGS = Some info /\ schema info = s /\ k ∈ done
             /\ is_Some (db !! (s, k)) /\ writable env s k = true
             /\ store w !! (s, k) = Some (clamp info))
  /\ typed db
  /\ Forall (fun '(k, z) =>
               exists info,
                 dict_get k SETTINGS = Some info /\ z = clamp info
                 /\ is_Some (dict_get k d)) (idle w)
  /\ (forall k info v,
        k ∈ done -> dict_get k SETTINGS = Some info ->
        db !! (schema info, k) = Some v ->
        v = clamp info
        \/ store w !! (schema info, k) = Some (clamp info)
        \/ (k, clamp info) ∈ idle w
        \/ writable env (schema info) k = false).

(** A settings database to compute with: the four keys of the table and
    one that is not in it; every schema installed, every key writable. *)
Definition example_db : gmap (string * string) Z :=
  <[ (SCHEMA_SCREENSAVER, "idle-activation-enabled") := 1 ]>
  (<[ (SCHEMA_SESSION, "idle-delay") := 300 ]>
  (<[ (SCHEMA_POWER, "sleep-display-ac") := 600 ]>
  (<[ (SCHEMA_POWER, "sleep-display-battery") := 0 ]>
  (<[ (SCHEMA_POWER, "idle-dim") := 1 ]> ∅)))).

Definition example_env : Env := mk_env (fun _ => true) (fun _ _ => true).

(** The loop runs the queued calls, then the user sets the idle delay to
    two minutes and the loop is idle again. *)
Definition example_events : list event :=
  [Idle; Idle; Idle; Changed SCHEMA_SESSION "idle-delay" 120; Idle].

End GSettingsManager.

(** ** class GnomeSessionManagerListener *)

Module GnomeSessionManagerListener.

Record t : Type := mk {
  (** the proxy of [org.gnome.SessionManager], once there is one *)
  _iface : option string;
  _inhibited : option bool
}.

(** A log record, the signal [inhibited-changed], a call of
    [connect_to_signal]. *)
Inductive effect :=
| Log (fmt : string)
| Emit (inhibited : bool)
| ConnectToSignal (name : string).

Record world : Type := mk_world {
  self : t;
  trace : list effect
}.

Definition GSM_INTERFACE : string := "org.gnome.SessionManager".

Definition __init__ : t := mk None None.

Definition created : world := mk_world __init__ [].

Definition tell (e : effect) : Method world unit :=
  modify (fun w => mk_world (self w) (trace w ++ [e])).

Definition assign (f : t -> t) : Method world unit :=
  modify (fun w => mk_world (f (self w)) (trace w)).

(** [reply] is what [IsInhibited(GSM_INHIBITOR_FLAG_IDLE)] answers;
    [None]: the call raises [DBusException]. *)
Definition _check_inhibited (reply : option bool) : Method world unit :=
  w ← read ;
  match _iface (self w) with
  | None => throw (Python AttributeError)
  | Some _ =>
      match reply with
      | None => throw DBusException
      | Some inhibited =>
          tell (Log "%s is %s") ;;
          w ← read ;
          if bool_decide (Some inhibited ≠ _inhibited (self w)) then
            assign (fun s => mk (_iface s) (Some inhibited)) ;;
            tell (Emit inhibited)
          else mret tt
      end
  end.

(** [proxy]: whether the session bus gives a proxy of the session
    manager; if not, [DBusException]. *)
Definition activate (proxy : bool) (reply : option bool) : Method world unit :=
  (if proxy then mret tt else throw DBusException) ;;
  assign (fun s => mk (Some GSM_INTERFACE) (_inhibited s)) ;;
  _check_inhibited reply ;;
  tell (Log "Listening for signals from %s") ;;
  tell (ConnectToSignal "InhibitorAdded") ;;
  tell (ConnectToSignal "InhibitorRemoved").

Definition deactivate : Method world unit :=
  tell (Log "Disconnecting from %s") ;;
  assign (fun s => mk None (_inhibited s)) ;;
  assign (fun s => mk (_iface s) None).

Definition _inhibitor_added (reply : option bool) : Method world unit :=
  tell (Log "Received InhibitorAdded signal from %s") ;;
  _check_inhibited reply.

Definition _inhibitor_removed (reply : option bool) : Method world unit :=
  tell (Log "Received InhibitorRemoved signal from %s") ;;
  _check_inhibited reply.

(** The signals of the session manager, each with the answer the check
    it causes gets. *)
Inductive event :=
| InhibitorAdded (reply : option bool)
| InhibitorRemoved (reply : option bool).

Definition handle (e : event) : Method world unit :=
  match e with
  | InhibitorAdded reply => _inhibitor_added reply
  | InhibitorRemoved reply => _inhibitor_removed reply
  end.

Definition run (events : list event) (w : world) : world :=
  fold_left (fun w e => then_ (handle e) w) events w.

(** The values emitted with [inhibited-changed], in order. *)
Definition emitted (tr : list effect) : list bool :=
  omap (fun e => match e with Emit i => Some i | _ => None end) tr.

(** No value is followed by itself. *)
Fixpoint alternates (l : list bool) : bool :=
  match l with
  | a :: (b :: _) as l' => negb (Bool.eqb a b) && alternates l'
  | _ => true
  end.

End GnomeSessionManagerListener.

(** What the listener has emitted never repeats a value, and ends with the
    value it remembers. *)
Definition faithful (w : GnomeSessionManagerListener.world) : Prop :=
  GnomeSessionManagerListener.alternates
    (GnomeSessionManagerListener.emitted (GnomeSessionManagerListener.trace w)) = true
  /\ last (GnomeSessionManagerListener.emitted (GnomeSessionManagerListener.trace w))
     = GnomeSessionManagerListener._inhibited (GnomeSessionManagerListener.self w).

(** ** class ConsoleKitListener *)

Module ConsoleKitListener.

Record t : Type := mk {
  _ssid : option string;
  (** the signals that have a receiver, in the order of [_matches] *)
  _matches : list string
}.

Inductive signal := lock_signal | unlock_signal | is_active_signal.

Inductive effect :=
| Log (fmt : string)
| Emit (s : signal)
| RemoveMatch (name : string).

Record world : Type := mk_world {
  self : t;
  trace : list effect
}.

(** The system bus as [activate] finds it. *)
Record Env : Type := mk_env {
  (** [dbus.SystemBus()] connects; if not, [DBusException] *)
  system_bus : bool;
  (** the path [GetCurrentSession] answers; [None]: [DBusException] *)
  current_session : option string
}.

Definition __init__ : t := mk None [].

Definition created : world := mk_world __init__ [].

Definition tell (e : effect) : Method world unit :=
  modify (fun w => mk_world (self w) (trace w ++ [e])).

Definition assign (f : t -> t) : Method world unit :=
  modify (fun w => mk_world (f (self w)) (trace w)).

Definition activate (env : Env) : Method world unit :=
  (if system_bus env then mret tt else throw DBusException) ;;
  tell (Log "Getting current ConsoleKit session id") ;;
  ssid ← match current_session env with
         | Some ssid => mret (Some ssid)
         | None =>
             tell (Log "Cannot get current ConsoleKit session id: %s") ;;
             mret None
         end ;
  match ssid with
  | Some ssid =>
      assign (fun s => mk (Some ssid) (_matches s)) ;;
      tell (Log "Listening for signals from %s") ;;
      for_each ["Lock"; "Unlock"; "ActiveChanged"] (fun name =>
        assign (fun s => mk (_ssid s) (_matches s ++ [name])))
  | None => mret tt
  end.

Definition deactivate : Method world unit :=
  tell (Log "Disconnecting from %s") ;;
  w ← read ;
  for_each (_matches (self w)) (fun m => tell (RemoveMatch m)) ;;
  assign (fun s => mk None (_matches s)) ;;
  assign (fun s => mk (_ssid s) []).

Definition _lock (path : string) : Method world unit :=
  w ← read ;
  if bool_decide (Some path = _ssid (self w)) then
    tell (Log "Received Lock signal from %s") ;;
    tell (Emit lock_signal)
  else mret tt.

Definition _unlock (path : string) : Method world unit :=
  w ← read ;
  if bool_decide (Some path = _ssid (self w)) then
    tell (Log "Received Unlock signal from %s") ;;
    tell (Emit unlock_signal)
  else mret tt.

Definition _active_changed (is_active : bool) (path : string) : Method world unit :=
  w ← read ;
  if bool_decide (Some path = _ssid (self w)) then
    tell (Log "Received ActiveChanged signal from %s, is_active=%s") ;;
    if is_active then tell (Emit is_active_signal) else mret tt
  else mret tt.

(** A signal of a ConsoleKit session object on the bus, with its sender
    path. *)
Inductive event :=
| Lock (path : string)
| Unlock (path : string)
| ActiveChanged (is_active : bool) (path : string).

Definition name_of (e : event) : string :=
  match e with
  | Lock _ => "Lock"
  | Unlock _ => "Unlock"
  | ActiveChanged _ _ => "ActiveChanged"
  end.

(** The bus calls the receiver of a signal, if there is one. *)
Definition handle (e : event) : Method world unit :=
  w ← read ;
  if existsb (String.eqb (name_of e)) (_matches (self w)) then
    match e with
    | Lock path => _lock path
    | Unlock path => _unlock path
    | ActiveChanged is_active path => _active_changed is_active path
    end
  else mret tt.

Definition run (events : list event) (w : world) : world :=
  fold_left (fun w e => then_ (handle e) w) events w.

Definition emitted (tr : list effect) : list signal :=
  omap (fun e => match e with Emit s => Some s | _ => None end) tr.

(** The session [activate] finds, if it returns with one. *)
Definition session (env : Env) : option string :=
  if system_bus env then current_session env else None.

(** The signal the listener owes to a signal of the bus when its session
    is [ssid]. *)
Definition signal_for (ssid : string) (e : event) : option signal :=
  match e with
  | Lock path => if String.eqb path ssid then Some lock_signal else None
  | Unlock path => if String.eqb path ssid then Some unlock_signal else None
  | ActiveChanged is_active path =>
      if String.eqb path ssid && is_active then Some is_active_signal else None
  end.

End ConsoleKitListener.

(** ** class SystemdLogindListener *)

Module SystemdLogindListener.

Record t : Type := mk {
  _ssid : option string;
  _matches : list string
}.

Inductive signal := lock_signal | unlock_signal | is_active_signal.

Inductive effect :=
| Log (fmt : string)
| Emit (s : signal)
| RemoveMatch (name : string).

Record world : Type := mk_world {
  self : t;
  trace : list effect
}.

Record Env : Type := mk_env {
  (** [os.path.exists('/run/systemd/seats/')] *)
  seats_exist : bool;
  system_bus : bool;
  (** the path [GetSessionByPID] answers; [None]: [DBusException] *)
  session_by_pid : option string
}.

Definition __init__ : t := mk None [].

Definition created : world := mk_world __init__ [].

Definition tell (e : effect) : Method world unit :=
  modify (fun w => mk_world (self w) (trace w ++ [e])).

Definition assign (f : t -> t) : Method world unit :=
  modify (fun w => mk_world (f (self w)) (trace w)).

Definition activate (env : Env) : Method world unit :=
  tell (Log "Checking if logind is running") ;;
  if seats_exist env then
    (if system_bus env then mret tt else throw DBusException) ;;
    tell (Log "Getting current logind session id") ;;
    ssid ← match session_by_pid env with
           | Some ssid => mret (Some ssid)
           | None =>
               tell (Log "Cannot get current logind session id: %s") ;;
               mret None
           end ;
    match ssid with
    | Some ssid =>
        assign (fun s => mk (Some ssid) (_matches s)) ;;
        tell (Log "Listening for signals from %s") ;;
        for_each ["Lock"; "Unlock"; "PropertiesChanged"; "PrepareForSleep"]
          (fun name => assign (fun s => mk (_ssid s) (_matches s ++ [name])))
    | None => mret tt
    end
  else tell (Log "logind is not running").

Definition deactivate : Method world unit :=
  tell (Log "Disconnecting from %s") ;;
  w ← read ;
  for_each (_matches (self w)) (fun m => tell (RemoveMatch m)) ;;
  assign (fun s => mk None (_matches s)) ;;
  assign (fun s => mk (_ssid s) []).

Definition _lock (path : string) : Method world unit :=
  w ← read ;
  if bool_decide (Some path = _ssid (self w)) then
    tell (Log "Received Lock signal from %s") ;;
    tell (Emit lock_signal)
  else mret tt.

Definition _unlock (path : string) : Method world unit :=
  w ← read ;
  if bool_decide (Some path = _ssid (self w)) then
    tell (Log "Received Unlock signal from %s") ;;
    tell (Emit unlock_signal)
  else mret tt.

(** [changed] are the keys of [changed_properties]; [active] is what
    [Get(..., 'Active')] answers, [None]: [DBusException]. *)
Definition _properties_changed (changed invalidated : list string)
    (active : option bool) (path : string) : Method world unit :=
  w ← read ;
  if bool_decide (Some path = _ssid (self w)) then
    tell (Log "Received PropertiesChanged signal from %s") ;;
    tell (Log "  changed: %s") ;;
    tell (Log "  invalidated: %s") ;;
    let prop := "Active" in
    if existsb (String.eqb prop) changed || existsb (String.eqb prop) invalidated then
      tell (Log "  Active property for %s was changed, getting new value") ;;
      match active with
      | None => throw DBusException
      | Some is_active =>
          tell (Log "  Active property is now %s") ;;
          if is_active then tell (Emit is_active_signal) else mret tt
      end
    else mret tt
  else mret tt.

Definition _prepare_for_sleep (active : bool) (path : string) : Method world unit :=
  tell (Log "Received PrepareForSleep signal from %s, active=%s") ;;
  if active then tell (Emit lock_signal) else mret tt.

Inductive event :=
| Lock (path : string)
| Unlock (path : string)
| PropertiesChanged (changed invalidated : list string) (active : option bool)
    (path : string)
| PrepareForSleep (active : bool) (path : string).

Definition name_of (e : event) : string :=
  match e with
  | Lock _ => "Lock"
  | Unlock _ => "Unlock"
  | PropertiesChanged _ _ _ _ => "PropertiesChanged"
  | PrepareForSleep _ _ => "PrepareForSleep"
  end.

Definition handle (e : event) : Method world unit :=
  w ← read ;
  if existsb (String.eqb (name_of e)) (_matches (self w)) then
    match e with
    | Lock path => _lock path
    | Unlock path => _unlock path
    | PropertiesChanged changed invalidated active path =>
        _properties_changed changed invalidated active path
    | PrepareForSleep active path => _prepare_for_sleep active path
    end
  else mret tt.

Definition run (events : list event) (w : world) : world :=
  fold_left (fun w e => then_ (handle e) w) events w.

Definition emitted (tr : list effect) : list signal :=
  omap (fun e => match e with Emit s => Some s | _ => None end) tr.

(** The session [activate] finds, if it returns with one. *)
Definition session (env : Env) : option string :=
  if seats_exist env && system_bus env then session_by_pid env else None.

(** The signal the listener owes to a signal of the bus when its session
    is [ssid]. *)
Definition signal_for (ssid : string) (e : event) : option signal :=
  match e with
  | Lock path => if String.eqb path ssid then Some lock_signal else None
  | Unlock path => if String.eqb path ssid then Some unlock_signal else None
  | PropertiesChanged changed invalidated active path =>
      if String.eqb path ssid
         && (existsb (String.eqb "Active") changed
             || existsb (String.eqb "Active") invalidated)
         && bool_decide (active = Some true)
      then Some is_active_signal else None
  | PrepareForSleep active _ => if active then Some lock_signal else None
  end.

End SystemdLogindListener.

(** ** class FauxGnomeScreensaverDBusService and its owner *)

Module FauxGnomeScreensaverService.

(** The object exported on the session bus. *)
Record FauxGnomeScreensaverDBusService : Type := mk_dbus {
  (** whether [_owner] is the service ([uninit] sets it to [None]) *)
  _owner : bool
}.

Record t : Type := mk {
  _service : option FauxGnomeScreensaverDBusService
}.

(** The signals of the owner. *)
Inductive signal :=
| quit
| lock
| simulate_user_activity
| set_active (value : bool)
| get_active
| get_active_time.

(** A log record, a signal of the owner, the D-Bus signal
    [ActiveChanged]. *)
Inductive effect :=
| Log (fmt : string)
| Emit (s : signal)
| ActiveChanged (new_value : bool).

(** The owner, the object the bus holds (the one [_service] refers to,
    also after [deactivate]) and the trace. *)
Record world : Type := mk_world {
  self : t;
  exported : option FauxGnomeScreensaverDBusService;
  trace : list effect
}.

Definition __init__ : t := mk None.

Definition created : world := mk_world __init__ None [].

Definition tell (e : effect) : Method world unit :=
  modify (fun w => mk_world (self w) (exported w) (trace w ++ [e])).

(** [session_bus]: whether the name can be taken on the session bus; if
    not, [DBusException]. *)
Definition activate (session_bus : bool) : Method world unit :=
  tell (Log "Adding %s dbus service") ;;
  (if session_bus then mret tt else throw DBusException) ;;
  modify (fun w => mk_world (mk (Some (mk_dbus true))) (Some (mk_dbus true)) (trace w)).

Definition deactivate : Method world unit :=
  w ← read ;
  match _service (self w) with
  | Some _ =>
      tell (Log "Removing %s dbus service") ;;
      modify (fun w => mk_world (mk None) (Some (mk_dbus false)) (trace w))
  | None => mret tt
  end.

Definition active_changed (active : bool) : Method world unit :=
  w ← read ;
  match _service (self w) with
  | Some _ =>
      tell (Log "Emitting %s signal from org.gnome.ScreenSaver") ;;
      tell (Log "  with values: %s") ;;
      tell (ActiveChanged active)
  | None => mret tt
  end.

(** The methods of [org.gnome.ScreenSaver]. *)
Inductive method :=
| Quit
| Lock
| SimulateUserActivity
| SetActive (value : bool)
| GetActive
| GetActiveTime
| ShowMessage (summary body icon : string).

(** [self._owner.emit(...)] *)
Definition owner_emit (s : signal) : Method world unit :=
  w ← read ;
  match exported w with
  | Some (mk_dbus true) => tell (Emit s)
  | _ => throw (Python AttributeError)
  end.

(** [_log_method_return], for the two methods that answer. *)
Definition log_return (m : method) : Method world unit :=
  match m with
  | GetActive | GetActiveTime => tell (Log "Returning %s for %s method call")
  | _ => mret tt
  end.

(** A method call to the exported object, up to the return of its
    [emit]. *)
Definition call (m : method) : Method world unit :=
  tell (Log "Received %s method call to org.gnome.ScreenSaver from %s") ;;
  match m with
  | Quit => owner_emit quit
  | Lock => owner_emit lock
  | SimulateUserActivity => owner_emit simulate_user_activity
  | SetActive value => tell (Log "  with arguments: %s") ;; owner_emit (set_active value)
  | GetActive => owner_emit get_active
  | GetActiveTime => owner_emit get_active_time
  | ShowMessage _ _ _ =>
      tell (Log "  with arguments: %s") ;;
      tell (Log "ShowMessage not implemented: sender=%s summary=%s body=%s icon=%s")
  end.

Definition emitted (tr : list effect) : list signal :=
  omap (fun e => match e with Emit s => Some s | _ => None end) tr.

(** The values broadcast with [ActiveChanged], in order. *)
Definition broadcast (tr : list effect) : list bool :=
  omap (fun e => match e with ActiveChanged v => Some v | _ => None end) tr.

End FauxGnomeScreensaverService.

(** ** main: the objects, the table of handlers, the main loop *)

(** The trace of the manager only grows. *)
Definition grows (w w' : World) : Prop := exists added, trace w' = trace w ++ added.

Module main.

(** The six objects of [objs], and whether [mainloop.quit()] was
    called. *)
Record Program : Type := mk_program {
  gset_manager : GSettingsManager.world;
  xss_manager : World;
  gs_service : FauxGnomeScreensaverService.world;
  gsm_listener : GnomeSessionManagerListener.world;
  ck_listener : ConsoleKitListener.world;
  sl_listener : SystemdLogindListener.world;
  quitting : bool
}.

Definition with_gset_manager (v : GSettingsManager.world) (p : Program) : Program :=
  mk_program v (xss_manager p) (gs_service p) (gsm_listener p) (ck_listener p)
    (sl_listener p) (quitting p).

Definition with_xss_manager (v : World) (p : Program) : Program :=
  mk_program (gset_manager p) v (gs_service p) (gsm_listener p) (ck_listener p)
    (sl_listener p) (quitting p).

Definition with_gs_service (v : FauxGnomeScreensaverService.world) (p : Program) : Program :=
  mk_program (gset_manager p) (xss_manager p) v (gsm_listener p) (ck_listener p)
    (sl_listener p) (quitting p).

Definition with_gsm_listener (v : GnomeSessionManagerListener.world) (p : Program) : Program :=
  mk_program (gset_manager p) (xss_manager p) (gs_service p) v (ck_listener p)
    (sl_listener p) (quitting p).

Definition with_ck_listener (v : ConsoleKitListener.world) (p : Program) : Program :=
  mk_program (gset_manager p) (xss_manager p) (gs_service p) (gsm_listener p) v
    (sl_listener p) (quitting p).

Definition with_sl_listener (v : SystemdLogindListener.world) (p : Program) : Program :=
  mk_program (gset_manager p) (xss_manager p) (gs_service p) (gsm_listener p)
    (ck_listener p) v (quitting p).

Definition with_quitting (v : bool) (p : Program) : Program :=
  mk_program (gset_manager p) (xss_manager p) (gs_service p) (gsm_listener p)
    (ck_listener p) (sl_listener p) v.

(** What a call added to a list that only grows. *)
Definition news {A} (before after : list A) : list A := drop (length before) after.

(** GObject runs the handlers of a signal inside [emit]; what a handler
    raises is printed and dropped.  The handlers of the table do not touch
    the object that emits, so they are run here when its method is over, in
    the order of the signals. *)

(** [('active-changed', lambda _, a: getobj('gs_service').active_changed(a))];
    nothing is connected to [timeout-changed]. *)
Definition on_xss_signal (s : signal) (p : Program) : Program :=
  match s with
  | active_changed a =>
      with_gs_service (then_ (FauxGnomeScreensaverService.active_changed a) (gs_service p)) p
  | timeout_changed _ => p
  end.

(** A method of the manager, with the signals it emits handled. *)
Definition xss_call {A} (c : M A) (env : Env) (p : Program) : Program :=
  let w := xss_manager p in
  let w' := after c env w in
  fold_left (fun p s => on_xss_signal s p)
    (news (emitted (trace w)) (emitted (trace w')))
    (with_xss_manager w' p).

(** The handlers of [gs_service]. *)
Definition on_gs_signal (env : Env) (s : FauxGnomeScreensaverService.signal)
    (p : Program) : Program :=
  match s with
  | FauxGnomeScreensaverService.quit => with_quitting true p
  | FauxGnomeScreensaverService.lock => xss_call lock env p
  | FauxGnomeScreensaverService.simulate_user_activity =>
      xss_call simulate_user_activity env p
  | FauxGnomeScreensaverService.set_active v => xss_call (set_active v) env p
  | FauxGnomeScreensaverService.get_active => xss_call active env p
  | FauxGnomeScreensaverService.get_active_time => xss_call active_time env p
  end.

(** The handler of [gsm_listener]. *)
Definition on_gsm_signal (env : Env) (i : bool) (p : Program) : Program :=
  if i then xss_call inhibit env p else xss_call uninhibit env p.

(** The handlers of [ck_listener]. *)
Definition on_ck_signal (env : Env) (s : ConsoleKitListener.signal) (p : Program)
  : Program :=
  match s with
  | ConsoleKitListener.lock_signal => xss_call lock env p
  | ConsoleKitListener.unlock_signal => xss_call (set_active false) env p
  | ConsoleKitListener.is_active_signal => xss_call simulate_user_activity env p
  end.

(** The handlers of [sl_listener]. *)
Definition on_sl_signal (env : Env) (s : SystemdLogindListener.signal) (p : Program)
  : Program :=
  match s with
  | SystemdLogindListener.lock_signal => xss_call lock env p
  | SystemdLogindListener.unlock_signal => xss_call (set_active false) env p
  | SystemdLogindListener.is_active_signal => xss_call simulate_user_activity env p
  end.

(** A method of one of the other objects, with the signals it emits
    handled. *)
Definition gs_call (c : Method FauxGnomeScreensaverService.world unit) (env : Env)
    (p : Program) : Program :=
  let g := gs_service p in
  let g' := then_ c g in
  fold_left (fun p s => on_gs_signal env s p)
    (news (FauxGnomeScreensaverService.emitted (FauxGnomeScreensaverService.trace g))
       (FauxGnomeScreensaverService.emitted (FauxGnomeScreensaverService.trace g')))
    (with_gs_service g' p).

Definition gsm_call (c : Method GnomeSessionManagerListener.world unit) (env : Env)
    (p : Program) : Program :=
  let g := gsm_listener p in
  let g' := then_ c g in
  fold_left (fun p i => on_gsm_signal env i p)
    (news (GnomeSessionManagerListener.emitted (GnomeSessionManagerListener.trace g))
       (GnomeSessionManagerListener.emitted (GnomeSessionManagerListener.trace g')))
    (with_gsm_listener g' p).

Definition ck_call (c : Method ConsoleKitListener.world unit) (env : Env)
    (p : Program) : Program :=
  let g := ck_listener p in
  let g' := then_ c g in
  fold_left (fun p s => on_ck_signal env s p)
    (news (ConsoleKitListener.emitted (ConsoleKitListener.trace g))
       (ConsoleKitListener.emitted (ConsoleKitListener.trace g')))
    (with_ck_listener g' p).

Definition sl_call (c : Method SystemdLogindListener.world unit) (env : Env)
    (p : Program) : Program :=
  let g := sl_listener p in
  let g' := then_ c g in
  fold_left (fun p s => on_sl_signal env s p)
    (news (SystemdLogindListener.emitted (SystemdLogindListener.trace g))
       (SystemdLogindListener.emitted (SystemdLogindListener.trace g')))
    (with_sl_listener g' p).

(** What the main loop dispatches: a callback of a source of the manager
    (the watch on the watcher, the file monitor, the inhibition timer), a
    method call to the service, a signal one of the listeners receives, a
    change of the settings or an idle call, and SIGHUP or SIGTERM. *)
Inductive event :=
| WatcherReadable (c : string)
| OptionsChanged (event_type : option FileMonitorEvent)
| InhibitTick
| MethodCall (m : FauxGnomeScreensaverService.method)
| SessionManager (e : GnomeSessionManagerListener.event)
| ConsoleKit (e : ConsoleKitListener.event)
| Logind (e : SystemdLogindListener.event)
| Settings (e : GSettingsManager.event)
| UnixSignal (signum : Z).

(** The outside during one dispatch. *)
Record Outside : Type := mk_outside {
  env : Env;
  settings : GSettingsManager.Env
}.

Definition step (o : Outside) (e : event) (p : Program) : Program :=
  match e with
  | WatcherReadable c => xss_call (_read_from_watcher c) (env o) p
  | OptionsChanged event_type => xss_call (_read_timeout event_type false) (env o) p
  | InhibitTick => xss_call _do_inhibit (env o) p
  | MethodCall m =>
      let p := gs_call (FauxGnomeScreensaverService.call m) (env o) p in
      with_gs_service (then_ (FauxGnomeScreensaverService.log_return m) (gs_service p)) p
  | SessionManager e => gsm_call (GnomeSessionManagerListener.handle e) (env o) p
  | ConsoleKit e => ck_call (ConsoleKitListener.handle e) (env o) p
  | Logind e => sl_call (SystemdLogindListener.handle e) (env o) p
  | Settings e =>
      with_gset_manager (GSettingsManager.step (settings o) e (gset_manager p)) p
  | UnixSignal _ => with_quitting true p
  end.

(** [mainloop.run()]: what the loop dispatches before it returns, in
    order. *)
Definition run (events : list (Outside * event)) (p : Program) : Program :=
  fold_left (fun p '(o, e) => step o e p) events p.

(** What the calls of [activate] find of the buses. *)
Record Buses : Type := mk_buses {
  (** the name [org.gnome.ScreenSaver] can be taken *)
  session_bus : bool;
  (** the session manager gives a proxy *)
  session_manager : bool;
  (** its answer to the first [IsInhibited] *)
  inhibited : option bool;
  console_kit : ConsoleKitListener.Env;
  logind : SystemdLogindListener.Env
}.

Definition constructed (no_dpms : bool) (db : gmap (string * string) Z) : Program :=
  mk_program (GSettingsManager.created db) (created no_dpms)
    FauxGnomeScreensaverService.created GnomeSessionManagerListener.created
    ConsoleKitListener.created SystemdLogindListener.created false.

(** Whether a call returned. *)
Definition returned {A} (r : result A) : bool :=
  match r with Return _ => true | Raise _ => false end.

Definition returns {A} (r : outcome A) : bool :=
  match r with Returns _ => true | Raises _ => false end.

(** The keys of [objs]. *)
Inductive name :=
| GSET_MANAGER | XSS_MANAGER | GS_SERVICE | GSM_LISTENER | CK_LISTENER | SL_LISTENER.

Definition order : list name :=
  [GSET_MANAGER; XSS_MANAGER; GS_SERVICE; GSM_LISTENER; CK_LISTENER; SL_LISTENER].

(** [getobj(k).activate()]: whether it returned, and the program after
    it. *)
Definition activate_object (o : Outside) (b : Buses) (k : name) (p : Program)
  : bool * Program :=
  match k with
  | GSET_MANAGER =>
      let c := GSettingsManager.activate (settings o) in
      (returns (c (gset_manager p)).1, with_gset_manager (then_ c (gset_manager p)) p)
  | XSS_MANAGER =>
      (returned (activate (env o) (xss_manager p)).1, xss_call activate (env o) p)
  | GS_SERVICE =>
      let c := FauxGnomeScreensaverService.activate (session_bus b) in
      (returns (c (gs_service p)).1, gs_call c (env o) p)
  | GSM_LISTENER =>
      let c := GnomeSessionManagerListener.activate (session_manager b) (inhibited b) in
      (returns (c (gsm_listener p)).1, gsm_call c (env o) p)
  | CK_LISTENER =>
      let c := ConsoleKitListener.activate (console_kit b) in
      (returns (c (ck_listener p)).1, ck_call c (env o) p)
  | SL_LISTENER =>
      let c := SystemdLogindListener.activate (logind b) in
      (returns (c (sl_listener p)).1, sl_call c (env o) p)
  end.

(** [getobj(k).deactivate()] *)
Definition deactivate_object (o : Outside) (k : name) (p : Program) : bool * Program :=
  match k with
  | GSET_MANAGER =>
      let c := GSettingsManager.deactivate (settings o) in
      (returns (c (gset_manager p)).1, with_gset_manager (then_ c (gset_manager p)) p)
  | XSS_MANAGER =>
      (returned (deactivate (env o) (xss_manager p)).1, xss_call deactivate (env o) p)
  | GS_SERVICE =>
      let c := FauxGnomeScreensaverService.deactivate in
      (returns (c (gs_service p)).1, gs_call c (env o) p)
  | GSM_LISTENER =>
      let c := GnomeSessionManagerListener.deactivate in
      (returns (c (gsm_listener p)).1, gsm_call c (env o) p)
  | CK_LISTENER =>
      let c := ConsoleKitListener.deactivate in
      (returns (c (ck_listener p)).1, ck_call c (env o) p)
  | SL_LISTENER =>
      let c := SystemdLogindListener.deactivate in
      (returns (c (sl_listener p)).1, sl_call c (env o) p)
  end.

(** [for k in keys: call(k)]; the first exception ends the loop, and
    [main]. *)
Definition for_objects (call : name -> Program -> bool * Program) (keys : list name)
    (p : Program) : bool * Program :=
  fold_left (fun (s : bool * Program) k => if s.1 then call k s.2 else s) keys
    (true, p).

(** [for k in order: getobj(k).activate()] *)
Definition activate_all (o : Outside) (b : Buses) (p : Program) : bool * Program :=
  for_objects (activate_object o b) order p.

(** [for k in reversed(order): getobj(k).deactivate()] *)
Definition deactivate_all (o : Outside) (p : Program) : bool * Program :=
  for_objects (deactivate_object o) (rev order) p.

(** The values the manager emitted with [active-changed], in order. *)
Definition active_changes (tr : list effect) : list bool :=
  omap (fun s => match s with active_changed a => Some a | _ => None end)
    (emitted tr).

(** The inhibition timer is armed. *)
Definition armed (w : World) : bool := negb (bool_decide (timers w = ∅)).

(** An attribute holds an [int]. *)
Definition is_int (s : slot) : bool :=
  match s with PyInt _ => true | _ => false end.

(** The timer and the stored timeout survive a method. *)
Definition tame {A} (c : M A) : Prop :=
  keeps grows c
  /\ forall env w,
       timers_ok w -> is_int (_timeout (self w)) = true ->
       timers_ok (after c env w) /\ is_int (_timeout (self (after c env w))) = true.

(** And the method keeps the timer armed or not as it was. *)
Definition calm {A} (c : M A) : Prop :=
  tame c
  /\ forall env w,
       timers_ok w -> is_int (_timeout (self w)) = true ->
       (is_Some (_inhibit_id (self (after c env w)))
        <-> is_Some (_inhibit_id (self w))).

(** What holds of the program while the main loop runs, but for the
    agreement of the timer with the session manager. *)
Definition settled (p : Program) : Prop :=
  timers_ok (xss_manager p)
  /\ is_int (_timeout (self (xss_manager p))) = true
  /\ is_Some (FauxGnomeScreensaverService._service
               (FauxGnomeScreensaverService.self (gs_service p)))
  /\ FauxGnomeScreensaverService.broadcast
       (FauxGnomeScreensaverService.trace (gs_service p))
     = active_changes (trace (xss_manager p)).

(** The manager remembers a timer exactly when the session manager was
    last found idle inhibited. *)
Definition agrees (p : Program) : Prop :=
  is_Some (_inhibit_id (self (xss_manager p)))
  <-> GnomeSessionManagerListener._inhibited
        (GnomeSessionManagerListener.self (gsm_listener p)) = Some true.

(** The events that end the loop: SIGHUP or SIGTERM, and the method
    [Quit]. *)
Definition asks_to_quit (e : event) : bool :=
  match e with
  | UnixSignal _ => true
  | MethodCall FauxGnomeScreensaverService.Quit => true
  | _ => false
  end.

(** The exported object still has its owner. *)
Definition live (g : FauxGnomeScreensaverService.world) : bool :=
  match FauxGnomeScreensaverService.exported g with
  | Some (FauxGnomeScreensaverService.mk_dbus true) => true
  | _ => false
  end.

(** A handler that is a calm method of the manager, or [quit]. *)
Definition harmless (f : Program -> Program) : Prop :=
  forall p,
    gsm_listener (f p) = gsm_listener p
    /\ gset_manager (f p) = gset_manager p
    /\ ck_listener (f p) = ck_listener p
    /\ sl_listener (f p) = sl_listener p
    /\ (settled p -> settled (f p))
    /\ (settled p -> agrees p -> agrees (f p)).

(** A method of the session manager listener emits at most once, and
    then the value it stores. *)
Definition reports (c : Method GnomeSessionManagerListener.world unit) : Prop :=
  forall g,
    let g' := then_ c g in
    let sigs := news (GnomeSessionManagerListener.emitted
                        (GnomeSessionManagerListener.trace g))
                  (GnomeSessionManagerListener.emitted
                     (GnomeSessionManagerListener.trace g')) in
    (sigs = []
     /\ GnomeSessionManagerListener._inhibited (GnomeSessionManagerListener.self g')
        = GnomeSessionManagerListener._inhibited (GnomeSessionManagerListener.self g))
    \/ exists i,
         sigs = [i]
         /\ GnomeSessionManagerListener._inhibited (GnomeSessionManagerListener.self g')
            = Some i.

(** A session to compute with: the manager's example session, the example
    settings, both buses there, the session manager not inhibited at first,
    a ConsoleKit and a logind session. *)
Definition example_outside : Outside :=
  mk_outside example_env GSettingsManager.example_env.

Definition example_buses : Buses :=
  mk_buses true true (Some false)
    (ConsoleKitListener.mk_env true (Some "/org/freedesktop/ConsoleKit/Session1"))
    (SystemdLogindListener.mk_env true true (Some "/org/freedesktop/login1/session/_31")).

(** A player inhibits idleness, the timer ticks, the screen is locked over
    D-Bus and the watcher writes a line about it. *)
Definition example_events : list (Outside * event) :=
  map (fun e => (example_outside, e))
    ([SessionManager (GnomeSessionManagerListener.InhibitorAdded (Some true));
      InhibitTick;
      MethodCall FauxGnomeScreensaverService.Lock]
     ++ map WatcherReadable
          (reads (String.append "LOCK Mon Jan 01 10:00:05 2024" newline))).

(** The program when the main loop is entered in that session. *)
Definition example_program : Program :=
  (activate_all example_outside example_buses
     (constructed false GSettingsManager.example_db)).2.

End main.

(** * Properties *)

(** ** Footprints

    For a preorder [R], [keeps R] composes along the structure of a method
    body. *)

Section footprint.
Context (R : relation World) `{!PreOrder R}.

Lemma keeps_ret {A} (a : A) : keeps R (mret a).
Proof. intros env w. simpl. reflexivity. Qed.

Lemma keeps_raise {A} (e : exn) : keeps R (@raise A e).
Proof. intros env w. simpl. reflexivity. Qed.

Lemma keeps_ask : keeps R ask.
Proof. intros env w. simpl. reflexivity. Qed.

Lemma keeps_get : keeps R get.
Proof. intros env w. simpl. reflexivity. Qed.

Lemma keeps_bind {A B} (c : M A) (k : A -> M B) :
  keeps R c -> (forall a, keeps R (k a)) -> keeps R (c ≫= k).
Proof.
  intros Hc Hk env w. unfold mbind, M_bind.
  specialize (Hc env w).
  destruct (c env w) as [[a|e] w1]; simpl in *.
  - etransitivity; [exact Hc | apply Hk].
  - exact Hc.
Qed.

Lemma keeps_try {A} (body : M A) (handler : exn -> option (M A)) :
  keeps R body ->
  (forall e h, handler e = Some h -> keeps R h) ->
  keeps R (try_except body handler).
Proof.
  intros Hb Hh env w. unfold try_except.
  specialize (Hb env w).
  destruct (body env w) as [[a|e] w1]; simpl in *; [exact Hb|].
  destruct (handler e) as [h|] eqn:E; simpl; [|exact Hb].
  etransitivity; [exact Hb | eapply Hh; eauto].
Qed.

Lemma keeps_catch_OSError {A} (body h : M A) :
  keeps R body -> keeps R h -> keeps R (try_except body (catch_OSError h)).
Proof.
  intros Hb Hh. apply keeps_try; [exact Hb|].
  intros [] h' E; simpl in E; try discriminate E.
  injection E as <-. exact Hh.
Qed.

Lemma keeps_catch_ValueError {A} (body h : M A) :
  keeps R body -> keeps R h -> keeps R (try_except body (catch_ValueError h)).
Proof.
  intros Hb Hh. apply keeps_try; [exact Hb|].
  intros [] h' E; simpl in E; try discriminate E; injection E as <-; exact Hh.
Qed.

Lemma keeps_strptime (data : Text.str) (fmt : string) : keeps R (strptime data fmt).
Proof.
  unfold strptime. destruct (Strptime.strptime data fmt);
    [apply keeps_ret | apply keeps_raise].
Qed.

Lemma keeps_when_some {A} (o : option A) (k : A -> M unit) :
  (forall a, keeps R (k a)) -> keeps R (when_some o k).
Proof. intros Hk. destruct o; simpl; [apply Hk | apply keeps_ret]. Qed.

Lemma keeps_ignore {A} (c : M A) : keeps R c -> keeps R (ignore c).
Proof. intros Hc. apply keeps_bind; [exact Hc | intros; apply keeps_ret]. Qed.

(** What the trace-only primitives need from [R]. *)
Hypothesis R_extend : forall (l : level) (fmt : string) w, R w (extend [Log l fmt] w).
Hypothesis R_popen : forall argv w, R w (extend [Popen argv] w).
Hypothesis R_xset : forall argv w, R w (extend [CheckOutput argv] w).
Hypothesis R_open : forall path w, R w (extend [Open path] w).
Hypothesis R_sleep : forall n w, R w (extend [Sleep n] w).

Lemma keeps_log l fmt : keeps R (log l fmt).
Proof. intros env w. apply R_extend. Qed.

Lemma keeps_popen argv : keeps R (popen argv).
Proof.
  unfold popen. apply keeps_bind; [intros env w; apply R_popen|].
  intros _. apply keeps_bind; [apply keeps_ask|].
  intros env. destruct (env_popen env argv); [apply keeps_ret | apply keeps_raise].
Qed.

Lemma keeps_communicate p : keeps R (communicate p).
Proof.
  unfold communicate. apply keeps_bind; [apply keeps_ask|].
  intros env. destruct p as [argv]. destruct (env_communicate env argv).
  apply keeps_ret.
Qed.

Lemma keeps_do_command cmd : keeps R (_do_command cmd).
Proof.
  unfold _do_command.
  apply keeps_bind; [apply keeps_log|]. intros _.
  apply keeps_catch_OSError.
  - apply keeps_bind; [apply keeps_popen|]. intros p.
    apply keeps_bind; [apply keeps_communicate|]. intros [retcode out].
    destruct (retcode <? 0);
      (apply keeps_bind; [apply keeps_log | intros _; apply keeps_ret]).
  - apply keeps_bind; [apply keeps_log | intros _; apply keeps_ret].
Qed.

Lemma keeps_set_dpms enable : keeps R (_set_dpms enable).
Proof.
  unfold _set_dpms. apply keeps_bind; [apply keeps_get|]. intros s.
  destruct (_manage_dpms s); [|apply keeps_ret].
  apply keeps_bind; [apply keeps_log|]. intros _.
  apply keeps_bind.
  - unfold check_output_xset.
    apply keeps_bind; [intros env w; apply R_xset|]. intros _.
    apply keeps_bind; [apply keeps_ask | intros; apply keeps_ret].
  - intros [| |out]; try apply keeps_log.
    destruct (negb (Text.is_empty_bytes out)); apply keeps_log.
Qed.

Lemma keeps_do_inhibit : keeps R _do_inhibit.
Proof.
  unfold _do_inhibit. apply keeps_bind; [apply keeps_get|]. intros s.
  apply keeps_bind; [|intros; apply keeps_ret].
  destruct (negb (truthy (_locked s))); [|apply keeps_log].
  apply keeps_bind; [apply keeps_log|]. intros _.
  apply keeps_bind; [apply keeps_do_command|]. intros _.
  apply keeps_set_dpms.
Qed.

Lemma keeps_scan_options lines last t : keeps R (scan_options lines last t).
Proof.
  induction lines as [|line lines IH]; simpl;
    [destruct last; first [apply keeps_ret | apply keeps_raise]|].
  destruct (timeout_token line) as [a1|]; [|exact IH].
  apply keeps_bind; [apply keeps_log|]. intros _.
  apply keeps_catch_ValueError.
  - apply keeps_bind; [apply keeps_strptime|]. intros dt.
    apply keeps_bind; [apply keeps_log | intros _; apply keeps_ret].
  - apply keeps_bind; [apply keeps_log|]. intros _.
    apply keeps_bind; [apply keeps_log | intros _; apply keeps_ret].
Qed.

Lemma keeps_open_options : keeps R open_options.
Proof.
  unfold open_options. apply keeps_bind; [apply keeps_get|]. intros s.
  destruct (_options_path s) as [path|]; [|apply keeps_raise].
  apply keeps_bind; [intros env w; apply R_open|]. intros _.
  apply keeps_bind; [apply keeps_ask|]. intros env.
  destruct (env_open env path); [apply keeps_raise | apply keeps_ret].
Qed.

Lemma keeps_computed_timeout e init : keeps R (computed_timeout e init).
Proof.
  unfold computed_timeout.
  destruct (is_event CHANGES_DONE_HINT e || init).
  - apply keeps_bind; [destruct init; apply keeps_log|]. intros _.
    apply keeps_catch_OSError.
    + apply keeps_bind; [apply keeps_open_options|]. intros [lines last].
      apply keeps_scan_options.
    + apply keeps_bind; [apply keeps_log|]. intros _.
      apply keeps_bind; [apply keeps_log | intros _; apply keeps_ret].
  - apply keeps_bind; [apply keeps_log | intros _; apply keeps_ret].
Qed.

Lemma keeps_set_active value : keeps R (set_active value).
Proof.
  unfold set_active. apply keeps_bind; [apply keeps_get|]. intros s.
  destruct (bool_decide (Some value ≠ _active s)).
  - apply keeps_bind.
    + destruct value;
        (apply keeps_bind; [apply keeps_log | intros _; apply keeps_ret]).
    + intros cmd. apply keeps_bind; [apply keeps_do_command | intros; apply keeps_ret].
  - destruct value; apply keeps_log.
Qed.

Lemma keeps_lock : keeps R lock.
Proof.
  unfold lock. apply keeps_bind; [apply keeps_get|]. intros s.
  destruct (negb (truthy (_locked s))); [|apply keeps_log].
  apply keeps_bind; [apply keeps_log|]. intros _.
  apply keeps_bind; [apply keeps_do_command | intros; apply keeps_ret].
Qed.

Lemma keeps_simulate_user_activity : keeps R simulate_user_activity.
Proof.
  unfold simulate_user_activity.
  apply keeps_bind; [apply keeps_log|]. intros _.
  apply keeps_bind; [apply keeps_do_command | intros; apply keeps_ret].
Qed.

Lemma keeps_active : keeps R active.
Proof.
  unfold active. apply keeps_bind; [apply keeps_get | intros; apply keeps_ret].
Qed.

Lemma keeps_active_time : keeps R active_time.
Proof.
  unfold active_time. apply keeps_bind; [apply keeps_get|]. intros s.
  destruct (truthy (_active s)); [|apply keeps_ret].
  apply keeps_bind; [apply keeps_ask|]. intros env.
  destruct (_active_since s); [apply keeps_ret | apply keeps_raise].
Qed.

Lemma keeps_timeout : keeps R timeout.
Proof.
  unfold timeout. apply keeps_bind; [apply keeps_get|]. intros s.
  destruct (_timeout s); [apply keeps_raise | apply keeps_ret | apply keeps_ret].
Qed.

(** What the inhibition timer needs from [R]. *)
Hypothesis R_source_remove : forall id env w, R w (source_remove id env w).2.
Hypothesis R_timeout_add : forall ms env w, R w (timeout_add ms env w).2.
Hypothesis R_inhibit_id : forall v w, R w (update (with_inhibit_id v) w).

Lemma keeps_inhibit : keeps R inhibit.
Proof.
  unfold inhibit. apply keeps_bind.
  - unfold timeout_minus_10. apply keeps_bind; [apply keeps_get|]. intros s.
    destruct (_timeout s); [apply keeps_raise | apply keeps_raise | apply keeps_ret].
  - intros d. apply keeps_bind; [apply keeps_log|]. intros _.
    apply keeps_bind; [apply keeps_get|]. intros s.
    apply keeps_bind.
    + destruct (_inhibit_id s); [intros env w; apply R_source_remove | apply keeps_ret].
    + intros _. apply keeps_bind; [apply keeps_do_inhibit|]. intros _.
      apply keeps_bind; [intros env w; apply R_timeout_add|]. intros id.
      intros env w. apply R_inhibit_id.
Qed.

Lemma keeps_uninhibit : keeps R uninhibit.
Proof.
  unfold uninhibit. apply keeps_bind; [apply keeps_log|]. intros _.
  apply keeps_bind; [apply keeps_get|]. intros s.
  destruct (_inhibit_id s) as [id|]; [|apply keeps_ret].
  apply keeps_bind; [apply keeps_set_dpms|]. intros _.
  apply keeps_bind; [intros env w; apply R_source_remove|]. intros _.
  intros env w. apply R_inhibit_id.
Qed.

(** What the second half of [_read_timeout] needs from [R]. *)
Hypothesis R_set_timeout : forall v w, R w (update (with_timeout v) w).
Hypothesis R_emit_timeout :
  forall t w, R w (extend [Emit (timeout_changed t)] w).

Lemma keeps_commit_timeout (t : Z) (stored : slot) :
  keeps R
    (if differs t stored then
       assign (with_timeout (PyInt t)) ;;
       s ← get ;
       match _inhibit_id s with
       | Some _ => inhibit
       | None => mret tt
       end ;;
       emit (timeout_changed t)
     else mret tt).
Proof.
  destruct (differs t stored); [|apply keeps_ret].
  apply keeps_bind; [intros env w; apply R_set_timeout|]. intros _.
  apply keeps_bind; [apply keeps_get|]. intros s.
  apply keeps_bind.
  - destruct (_inhibit_id s); [apply keeps_inhibit | apply keeps_ret].
  - intros _ env w. apply R_emit_timeout.
Qed.

Lemma keeps_read_timeout e init : keeps R (_read_timeout e init).
Proof.
  unfold _read_timeout.
  destruct (is_event CHANGES_DONE_HINT e || is_event DELETED e || init);
    [|apply keeps_ret].
  apply keeps_bind; [apply keeps_computed_timeout|]. intros t.
  apply keeps_bind; [apply keeps_get|]. intros s.
  destruct (_timeout s);
    [apply keeps_raise | apply keeps_commit_timeout | apply keeps_commit_timeout].
Qed.

End footprint.

(** ** The four footprints *)

#[global] Instance only_trace_preorder : PreOrder only_trace.
Proof.
  split.
  - intros w. repeat split.
  - intros a b c (H1 & H2 & H3 & H4) (H5 & H6 & H7 & H8).
    repeat split; congruence.
Qed.

#[global] Instance same_tracker_preorder : PreOrder same_tracker.
Proof.
  split.
  - intros w. repeat split.
  - intros a b c (H1 & H2 & H3) (H4 & H5 & H6). repeat split; congruence.
Qed.

#[global] Instance same_signals_preorder : PreOrder same_signals.
Proof.
  split.
  - intros w. reflexivity.
  - intros a b c H1 H2. unfold same_signals in *. congruence.
Qed.

#[global] Instance same_timers_preorder : PreOrder same_timers.
Proof.
  split.
  - intros w. split; reflexivity.
  - intros a b c [H1 H2] [H3 H4]. split; congruence.
Qed.

Lemma emitted_app (a b : list effect) : emitted (a ++ b) = emitted a ++ emitted b.
Proof. apply omap_app. Qed.

Lemma spawned_app (a b : list effect) : spawned (a ++ b) = spawned a ++ spawned b.
Proof. apply omap_app. Qed.

Lemma source_events_app (a b : list effect) :
  source_events (a ++ b) = source_events a ++ source_events b.
Proof. apply omap_app. Qed.

(** Closes the side conditions of the footprint lemmas for the relations
    above. *)
Ltac footprint_side :=
  first
    [ exact _
    | intros; unfold only_trace, same_tracker, same_timers; simpl;
      repeat split; reflexivity
    | intros; unfold same_signals; simpl; rewrite emitted_app; simpl;
      apply app_nil_r ].

(** Commands, power toggles and ticks change nothing but the trace. *)
Lemma do_command_only_trace cmd : keeps only_trace (_do_command cmd).
Proof. apply keeps_do_command; footprint_side. Qed.

Lemma set_dpms_only_trace enable : keeps only_trace (_set_dpms enable).
Proof. apply keeps_set_dpms; footprint_side. Qed.

Lemma do_inhibit_only_trace : keeps only_trace _do_inhibit.
Proof. apply keeps_do_inhibit; footprint_side. Qed.

Lemma computed_timeout_only_trace e init : keeps only_trace (computed_timeout e init).
Proof. apply keeps_computed_timeout; footprint_side. Qed.

(** Nothing but the watcher callback, [activate] and [deactivate] writes
    [active] or [locked]. *)
Lemma do_command_tracker cmd : keeps same_tracker (_do_command cmd).
Proof. apply keeps_do_command; footprint_side. Qed.

Lemma read_timeout_tracker e init : keeps same_tracker (_read_timeout e init).
Proof. apply keeps_read_timeout; footprint_side. Qed.

Lemma inhibit_tracker : keeps same_tracker inhibit.
Proof. apply keeps_inhibit; footprint_side. Qed.

Lemma uninhibit_tracker : keeps same_tracker uninhibit.
Proof. apply keeps_uninhibit; footprint_side. Qed.

(** Only [_read_timeout] and the watcher callback emit. *)
Lemma do_command_signals cmd : keeps same_signals (_do_command cmd).
Proof. apply keeps_do_command; footprint_side. Qed.

Lemma computed_timeout_signals e init : keeps same_signals (computed_timeout e init).
Proof. apply keeps_computed_timeout; footprint_side. Qed.

Lemma inhibit_signals : keeps same_signals inhibit.
Proof. apply keeps_inhibit; footprint_side. Qed.

(** Only [inhibit], [uninhibit] and [deactivate] touch the timers. *)
Lemma do_command_timers cmd : keeps same_timers (_do_command cmd).
Proof. apply keeps_do_command; footprint_side. Qed.

Lemma do_inhibit_timers : keeps same_timers _do_inhibit.
Proof. apply keeps_do_inhibit; footprint_side. Qed.

Lemma set_dpms_timers enable : keeps same_timers (_set_dpms enable).
Proof. apply keeps_set_dpms; footprint_side. Qed.

Lemma computed_timeout_timers e init : keeps same_timers (computed_timeout e init).
Proof. apply keeps_computed_timeout; footprint_side. Qed.

(** ** Symbolic execution of a method body

    The bodies are unfolded bind by bind; a call of another method is not
    entered but split on its outcome, with its footprint as a hypothesis. *)

#[local] Arguments Strptime.strptime : simpl never.
#[local] Arguments _do_command : simpl never.
#[local] Arguments _read_timeout : simpl never.
#[local] Arguments _set_dpms : simpl never.
#[local] Arguments _do_inhibit : simpl never.
#[local] Arguments inhibit : simpl never.
#[local] Arguments computed_timeout : simpl never.
#[local] Arguments Text.search_screen_since : simpl never.
#[local] Arguments Text.strip : simpl never.
#[local] Arguments Text.split1 : simpl never.
#[local] Arguments Text.eqb : simpl never.
#[local] Arguments Text.lit : simpl never.
#[local] Arguments Text.decode : simpl never.
#[local] Arguments String.eqb : simpl never.
#[local] Arguments recognized : simpl never.

(** Case analysis on the outcome of a call, remembering its footprint. *)
Ltac call_with lem c env w :=
  let E := fresh "E" in
  let F := fresh "F" in
  pose proof (lem env w) as F;
  destruct (c env w) as [[?|?] ?] eqn:E;
  simpl in F.

Ltac tracker_call :=
  idtac;
  match goal with
  | |- context [_do_command ?cmd ?env ?w] =>
      call_with (do_command_tracker cmd) (_do_command cmd) env w
  | |- context [_read_timeout ?e ?i ?env ?w] =>
      call_with (read_timeout_tracker e i) (_read_timeout e i) env w
  end.

Ltac case_step :=
  idtac;
  match goal with
  | |- context [match ?x with _ => _ end] =>
      lazymatch x with
      | context [match _ with _ => _ end] => fail
      | _ => destruct x eqn:?
      end
  end.

Tactic Notation "exec" tactic3(call) := repeat (first [ call | case_step ]; cbn).

Ltac unfold_m :=
  unfold after, perform, ignore, try_except, catch_OSError, catch_ValueError,
    popen, communicate, check_output_xset, open_options, timeout_minus_10,
    decode, strptime, when_some;
  unfold mbind, M_bind; cbn.


(** ** [locked] implies [active] *)

Lemma text_eqb_eq (a b : Text.str) : Text.eqb a b = true -> a = b.
Proof.
  revert b. induction a as [|x a IH]; intros [|y b] H; try discriminate H.
  - reflexivity.
  - cbn in H. apply andb_prop in H as [Hx H]. apply Z.eqb_eq in Hx.
    f_equal; [exact Hx | apply IH, H].
Qed.

Lemma locked_is_not_non_blanked (state : Text.str) :
  Text.eqb state (Text.lit "locked") = true ->
  negb (Text.eqb state (Text.lit "non-blanked")) = true.
Proof. intros H. apply text_eqb_eq in H. subst state. reflexivity. Qed.

Lemma lock_is_not_unblank (state : Text.str) :
  Text.eqb state (Text.lit "LOCK") = true ->
  negb (Text.eqb state (Text.lit "UNBLANK")) = true.
Proof. intros H. apply text_eqb_eq in H. subst state. reflexivity. Qed.


Ltac tracker_done :=
  unfold locked_implies_active, same_tracker in *; cbn in *;
  repeat match goal with
         | H : _ /\ _ |- _ => destruct H
         | H : bool_decide _ = false |- _ =>
             apply bool_decide_eq_false in H; apply dec_stable in H; symmetry in H
         | H : bool_decide _ = true |- _ => apply bool_decide_eq_true in H
         end;
  intros;
  repeat match goal with
         | H : _active _ = _ |- _ => rewrite H in *
         | H : _locked _ = _ |- _ => rewrite H in *
         end;
  first
    [ congruence
    | f_equal;
      first [ apply locked_is_not_non_blanked | apply lock_is_not_unblank ];
      congruence
    | solve [auto] ].

Lemma keeps_tracker_invariant {A} (c : M A) env w :
  keeps same_tracker c ->
  locked_implies_active w -> locked_implies_active (after c env w).
Proof.
  intros K I. destruct (K env w) as (Ha & Hl & _).
  unfold locked_implies_active, after in *. rewrite Ha, Hl. exact I.
Qed.

Lemma activate_keeps_invariant env w :
  locked_implies_active w -> locked_implies_active (after activate env w).
Proof.
  intros I. unfold activate. unfold_m. exec tracker_call; tracker_done.
Qed.

Lemma deactivate_keeps_invariant env w :
  locked_implies_active w -> locked_implies_active (after deactivate env w).
Proof.
  intros I. unfold deactivate. unfold_m. exec tracker_call; tracker_done.
Qed.

Lemma read_from_watcher_keeps_invariant c env w :
  locked_implies_active w ->
  locked_implies_active (after (_read_from_watcher c) env w).
Proof.
  intros I. unfold _read_from_watcher. unfold_m. exec tracker_call; tracker_done.
Qed.

Lemma after_ignore {A} (c : M A) env w : after (ignore c) env w = after c env w.
Proof.
  unfold after, ignore, mbind, M_bind. destruct (c env w) as [[a|e] w']; reflexivity.
Qed.

Ltac same_tracker_op lem :=
  apply keeps_tracker_invariant; [apply lem; footprint_side | assumption].

Lemma perform_keeps_invariant o env w :
  locked_implies_active w -> locked_implies_active (after (perform o) env w).
Proof.
  intros I. destruct o; simpl perform.
  - apply activate_keeps_invariant, I.
  - apply deactivate_keeps_invariant, I.
  - rewrite after_ignore. apply read_from_watcher_keeps_invariant, I.
  - same_tracker_op keeps_read_timeout.
  - apply keeps_tracker_invariant; [|assumption].
    apply keeps_ignore; [exact _|]. apply keeps_active; exact _.
  - same_tracker_op keeps_set_active.
  - apply keeps_tracker_invariant; [|assumption].
    apply keeps_ignore; [exact _|]. apply keeps_active_time; exact _.
  - apply keeps_tracker_invariant; [|assumption].
    apply keeps_ignore; [exact _|]. apply keeps_timeout; exact _.
  - same_tracker_op keeps_lock.
  - same_tracker_op keeps_simulate_user_activity.
  - same_tracker_op keeps_inhibit.
  - same_tracker_op keeps_uninhibit.
  - apply keeps_tracker_invariant; [|assumption].
    apply keeps_ignore; [exact _|]. apply keeps_do_inhibit; footprint_side.
Qed.

Lemma run_keeps_invariant events w :
  locked_implies_active w -> locked_implies_active (run events w).
Proof.
  revert w. induction events as [|[env o] events IH]; intros w I; simpl.
  - exact I.
  - apply IH, perform_keeps_invariant, I.
Qed.

(** C2. Whatever happens to a manager after its construction (activation,
    watcher output, options-file events, commands, inhibition, even a call
    that raises), [locked] implies [active] once the call is over: the state
    (active = false, locked = true) is never reached. *)
Theorem locked_implies_active_always (no_dpms : bool) (events : list (Env * op)) :
  let w := run events (created no_dpms) in
  locked_implies_active w
  /\ (_active (self w), _locked (self w)) <> (Some false, Some true).
Proof.
  intros w.
  assert (I : locked_implies_active w).
  { apply run_keeps_invariant. intros H. discriminate H. }
  split; [exact I|].
  intros H. injection H as Ha Hl. apply I in Hl. congruence.
Qed.


(** ** The watcher callback *)

Lemma run_app (a b : list (Env * op)) (w : World) :
  run (a ++ b) w = run b (run a w).
Proof. unfold run. apply fold_left_app. Qed.

Lemma reads_append (a b : string) :
  reads (String.append a b) = reads a ++ reads b.
Proof.
  unfold reads. induction a as [|c a IH]; simpl; [reflexivity|].
  f_equal. exact IH.
Qed.

Lemma watcher_writes_append env (a b : string) (w : World) :
  watcher_writes env (String.append a b) w
  = watcher_writes env b (watcher_writes env a w).
Proof. unfold watcher_writes. rewrite reads_append, map_app. apply run_app. Qed.

Lemma watcher_writes_newline env (w : World) :
  watcher_writes env newline w = after (_read_from_watcher newline) env w.
Proof. unfold watcher_writes. simpl. apply after_ignore. Qed.

(** Whatever was read goes to the buffer and nothing else happens: the
    [bytes] read is never equal to the [str] of the line feed, also when it
    is the byte of a line feed. *)
Lemma read_from_watcher_buffers c env (w : World) (buf : list string) :
  _watcher_read_buf (self w) = Some buf ->
  _read_from_watcher c env w
  = (Return true, update (with_watcher_read_buf (Some (buf ++ [c]))) w).
Proof.
  intros Hbuf. unfold _read_from_watcher, mbind, M_bind.
  cbn. rewrite Hbuf. reflexivity.
Qed.

Lemma watcher_buffers env (output : string) (w : World) (buf : list string) :
  _watcher_read_buf (self w) = Some buf ->
  watcher_writes env output w
  = update (with_watcher_read_buf (Some (buf ++ reads output))) w.
Proof.
  unfold watcher_writes, reads.
  revert w buf. induction output as [|c output IH]; simpl; intros w buf Hbuf.
  - rewrite app_nil_r. destruct w as [s n t i tr]. destruct s. simpl in *.
    subst. reflexivity.
  - rewrite after_ignore. unfold after.
    rewrite (read_from_watcher_buffers _ env w buf Hbuf).
    simpl. rewrite (IH _ (buf ++ [String c EmptyString])); [|reflexivity].
    rewrite <- app_assoc. reflexivity.
Qed.

(** C1. The program never takes a watcher line apart.  The pipe of the
    watcher yields [bytes], and a [bytes] is never equal to the [str] of the
    line feed, so every byte the callback reads, the line feed included, goes
    to the buffer: when the watcher has written a whole line, of a
    recognized state or not, [locked], [active] and [since] are as they were
    and no signal was emitted. *)
Theorem watcher_line_leaves_tracker env (w : World) (buf : list string)
    (line : string) :
  _watcher_read_buf (self w) = Some buf ->
  let w' := watcher_writes env (String.append line newline) w in
  _locked (self w') = _locked (self w)
  /\ _active (self w') = _active (self w)
  /\ _active_since (self w') = _active_since (self w)
  /\ emitted (trace w') = emitted (trace w).
Proof.
  intros Hbuf w'. subst w'.
  rewrite (watcher_buffers env _ w buf Hbuf).
  repeat split.
Qed.

Lemma watcher_line_leaves_tracker_witness :
  let w' :=
    watcher_writes example_env
      (String.append "LOCK Mon Jan 01 10:00:05 2024" newline) example_world in
  _watcher_read_buf (self example_world) = Some []
  /\ _locked (self w') = Some false
  /\ _active (self w') = Some false
  /\ emitted (trace w') = [timeout_changed 330].
Proof.
  intros w'.
  assert (Hbuf : _watcher_read_buf (self example_world) = Some [])
    by (vm_compute; reflexivity).
  assert (Hlocked : _locked (self example_world) = Some false)
    by (vm_compute; reflexivity).
  assert (Hactive : _active (self example_world) = Some false)
    by (vm_compute; reflexivity).
  assert (Hemitted : emitted (trace example_world) = [timeout_changed 330])
    by (vm_compute; reflexivity).
  pose proof (watcher_line_leaves_tracker example_env example_world []
                "LOCK Mon Jan 01 10:00:05 2024" Hbuf) as (Hl & Ha & _ & He).
  fold w' in Hl, Ha, He. rewrite Hlocked in Hl. rewrite Hactive in Ha.
  rewrite Hemitted in He.
  split; [exact Hbuf|]. split; [exact Hl|]. split; [exact Ha | exact He].
Defined.

(** C3. A line of a recognized state whose remainder is no timestamp is
    treated as every other line: it is not examined.  At its line feed the
    callback returns [True]; nothing is logged (the trace is as it was before
    the line) and the line is not dropped: its bytes and the line feed are in
    the buffer, behind what was there. *)
Theorem watcher_bad_line_is_kept env (w : World) (buf : list string)
    (line : string) :
  _watcher_read_buf (self w) = Some buf ->
  _read_from_watcher newline env (watcher_writes env line w)
  = (Return true,
     update (with_watcher_read_buf (Some (buf ++ reads line ++ [newline]))) w).
Proof.
  intros Hbuf.
  rewrite (watcher_buffers env line w buf Hbuf).
  destruct w as [s n t i tr]. destruct s.
  erewrite read_from_watcher_buffers by (cbn; reflexivity).
  rewrite <- app_assoc. reflexivity.
Qed.

Lemma watcher_bad_line_is_kept_witness :
  _watcher_read_buf (self example_world) = Some []
  /\ _read_from_watcher newline example_env
       (watcher_writes example_env "LOCK bogus" example_world)
     = (Return true,
        update (with_watcher_read_buf (Some (reads "LOCK bogus" ++ [newline])))
          example_world).
Proof.
  assert (Hbuf : _watcher_read_buf (self example_world) = Some [])
    by (vm_compute; reflexivity).
  split; [exact Hbuf|].
  exact (watcher_bad_line_is_kept example_env example_world [] "LOCK bogus" Hbuf).
Defined.


(** Pushes the projections of a trace through its concatenations. *)
Ltac trace_simpl :=
  unfold spawned, emitted, source_events in *;
  cbn in *;
  repeat match goal with
         | H : context [omap _ (_ ++ _)] |- _ => rewrite omap_app in H
         | |- context [omap _ (_ ++ _)] => rewrite omap_app
         end;
  simpl in *;
  rewrite ?app_nil_r, <- ?app_assoc in *; simpl in *.

(** ** Suppression ticks *)

#[global] Instance same_sources_preorder : PreOrder same_sources.
Proof.
  split.
  - intros w. reflexivity.
  - intros a b c H1 H2. unfold same_sources in *. congruence.
Qed.

#[global] Instance maintains_preorder (I : World -> Prop) : PreOrder (maintains I).
Proof.
  split.
  - intros w H. exact H.
  - intros a b c H1 H2 H. apply H2, H1, H.
Qed.

Ltac sources_side :=
  first
    [ exact _
    | intros; unfold same_sources; simpl; rewrite source_events_app; simpl;
      apply app_nil_r ].

Lemma do_inhibit_sources : keeps same_sources _do_inhibit.
Proof. apply keeps_do_inhibit; sources_side. Qed.

Lemma do_inhibit_signals : keeps same_signals _do_inhibit.
Proof. apply keeps_do_inhibit; footprint_side. Qed.

(** Closes an equation between projections of traces. *)
Ltac trace_done :=
  trace_simpl;
  repeat match goal with
         | H : omap _ (trace _) = _ |- _ => rewrite H
         | H : _ = _ |- _ => rewrite H
         end;
  rewrite <- ?app_assoc; simpl;
  first [ reflexivity | congruence ].

Ltac quiet_leaf :=
  eexists _, _; split; [reflexivity|]; split;
  [ unfold quiet, only_trace, same_signals, same_sources; cbn;
    repeat split; trace_simpl; reflexivity
  | trace_simpl; reflexivity ].

(** A command always returns; it changes nothing but the trace, where it
    leaves one started child. *)
Lemma do_command_spec cmd env w :
  exists o w',
    _do_command cmd env w = (Return o, w')
    /\ quiet w w'
    /\ spawned (trace w') = spawned (trace w) ++ [[XSS_COMMAND; String.append "-" cmd]].
Proof.
  unfold _do_command. unfold_m. repeat (case_step; cbn); quiet_leaf.
Qed.

Lemma set_dpms_spec enable env w :
  exists u w',
    _set_dpms enable env w = (Return u, w')
    /\ quiet w w'
    /\ spawned (trace w')
       = spawned (trace w)
         ++ (if _manage_dpms (self w)
             then [[XSET; if enable then "+dpms" else "-dpms"]] else []).
Proof.
  unfold _set_dpms. unfold_m. repeat (case_step; cbn); quiet_leaf.
Qed.

Ltac quiet_facts H :=
  let Hs := fresh "Hself" in
  let Hn := fresh "Hnext" in
  let Ht := fresh "Htimers" in
  let Hi := fresh "Hio" in
  let He := fresh "Hemit" in
  let Hv := fresh "Hsrc" in
  destruct H as ((Hs & Hn & Ht & Hi) & He & Hv);
  unfold same_signals, same_sources in He, Hv.

Ltac quiet_call :=
  idtac;
  match goal with
  | |- context [_do_command ?cmd ?env ?w] =>
      let E := fresh "E" in let Q := fresh "Q" in let S := fresh "Hsp" in
      destruct (do_command_spec cmd env w) as (? & ? & E & Q & S);
      rewrite E; quiet_facts Q
  | |- context [_set_dpms ?b ?env ?w] =>
      let E := fresh "E" in let Q := fresh "Q" in let S := fresh "Hsp" in
      destruct (set_dpms_spec b env w) as (? & ? & E & Q & S);
      rewrite E; quiet_facts Q
  end.

Lemma do_inhibit_spec env w :
  exists w',
    _do_inhibit env w = (Return true, w')
    /\ quiet w w'
    /\ spawned (trace w') = spawned (trace w) ++ tick_commands (self w).
Proof.
  unfold tick_commands, _do_inhibit. unfold_m.
  destruct (truthy (_locked (self w))); cbn.
  - eexists. split; [reflexivity|]. split.
    + unfold quiet, only_trace, same_signals, same_sources; cbn.
      repeat split; trace_simpl; reflexivity.
    + trace_simpl. reflexivity.
  - quiet_call. cbn. quiet_call. cbn.
    eexists. split; [reflexivity|]. split.
    + unfold quiet, only_trace, same_signals, same_sources.
      trace_simpl. repeat split; congruence.
    + rewrite Hsp0, Hsp, Hself. trace_simpl. reflexivity.
Qed.

(** ** The inhibition timer *)

(** What [inhibit] does on a manager whose timeout is an [int]. *)
Lemma inhibit_spec env (w : World) (t : Z) :
  _timeout (self w) = PyInt t ->
  let id := next_source w in
  let ms := interval_of t * 1000 in
  let old := _inhibit_id (self w) in
  exists w',
    inhibit env w = (Return tt, w')
    /\ self w' = with_inhibit_id (Some id) (self w)
    /\ next_source w' = S id
    /\ timers w' = <[ id := ms ]> (match old with
                                   | Some i => delete i (timers w)
                                   | None => timers w
                                   end)
    /\ emitted (trace w') = emitted (trace w)
    /\ source_events (trace w')
       = source_events (trace w)
         ++ match old with Some i => [SourceRemove i] | None => [] end
         ++ [TimeoutAdd id ms]
    /\ spawned (trace w') = spawned (trace w) ++ tick_commands (self w).
Proof.
  intros Ht id ms old. subst id ms old.
  unfold inhibit, interval_of. unfold_m. rewrite Ht. cbn.
  destruct (_inhibit_id (self w)) as [i|]; cbn.
  all: match goal with
       | |- context [_do_inhibit ?e ?w0] =>
           destruct (do_inhibit_spec e w0) as (w1 & E & Q & Hsp)
       end.
  all: rewrite E; cbn; quiet_facts Q; eexists; (split; [reflexivity|]); cbn.
  all: rewrite Hself, Hnext, Htimers; cbn; repeat split; trace_done.
Qed.

(** C5. A suppression tick always returns and changes nothing but the
    trace.  If [locked] is true it starts no command at all, neither the
    deactivate command nor [xset]; a tick that starts one found [locked]
    not true, and then it runs the deactivate command and, when the
    manager manages DPMS, [xset -dpms].  The tick of the timer is this
    function, and the commands [inhibit] starts are those of its immediate
    tick. *)
Theorem tick_respects_lock env (w : World) :
  let w' := after _do_inhibit env w in
  (_do_inhibit env w).1 = Return true
  /\ quiet w w'
  /\ spawned (trace w')
     = spawned (trace w)
       ++ (if truthy (_locked (self w)) then []
           else [XSS_COMMAND; "-deactivate"]
                  :: (if _manage_dpms (self w) then [[XSET; "-dpms"]] else []))
  /\ (if truthy (_locked (self w))
      then trace w' = trace w ++ [Log DEBUG "Screensaver is locked, skipping inhibit"]
      else spawned (trace w') <> spawned (trace w))
  /\ after (perform InhibitTick) env w = w'
  /\ spawned (trace (after inhibit env w))
     = spawned (trace w)
       ++ match _timeout (self w) with
          | PyInt _ =>
              if truthy (_locked (self w)) then []
              else [XSS_COMMAND; "-deactivate"]
                     :: (if _manage_dpms (self w) then [[XSET; "-dpms"]] else [])
          | _ => []
          end.
Proof.
  intros w'. subst w'.
  destruct (do_inhibit_spec env w) as (w' & E & Q & Hsp).
  change (perform InhibitTick) with (ignore _do_inhibit).
  rewrite after_ignore. unfold after. rewrite E. cbn [fst snd].
  split; [reflexivity|]. split; [exact Q|]. split; [exact Hsp|].
  split; [|split; [reflexivity|]].
  - unfold tick_commands in Hsp.
    destruct (truthy (_locked (self w))) eqn:L.
    + revert E. unfold _do_inhibit. unfold_m. rewrite L. cbn.
      intros E. injection E as <-. reflexivity.
    + rewrite Hsp. intros H.
      apply (f_equal (@length _)) in H. rewrite length_app in H. simpl in H. lia.
  - destruct (_timeout (self w)) as [| |t] eqn:Ht.
    + unfold inhibit. unfold_m. rewrite Ht. cbn. symmetry. apply app_nil_r.
    + unfold inhibit. unfold_m. rewrite Ht. cbn. symmetry. apply app_nil_r.
    + destruct (inhibit_spec env w t Ht) as (w2 & E2 & _ & _ & _ & _ & _ & Hsp2).
      unfold after. rewrite E2. exact Hsp2.
Qed.


(** *** The armed timers are the one the manager remembers *)

Lemma same_timers_maintains (w w' : World) :
  same_timers w w' -> maintains timers_ok w w'.
Proof.
  intros [Ht Hi] H. unfold timers_ok in *. rewrite Ht, Hi. exact H.
Qed.

Lemma keeps_same_timers_maintains {A} (c : M A) :
  keeps same_timers c -> keeps (maintains timers_ok) c.
Proof. intros K env w. apply same_timers_maintains, K. Qed.

Lemma inhibit_timers_ok : keeps (maintains timers_ok) inhibit.
Proof.
  intros env w Hok.
  destruct (_timeout (self w)) as [| |t] eqn:Ht.
  - unfold inhibit. unfold_m. rewrite Ht. exact Hok.
  - unfold inhibit. unfold_m. rewrite Ht. exact Hok.
  - destruct (inhibit_spec env w t Ht) as (w' & E & Hs & _ & Hti & _).
    rewrite E. unfold timers_ok in *. cbn. rewrite Hs, Hti. cbn.
    rewrite dom_insert_L.
    destruct (_inhibit_id (self w)) as [i|].
    + rewrite dom_delete_L, Hok. set_solver.
    + rewrite Hok. set_solver.
Qed.

(** After a call, what is known of the new world is pushed into the goal. *)
Ltac push_world :=
  repeat match goal with
         | H : self _ = _ |- _ => rewrite H
         | H : timers _ = _ |- _ => rewrite H
         | H : next_source _ = _ |- _ => rewrite H
         | H : io_watches _ = _ |- _ => rewrite H
         end.

Tactic Notation "exec_world" tactic3(call) :=
  repeat (first [ call | case_step ]; cbn; push_world; cbn).

Ltac only_trace_call lem c env w :=
  let F := fresh "F" in
  pose proof (lem env w) as F;
  destruct (c env w) as [[?|?] ?];
  destruct F as (? & ? & ? & ?).

Ltac timers_call :=
  idtac;
  first
    [ quiet_call
    | match goal with
      | |- context [computed_timeout ?e ?i ?env ?w] =>
          only_trace_call (computed_timeout_only_trace e i) (computed_timeout e i) env w
      | |- context [inhibit ?env ?w] =>
          call_with inhibit_timers_ok inhibit env w
      end ].

Ltac timers_leaf :=
  unfold maintains, timers_ok in *; cbn in *;
  try match goal with F : _ -> ?G |- ?G => apply F end;
  push_world; cbn;
  repeat match goal with
         | H : _inhibit_id (self _) = _ |- _ => rewrite H in *
         end;
  rewrite ?dom_insert_L, ?dom_delete_L;
  repeat match goal with
         | H : dom (timers _) = _ |- _ => rewrite H
         end;
  first [ reflexivity | assumption | set_solver ].

Lemma uninhibit_timers_ok : keeps (maintains timers_ok) uninhibit.
Proof.
  intros env w Hok. unfold uninhibit. unfold_m. exec_world timers_call; timers_leaf.
Qed.

Lemma deactivate_timers_ok : keeps (maintains timers_ok) deactivate.
Proof.
  intros env w Hok. unfold deactivate. unfold_m. exec_world timers_call; timers_leaf.
Qed.

Lemma read_timeout_timers_ok e init : keeps (maintains timers_ok) (_read_timeout e init).
Proof.
  intros env w Hok. unfold _read_timeout. unfold_m. exec_world timers_call; timers_leaf.
Qed.

Lemma read_from_watcher_timers c : keeps same_timers (_read_from_watcher c).
Proof.
  intros env w. unfold _read_from_watcher. unfold_m.
  exec_world timers_call; split; reflexivity.
Qed.

Ltac activation_timers_call :=
  idtac;
  first
    [ quiet_call
    | match goal with
      | |- context [_read_timeout ?e ?i ?env ?w] =>
          call_with (read_timeout_timers_ok e i) (_read_timeout e i) env w
      end ].

Lemma activate_timers_ok : keeps (maintains timers_ok) activate.
Proof.
  intros env w Hok. unfold activate. unfold_m. exec_world activation_timers_call; timers_leaf.
Qed.

Lemma perform_timers_ok o : keeps (maintains timers_ok) (perform o).
Proof.
  destruct o; simpl perform.
  - apply activate_timers_ok.
  - apply deactivate_timers_ok.
  - apply keeps_same_timers_maintains, keeps_ignore; [exact _|].
    apply read_from_watcher_timers.
  - apply read_timeout_timers_ok.
  - apply keeps_same_timers_maintains, keeps_ignore; [exact _|].
    apply keeps_active; exact _.
  - apply keeps_same_timers_maintains, keeps_set_active; footprint_side.
  - apply keeps_same_timers_maintains, keeps_ignore; [exact _|].
    apply keeps_active_time; exact _.
  - apply keeps_same_timers_maintains, keeps_ignore; [exact _|].
    apply keeps_timeout; exact _.
  - apply keeps_same_timers_maintains, keeps_lock; footprint_side.
  - apply keeps_same_timers_maintains, keeps_simulate_user_activity; footprint_side.
  - apply inhibit_timers_ok.
  - apply uninhibit_timers_ok.
  - apply keeps_same_timers_maintains, keeps_ignore; [exact _|].
    apply do_inhibit_timers.
Qed.

Lemma run_timers_ok events (w : World) : timers_ok w -> timers_ok (run events w).
Proof.
  revert w. induction events as [|[env o] events IH]; intros w Hok; simpl.
  - exact Hok.
  - apply IH, perform_timers_ok, Hok.
Qed.

Lemma created_timers_ok no_dpms : timers_ok (created no_dpms).
Proof. unfold timers_ok. simpl. apply dom_empty_L. Qed.

(** After [inhibit], exactly one timer is armed. *)
Lemma inhibit_one_timer env (w : World) (t : Z) :
  timers_ok w ->
  _timeout (self w) = PyInt t ->
  timers (after inhibit env w) = {[ next_source w := Z.max 20 (t - 10) * 1000 ]}
  /\ _inhibit_id (self (after inhibit env w)) = Some (next_source w).
Proof.
  intros Hok Ht.
  destruct (inhibit_spec env w t Ht) as (w' & E & Hs & _ & Hti & _).
  unfold after. rewrite E. cbn [snd]. rewrite Hs, Hti. split; [|reflexivity].
  unfold timers_ok in Hok. unfold interval_of.
  assert (Hempty : match _inhibit_id (self w) with
                   | Some i => delete i (timers w)
                   | None => timers w
                   end = ∅).
  { apply dom_empty_inv_L.
    destruct (_inhibit_id (self w)) as [i|].
    - rewrite dom_delete_L, Hok. set_solver.
    - exact Hok. }
  rewrite Hempty. apply insert_empty.
Qed.

(** C4. On every reachable manager whose timeout is an [int], [inhibit]
    returns; it cancels the timer the manager remembered, runs one
    suppression tick, and arms one timer of [max(20, timeout - 10)] seconds,
    which is then the only one armed.  A later [inhibit], whatever happened
    in between, again leaves exactly one timer, at the interval of the
    timeout stored at that moment. *)
Theorem inhibit_arms_exactly_one_timer
    (no_dpms : bool) (events events2 : list (Env * op)) (env env2 : Env) (t t2 : Z) :
  let w := run events (created no_dpms) in
  let w' := after inhibit env w in
  let v := run events2 w' in
  let v' := after inhibit env2 v in
  _timeout (self w) = PyInt t ->
  _timeout (self v) = PyInt t2 ->
  (inhibit env w).1 = Return tt
  /\ timers w' = {[ next_source w := Z.max 20 (t - 10) * 1000 ]}
  /\ _inhibit_id (self w') = Some (next_source w)
  /\ source_events (trace w')
     = source_events (trace w)
       ++ match _inhibit_id (self w) with
          | Some old => [SourceRemove old]
          | None => []
          end
       ++ [TimeoutAdd (next_source w) (Z.max 20 (t - 10) * 1000)]
  /\ spawned (trace w') = spawned (trace w) ++ tick_commands (self w)
  /\ timers v' = {[ next_source v := Z.max 20 (t2 - 10) * 1000 ]}
  /\ _inhibit_id (self v') = Some (next_source v).
Proof.
  intros w w' v v' Ht Ht2.
  assert (Hok : timers_ok w) by apply run_timers_ok, created_timers_ok.
  assert (Hok' : timers_ok w').
  { apply (perform_timers_ok Inhibit env w Hok). }
  assert (Hokv : timers_ok v) by apply run_timers_ok, Hok'.
  destruct (inhibit_one_timer env w t Hok Ht) as [H1 H2].
  destruct (inhibit_one_timer env2 v t2 Hokv Ht2) as [H3 H4].
  destruct (inhibit_spec env w t Ht) as (w1 & E & _ & _ & _ & _ & Hsrc & Hsp).
  subst w'. unfold after in *. rewrite E in *. cbn [fst snd] in *.
  repeat split; assumption.
Qed.

Lemma inhibit_arms_exactly_one_timer_witness :
  let w := run [(example_env, Activate)] (created false) in
  let w' := after inhibit example_env w in
  let v' := after inhibit example_env w' in
  _timeout (self w) = PyInt 330
  /\ timers w' = {[ 2%nat := 320000 ]}
  /\ timers v' = {[ 3%nat := 320000 ]}.
Proof.
  assert (Ht : _timeout (self (run [(example_env, Activate)] (created false)))
               = PyInt 330) by (vm_compute; reflexivity).
  assert (Ht2 : _timeout
                  (self (run [] (after inhibit example_env
                                   (run [(example_env, Activate)] (created false)))))
                = PyInt 330) by (vm_compute; reflexivity).
  pose proof (inhibit_arms_exactly_one_timer false [(example_env, Activate)] []
                example_env example_env 330 330 Ht Ht2)
    as (_ & H1 & _ & _ & _ & H2 & _).
  vm_compute in H1, H2. vm_compute.
  split; [reflexivity|]. split; [exact H1 | exact H2].
Defined.


(** ** [HH:MM:SS] under [strptime] *)

Section hms.
Import Strptime.

Lemma match_alt_append (alt : list cls) (p rest : Text.str) :
  (length alt <= length p)%nat ->
  match_alt alt (p ++ rest)
  = option_map (fun '(m, r) => (m, r ++ rest)) (match_alt alt p).
Proof.
  revert p. induction alt as [|c alt IH]; intros p Hlen; simpl.
  - reflexivity.
  - destruct p as [|x p]; simpl in *; [lia|].
    destruct (c x); [|reflexivity].
    rewrite IH by lia. destruct (match_alt alt p) as [[m r]|]; reflexivity.
Qed.

Lemma omap_cons_eq {A B} (f : A -> option B) (x : A) (l : list A) :
  omap f (x :: l) = match f x with Some y => y :: omap f l | None => omap f l end.
Proof. reflexivity. Qed.

Lemma omap_match_alt_append (alts : list (list cls)) (p rest : Text.str) :
  Forall (fun alt => (length alt <= length p)%nat) alts ->
  omap (fun alt => match_alt alt (p ++ rest)) alts
  = map (fun '(m, r) => (m, r ++ rest))
      (omap (fun alt => match_alt alt p) alts).
Proof.
  induction 1 as [|alt alts Hlen _ IH]; [reflexivity|].
  rewrite !omap_cons_eq, match_alt_append by exact Hlen.
  destruct (match_alt alt p) as [[m r]|]; simpl; rewrite IH; reflexivity.
Qed.

Lemma hour_fields_ok : forallb (two_digit_field_ok DH) (seqZ 0 24) = true.
Proof. vm_compute. reflexivity. Qed.

Lemma minute_fields_ok : forallb (two_digit_field_ok DM) (seqZ 0 60) = true.
Proof. vm_compute. reflexivity. Qed.

Lemma second_fields_ok : forallb (two_digit_field_ok DS) (seqZ 0 60) = true.
Proof. vm_compute. reflexivity. Qed.

Lemma field_ok_in_range (d : directive) (bound n : Z) :
  forallb (two_digit_field_ok d) (seqZ 0 bound) = true ->
  0 <= n < bound ->
  two_digit_field_ok d n = true.
Proof.
  intros Hall Hn. rewrite forallb_forall in Hall. apply Hall.
  apply list_elem_of_In, elem_of_seqZ. lia.
Qed.

#[local] Arguments two_digits : simpl never.
#[local] Arguments digit_char : simpl never.
#[local] Arguments match_items : simpl never.
#[local] Arguments int_of : simpl never.
#[local] Arguments Datetime.new : simpl never.

Lemma match_items_cons (it : item) (items : list item) (s : Text.str) :
  match_items (it :: items) s
  = first_some
      (fun '(m, r) =>
         match match_items items r with
         | Some (caps, rest) =>
             Some (match it with Dir d => (d, m) :: caps | _ => caps end, rest)
         | None => None
         end)
      (candidates it s).
Proof. reflexivity. Qed.

Lemma colon_matches (items : list item) (rest : Text.str) :
  match_items (Lit ":" :: items) (Text.lit ":" ++ rest) = match_items items rest.
Proof.
  rewrite match_items_cons. unfold candidates.
  change (Text.lit ":" ++ rest) with (58 :: rest).
  cbn [omap list_omap match_alt].
  replace (chr ":" 58) with true by (vm_compute; reflexivity).
  cbn. destruct (match_items items rest) as [[caps r]|]; reflexivity.
Qed.

Lemma colon_mismatches (items : list item) (c : Z) (rest : Text.str) :
  chr ":" c = false -> match_items (Lit ":" :: items) (c :: rest) = None.
Proof.
  intros H. rewrite match_items_cons. unfold candidates.
  cbn [omap list_omap match_alt]. rewrite H. reflexivity.
Qed.

Lemma short_alternatives (d : directive) :
  d = DH \/ d = DM \/ d = DS ->
  Forall (fun alt => (length alt <= 3)%nat) (alternatives d).
Proof.
  intros [->|[->| ->]]; cbn; repeat constructor.
Qed.

(** A two-digit field and the colon after it are matched as a whole,
    whatever follows. *)
Lemma two_digit_field_then_colon (d : directive) (n : Z) (items : list item)
    (rest : Text.str) :
  d = DH \/ d = DM \/ d = DS ->
  two_digit_field_ok d n = true ->
  match_items (Dir d :: Lit ":" :: items)
    (two_digits n ++ Text.lit ":" ++ rest)
  = match match_items items rest with
    | Some (caps, r) => Some ((d, two_digits n) :: caps, r)
    | None => None
    end.
Proof.
  intros Hd Hok. unfold two_digit_field_ok in Hok.
  apply andb_prop in Hok as [Hok _]. apply andb_prop in Hok as [Hok _].
  apply andb_prop in Hok as [Hways Hcolon].
  apply bool_decide_eq_true in Hways. apply negb_true_iff in Hcolon.
  rewrite match_items_cons.
  rewrite (app_assoc (two_digits n) (Text.lit ":") rest).
  unfold candidates at 1. unfold candidates in Hways.
  rewrite omap_match_alt_append by (apply short_alternatives, Hd).
  rewrite Hways. cbn [map first_some].
  rewrite colon_matches.
  destruct (match_items items rest) as [[caps r]|]; [reflexivity|].
  change ((digit_char (n mod 10) :: Text.lit ":") ++ rest)
    with (digit_char (n mod 10) :: Text.lit ":" ++ rest).
  rewrite colon_mismatches by exact Hcolon. reflexivity.
Qed.

Lemma new_time_of_day (h m s : Z) :
  0 <= h < 24 -> 0 <= m < 60 -> 0 <= s < 60 ->
  Datetime.new 1900 1 1 h m s 0 = Some (Datetime.mk_datetime 1900 1 1 h m s 0).
Proof.
  intros Hh Hm Hs. unfold Datetime.new, Datetime.in_range.
  change (Datetime.days_in_month 1900 1) with 31.
  repeat match goal with
         | |- context [?a <=? ?b] =>
             replace (a <=? b) with true by (symmetry; apply Z.leb_le; lia)
         end.
  reflexivity.
Qed.

(** [HH:MM:SS] with two digits each and a valid time of day parses to that
    time. *)
Lemma strptime_hms (h m s : Z) :
  0 <= h < 24 -> 0 <= m < 60 -> 0 <= s < 60 ->
  strptime (hms_text h m s) TIMEOUT_FORMAT
  = Some (Datetime.mk_datetime 1900 1 1 h m s 0).
Proof.
  intros Hh Hm Hs.
  pose proof (field_ok_in_range DH 24 h hour_fields_ok Hh) as Kh.
  pose proof (field_ok_in_range DM 60 m minute_fields_ok Hm) as Km.
  pose proof (field_ok_in_range DS 60 s second_fields_ok Hs) as Ks.
  unfold strptime, hms_text.
  change (compile false TIMEOUT_FORMAT)
    with (Some [Dir DH; Lit ":"; Dir DM; Lit ":"; Dir DS]).
  cbv beta iota.
  rewrite (two_digit_field_then_colon DH h) by (auto || exact Kh).
  rewrite (two_digit_field_then_colon DM m) by (auto || exact Km).
  change ([Dir DS]) with ([Dir DS] ++ []).
  change (match_items ([Dir DS] ++ []) (two_digits s))
    with (match_items [Dir DS] (two_digits s)).
  unfold two_digit_field_ok in Kh, Km, Ks.
  repeat match goal with
         | H : _ && _ = true |- _ => apply andb_prop in H as [? ?]
         end.
  repeat match goal with
         | H : bool_decide _ = true |- _ => apply bool_decide_eq_true in H
         | H : (_ =? _) = true |- _ => apply Z.eqb_eq in H
         end.
  match goal with
  | H : match_items [Dir DS] (two_digits s) = _ |- _ => rewrite H
  end.
  unfold num_field. cbn.
  repeat match goal with
         | H : int_of (two_digits _) = _ |- _ => rewrite H; clear H
         end.
  apply new_time_of_day; assumption.
Qed.

Lemma digit_is_not_space (d : Z) :
  0 <= d < 10 -> Text.isspace (digit_char d) = false.
Proof.
  intros Hd.
  assert (Hall : forallb (fun d => negb (Text.isspace (digit_char d))) (seqZ 0 10) = true)
    by (vm_compute; reflexivity).
  rewrite forallb_forall in Hall. apply negb_true_iff, Hall.
  apply list_elem_of_In, elem_of_seqZ. lia.
Qed.

(** A line [timeout: ] followed by eight characters that are not
    whitespace has these eight as its token. *)
Lemma timeout_token_of_eight (c1 c2 c3 c4 c5 c6 c7 c8 : Z) :
  Text.isspace c1 = false -> Text.isspace c2 = false ->
  Text.isspace c3 = false -> Text.isspace c4 = false ->
  Text.isspace c5 = false -> Text.isspace c6 = false ->
  Text.isspace c7 = false -> Text.isspace c8 = false ->
  let tok := [c1; c2; c3; c4; c5; c6; c7; c8] in
  timeout_token (Text.lit "timeout: " ++ tok) = Some tok.
Proof.
  intros H1 H2 H3 H4 H5 H6 H7 H8 tok. subst tok.
  unfold timeout_token, Text.strip.
  let v := eval vm_compute in (Text.lit "timeout: ") in
  change (Text.lit "timeout: ") with v.
  cbn [app Text.lstrip_with Text.rstrip_with Text.split].
  repeat match goal with
         | |- context [Text.isspace ?c] =>
             first
               [ rewrite H1 | rewrite H2 | rewrite H3 | rewrite H4
               | rewrite H5 | rewrite H6 | rewrite H7 | rewrite H8
               | let v := eval vm_compute in (Text.isspace c) in
                 change (Text.isspace c) with v ];
             cbn [andb Text.is_empty Text.lstrip_with Text.rstrip_with Text.split]
         end.
  reflexivity.
Qed.

Lemma hms_text_token (h m s : Z) :
  0 <= h < 24 -> 0 <= m < 60 -> 0 <= s < 60 ->
  timeout_token (Text.lit "timeout: " ++ hms_text h m s) = Some (hms_text h m s).
Proof.
  intros Hh Hm Hs. unfold hms_text, two_digits.
  change (Text.lit ":") with [58]. cbn [app].
  apply timeout_token_of_eight;
    first [ apply digit_is_not_space | vm_compute; reflexivity ].
  all: first [ apply Z.mod_pos_bound; lia
             | split; [apply Z.div_pos; lia | apply Z.div_lt_upper_bound; lia] ].
Qed.

End hms.

(** ** The options file *)

#[local] Arguments timeout_token : simpl never.
#[local] Arguments scan_options : simpl never.

Ltac quiet_here :=
  unfold quiet, only_trace, same_signals, same_sources; cbn;
  repeat split; trace_done.

Lemma head_Some_nonempty {A} (l : list A) (x : A) : head l = Some x -> l <> [].
Proof. destruct l; [discriminate | discriminate]. Qed.

Lemma head_None_empty {A} (l : list A) : head l = None -> l = [].
Proof. destruct l; [reflexivity | discriminate]. Qed.

(** The loop returns what the specification prescribes for the first line
    that decides; without such a line it ends as the iteration ends. *)
Lemma scan_options_spec (lines : list Text.str) (last : read_end) (t0 : Z) env
    (w : World) :
  exists w',
    scan_options lines last t0 env w
    = (match head (omap timeout_token lines) with
       | Some tok => Return (default t0 (hms_seconds tok))
       | None =>
           match last with
           | EndOfFile => Return t0
           | ReadOSError => Raise OSError
           | ReadUnicodeDecodeError => Raise UnicodeDecodeError
           end
       end, w')
    /\ quiet w w'.
Proof.
  revert w. induction lines as [|line lines IH]; intros w.
  - destruct last; (eexists; split; [reflexivity|]; quiet_here).
  - unfold scan_options; fold scan_options. simpl omap.
    destruct (timeout_token line) as [tok|]; [|apply IH].
    cbn [head]. unfold hms_seconds. unfold_m.
    destruct (Strptime.strptime tok TIMEOUT_FORMAT) as [dt|]; cbn.
    + eexists. split; [f_equal; f_equal; lia|]. quiet_here.
    + eexists. split; [reflexivity|]. quiet_here.
Qed.

(** The first half of [_read_timeout]: the default after a deletion; on a
    finished write and at activation the timeout the specification
    prescribes for the file, unless the iteration over the file raises
    [UnicodeDecodeError] before a line has decided, which no handler
    catches. *)
Lemma computed_timeout_spec e init env (w : World) (path : string) :
  _options_path (self w) = Some path ->
  exists w',
    computed_timeout e init env w
    = (if (is_event CHANGES_DONE_HINT e || init)
          && undecodable (env_open env path)
       then Raise UnicodeDecodeError
       else Return (if is_event CHANGES_DONE_HINT e || init
                    then spec_timeout (env_open env path) else 600), w')
    /\ quiet w w'.
Proof.
  intros Hpath. unfold computed_timeout, spec_timeout, undecodable, DEFAULT_TIMEOUT.
  destruct (is_event CHANGES_DONE_HINT e || init); cbn [andb].
  - unfold_m. destruct init; cbn; rewrite Hpath; cbn.
    all: destruct (env_open env path) as [|lines last]; cbn.
    all: try (eexists; split; [reflexivity|]; quiet_here).
    all: match goal with
         | |- context [scan_options ?l ?z ?t ?e ?w0] =>
             destruct (scan_options_spec l z t e w0) as (w1 & E & Q)
         end.
    all: rewrite E; quiet_facts Q.
    all: destruct (head (omap timeout_token lines)) as [tok|] eqn:Hhead.
    all: try (apply head_Some_nonempty in Hhead).
    all: try (apply head_None_empty in Hhead; rewrite Hhead).
    all: destruct last; cbn.
    all: try (destruct (omap timeout_token lines); [congruence|]; cbn).
    all: eexists; (split; [reflexivity|]).
    all: unfold quiet, only_trace, same_signals, same_sources; cbn.
    all: repeat split; trace_done.
  - unfold_m. eexists. split; [reflexivity|]. quiet_here.
Qed.

(** The fields of a [datetime] that was built are in range. *)
Lemma new_in_range y m d H M S us dt :
  Datetime.new y m d H M S us = Some dt ->
  0 <= Datetime.hour dt <= 23
  /\ 0 <= Datetime.minute dt <= 59
  /\ 0 <= Datetime.second dt <= 59.
Proof.
  unfold Datetime.new, Datetime.in_range. intros E.
  destruct (_ && _) eqn:C in E; [|discriminate E].
  injection E as <-. simpl.
  repeat match goal with
         | H : _ && _ = true |- _ => apply andb_prop in H as [? ?]
         end.
  lia.
Qed.

Lemma strptime_in_range data fmt dt :
  Strptime.strptime data fmt = Some dt ->
  0 <= Datetime.hour dt <= 23
  /\ 0 <= Datetime.minute dt <= 59
  /\ 0 <= Datetime.second dt <= 59.
Proof.
  unfold Strptime.strptime. intros E.
  destruct (Strptime.compile false fmt) as [items|]; [|discriminate E].
  destruct (Strptime.match_items items data) as [[caps [|c rest]]|];
    try discriminate E.
  eapply new_in_range, E.
Qed.

Lemma spec_timeout_in_range (f : file) :
  0 <= spec_timeout f <= 86399.
Proof.
  unfold spec_timeout. destruct f as [|lines last]; [lia|].
  destruct (head (omap timeout_token lines)) as [tok|]; [|lia].
  unfold hms_seconds.
  destruct (Strptime.strptime tok TIMEOUT_FORMAT) as [dt|] eqn:E; simpl; [|lia].
  apply strptime_in_range in E. lia.
Qed.

(** The timeout the specification prescribes, line by line. *)
Lemma spec_timeout_by_line :
  spec_timeout NoFile = 600
  /\ spec_timeout (File [Text.lit "timeout: 00:05:30"] EndOfFile) = 330
  /\ spec_timeout (File [Text.lit "timeout: bogus"] EndOfFile) = 600
  /\ (forall pre line post last,
        omap timeout_token pre = [] ->
        spec_timeout (File (pre ++ line :: post) last)
        = match timeout_token line with
          | Some tok =>
              match Strptime.strptime tok TIMEOUT_FORMAT with
              | Some dt =>
                  Datetime.hour dt * 3600 + Datetime.minute dt * 60
                  + Datetime.second dt
              | None => 600
              end
          | None => spec_timeout (File post last)
          end)
  /\ (forall h m s last,
        0 <= h < 24 -> 0 <= m < 60 -> 0 <= s < 60 ->
        spec_timeout (File [Text.lit "timeout: " ++ hms_text h m s] last)
        = h * 3600 + m * 60 + s).
Proof.
  do 3 (split; [vm_compute; reflexivity|]).
  split.
  - intros pre line post last Hpre. unfold spec_timeout.
    rewrite omap_app, Hpre. simpl.
    destruct (timeout_token line) as [tok|]; simpl; [|reflexivity].
    unfold hms_seconds. destruct (Strptime.strptime tok TIMEOUT_FORMAT); reflexivity.
  - intros h m s last Hh Hm Hs. unfold spec_timeout.
    rewrite omap_cons_eq, (hms_text_token h m s Hh Hm Hs). cbn [omap list_omap head].
    unfold hms_seconds. rewrite (strptime_hms h m s Hh Hm Hs). reflexivity.
Qed.

(** X27. With the path of the options file set, and unless the iteration
    over the file raises [UnicodeDecodeError] before a line has decided, the
    timeout computed on a finished write or at activation is the one the
    specification prescribes for what [open] gives: 600 when the file cannot
    be opened or read, 600 without a line of exactly two tokens whose first
    is [timeout:], and for the first such line the seconds
    [H*3600 + M*60 + S] of its second token, or 600 when that token does not
    parse as [%H:%M:%S].  A deletion gives 600 without reading. *)
Theorem config_timeout_value env (w : World) (path : string) :
  _options_path (self w) = Some path ->
  undecodable (env_open env path) = false ->
  (computed_timeout (Some CHANGES_DONE_HINT) false env w).1
  = Return (spec_timeout (env_open env path))
  /\ (computed_timeout None true env w).1 = Return (spec_timeout (env_open env path))
  /\ (computed_timeout (Some DELETED) false env w).1 = Return 600
  /\ spec_timeout NoFile = 600
  /\ spec_timeout (File [Text.lit "timeout: 00:05:30"] EndOfFile) = 330
  /\ spec_timeout (File [Text.lit "timeout: bogus"] EndOfFile) = 600
  /\ (forall pre line post last,
        omap timeout_token pre = [] ->
        spec_timeout (File (pre ++ line :: post) last)
        = match timeout_token line with
          | Some tok =>
              match Strptime.strptime tok TIMEOUT_FORMAT with
              | Some dt =>
                  Datetime.hour dt * 3600 + Datetime.minute dt * 60
                  + Datetime.second dt
              | None => 600
              end
          | None => spec_timeout (File post last)
          end)
  /\ (forall h m s last,
        0 <= h < 24 -> 0 <= m < 60 -> 0 <= s < 60 ->
        spec_timeout (File [Text.lit "timeout: " ++ hms_text h m s] last)
        = h * 3600 + m * 60 + s).
Proof.
  intros Hpath Hdec.
  destruct (computed_timeout_spec (Some CHANGES_DONE_HINT) false env w path Hpath)
    as (w1 & E1 & _).
  destruct (computed_timeout_spec None true env w path Hpath) as (w2 & E2 & _).
  destruct (computed_timeout_spec (Some DELETED) false env w path Hpath)
    as (w3 & E3 & _).
  rewrite E1, E2, E3, Hdec.
  do 3 (split; [reflexivity|]).
  exact spec_timeout_by_line.
Qed.

Lemma config_timeout_value_witness :
  _options_path (self example_world) = Some "/home/user/.xscreensaver"
  /\ undecodable (env_open example_env "/home/user/.xscreensaver") = false
  /\ (computed_timeout (Some CHANGES_DONE_HINT) false example_env example_world).1
     = Return 330.
Proof.
  assert (H : _options_path (self example_world) = Some "/home/user/.xscreensaver")
    by (vm_compute; reflexivity).
  assert (D : undecodable (env_open example_env "/home/user/.xscreensaver") = false)
    by (vm_compute; reflexivity).
  split; [exact H|]. split; [exact D|].
  pose proof (config_timeout_value example_env example_world _ H D) as (E & _).
  rewrite E. vm_compute. reflexivity.
Defined.

(** C6. An options file that cannot be read as text is not taken for an
    unreadable one.  When the iteration over the file raises
    [UnicodeDecodeError] before a line has decided, as it does on a byte that
    is not text in the encoding of the locale, the reader computes no timeout
    where the specification prescribes the default, 600: the error passes the
    handler of [IOError] and leaves [_read_timeout], on a finished write as
    at activation. *)
Theorem config_undecodable_file_raises env (w : World) (path : string) :
  _options_path (self w) = Some path ->
  undecodable (env_open env path) = true ->
  (computed_timeout (Some CHANGES_DONE_HINT) false env w).1
  = Raise UnicodeDecodeError
  /\ (computed_timeout None true env w).1 = Raise UnicodeDecodeError
  /\ (_read_timeout (Some CHANGES_DONE_HINT) false env w).1
     = Raise UnicodeDecodeError
  /\ (_read_timeout None true env w).1 = Raise UnicodeDecodeError
  /\ spec_timeout (env_open env path) = 600.
Proof.
  intros Hpath Hdec.
  destruct (computed_timeout_spec (Some CHANGES_DONE_HINT) false env w path Hpath)
    as (w1 & E1 & _).
  destruct (computed_timeout_spec None true env w path Hpath) as (w2 & E2 & _).
  rewrite Hdec in E1, E2.
  change (is_event CHANGES_DONE_HINT (Some CHANGES_DONE_HINT) || false) with true
    in E1.
  change (is_event CHANGES_DONE_HINT None || true) with true in E2.
  cbn [andb] in E1, E2.
  split; [rewrite E1; reflexivity|]. split; [rewrite E2; reflexivity|].
  split; [|split].
  - unfold _read_timeout.
    change (is_event CHANGES_DONE_HINT (Some CHANGES_DONE_HINT)
            || is_event DELETED (Some CHANGES_DONE_HINT) || false) with true.
    cbn iota. unfold mbind, M_bind. rewrite E1. reflexivity.
  - unfold _read_timeout.
    change (is_event CHANGES_DONE_HINT None || is_event DELETED None || true)
      with true.
    cbn iota. unfold mbind, M_bind. rewrite E2. reflexivity.
  - unfold undecodable in Hdec. unfold spec_timeout.
    destruct (env_open env path) as [|lines last]; [reflexivity|].
    destruct last; try discriminate Hdec.
    destruct (omap timeout_token lines); [reflexivity | discriminate Hdec].
Qed.

Lemma config_undecodable_file_raises_witness :
  _options_path (self example_world) = Some "/home/user/.xscreensaver"
  /\ undecodable (env_open example_env_undecodable "/home/user/.xscreensaver") = true
  /\ (_read_timeout (Some CHANGES_DONE_HINT) false example_env_undecodable
        example_world).1
     = Raise UnicodeDecodeError.
Proof.
  assert (H : _options_path (self example_world) = Some "/home/user/.xscreensaver")
    by (vm_compute; reflexivity).
  assert (D : undecodable (env_open example_env_undecodable "/home/user/.xscreensaver")
              = true) by (vm_compute; reflexivity).
  split; [exact H|]. split; [exact D|].
  exact (proj1 (proj2 (proj2
           (config_undecodable_file_raises example_env_undecodable example_world
              _ H D)))).
Defined.

(** ** Committing a timeout *)

(** What a re-parse does on an activated manager. *)
Lemma read_timeout_spec e init env (w : World) (path : string) (old : Z) :
  _options_path (self w) = Some path ->
  _timeout (self w) = PyInt old ->
  is_event CHANGES_DONE_HINT e || is_event DELETED e || init = true ->
  (is_event CHANGES_DONE_HINT e || init) && undecodable (env_open env path)
  = false ->
  let t := if is_event CHANGES_DONE_HINT e || init
           then spec_timeout (env_open env path) else 600 in
  let w' := after (_read_timeout e init) env w in
  (_read_timeout e init env w).1 = Return tt
  /\ emitted (trace w')
     = emitted (trace w) ++ (if t =? old then [] else [timeout_changed t])
  /\ if t =? old
     then only_trace w w' /\ source_events (trace w') = source_events (trace w)
     else self w'
          = match _inhibit_id (self w) with
            | Some _ =>
                with_inhibit_id (Some (next_source w))
                  (with_timeout (PyInt t) (self w))
            | None => with_timeout (PyInt t) (self w)
            end
          /\ timers w'
             = match _inhibit_id (self w) with
               | Some i =>
                   <[ next_source w := Z.max 20 (t - 10) * 1000 ]>
                     (delete i (timers w))
               | None => timers w
               end
          /\ exists before,
               trace w' = before ++ [Emit (timeout_changed t)]
               /\ source_events before
                  = source_events (trace w)
                    ++ match _inhibit_id (self w) with
                       | Some i =>
                           [SourceRemove i;
                            TimeoutAdd (next_source w) (Z.max 20 (t - 10) * 1000)]
                       | None => []
                       end.
Proof.
  intros Hpath Hold Hev Hdec t w'. subst w'.
  destruct (computed_timeout_spec e init env w path Hpath) as (w1 & E & Q).
  rewrite Hdec in E. fold t in E. quiet_facts Q.
  unfold after, _read_timeout. rewrite Hev. unfold mbind, M_bind.
  rewrite E. cbn. rewrite Hself, Hold. unfold differs.
  destruct (t =? old) eqn:D; cbn.
  - split; [reflexivity|]. split; [rewrite app_nil_r; exact Hemit|].
    split; [repeat split; assumption | exact Hsrc].
  - rewrite Hself. destruct (_inhibit_id (self w)) as [i|] eqn:Hi; cbn.
    + destruct (inhibit_spec env (update (with_timeout (PyInt t)) w1) t eq_refl)
        as (w2 & E2 & Hs2 & _ & Ht2 & He2 & Hsrc2 & _).
      rewrite E2. cbn in *. rewrite Hself, Hi, Hnext, Htimers in *.
      split; [reflexivity|]. split; [trace_done|].
      split; [exact Hs2|]. split; [exact Ht2|].
      exists (trace w2). split; [reflexivity|].
      unfold interval_of in Hsrc2. rewrite Hsrc2. unfold source_events in *.
      rewrite Hsrc. reflexivity.
    + split; [reflexivity|]. split; [trace_done|].
      rewrite Hself. split; [reflexivity|]. split; [exact Htimers|].
      eexists. split; [reflexivity|]. cbn. rewrite app_nil_r. exact Hsrc.
Qed.

(** A re-parse whose iteration over the file raises [UnicodeDecodeError]
    before a line has decided raises it, and has changed nothing. *)
Lemma read_timeout_raises e init env (w : World) (path : string) :
  _options_path (self w) = Some path ->
  (is_event CHANGES_DONE_HINT e || init) && undecodable (env_open env path)
  = true ->
  exists w',
    _read_timeout e init env w = (Raise UnicodeDecodeError, w') /\ quiet w w'.
Proof.
  intros Hpath Hdec.
  destruct (computed_timeout_spec e init env w path Hpath) as (w1 & E & Q).
  rewrite Hdec in E.
  assert (Hev : is_event CHANGES_DONE_HINT e || is_event DELETED e || init = true).
  { apply andb_prop in Hdec as [H _].
    destruct (is_event CHANGES_DONE_HINT e), init; try reflexivity;
      [apply orb_true_r | discriminate H]. }
  unfold _read_timeout. rewrite Hev. unfold mbind, M_bind. rewrite E.
  exists w1. split; [reflexivity | exact Q].
Qed.

Lemma delete_only_timer (m : gmap nat Z) (i : nat) :
  dom m = {[ i ]} -> delete i m = ∅.
Proof.
  intros H. apply dom_empty_inv_L. rewrite dom_delete_L, H. set_solver.
Qed.

(** C7. On an activated manager, a re-parse (a finished write, a deletion
    or the initial read) emits timeout-changed exactly when the computed
    timeout differs from the stored one.  When it differs the new value is
    stored and, if a timer is armed, that timer is removed and one is armed at
    the new interval before the signal is emitted, the signal being the last
    thing done.  When it is equal nothing changes but the trace, which gains
    neither a signal nor a source event.  A re-parse that computes no
    timeout, the iteration over the file raising [UnicodeDecodeError] before
    a line has decided, raises that error; it changes nothing but the trace,
    which gains neither a signal nor a source event. *)
Theorem timeout_changed_iff_differs e init env (w : World) (path : string) (old : Z) :
  timers_ok w ->
  _options_path (self w) = Some path ->
  _timeout (self w) = PyInt old ->
  is_event CHANGES_DONE_HINT e || is_event DELETED e || init = true ->
  let t := if is_event CHANGES_DONE_HINT e || init
           then spec_timeout (env_open env path) else 600 in
  let w' := after (_read_timeout e init) env w in
  if (is_event CHANGES_DONE_HINT e || init) && undecodable (env_open env path)
  then
    (_read_timeout e init env w).1 = Raise UnicodeDecodeError
    /\ only_trace w w'
    /\ emitted (trace w') = emitted (trace w)
    /\ source_events (trace w') = source_events (trace w)
  else
  (_read_timeout e init env w).1 = Return tt
  /\ emitted (trace w')
     = emitted (trace w) ++ (if t =? old then [] else [timeout_changed t])
  /\ if t =? old
     then only_trace w w' /\ source_events (trace w') = source_events (trace w)
     else _timeout (self w') = PyInt t
          /\ (exists before,
                trace w' = before ++ [Emit (timeout_changed t)]
                /\ source_events before
                   = source_events (trace w)
                     ++ match _inhibit_id (self w) with
                        | Some i =>
                            [SourceRemove i;
                             TimeoutAdd (next_source w) (Z.max 20 (t - 10) * 1000)]
                        | None => []
                        end)
          /\ match _inhibit_id (self w) with
             | Some _ =>
                 timers w' = {[ next_source w := Z.max 20 (t - 10) * 1000 ]}
                 /\ _inhibit_id (self w') = Some (next_source w)
             | None => timers w' = ∅ /\ _inhibit_id (self w') = None
             end.
Proof.
  intros Hok Hpath Hold Hev t w'.
  destruct ((is_event CHANGES_DONE_HINT e || init)
            && undecodable (env_open env path)) eqn:Hdec.
  { destruct (read_timeout_raises e init env w path Hpath Hdec) as (w1 & E & Q).
    subst w'. unfold after. rewrite E. cbn [fst snd].
    destruct Q as (Ho & He & Hs).
    split; [reflexivity|]. split; [exact Ho|]. split; [exact He | exact Hs]. }
  destruct (read_timeout_spec e init env w path old Hpath Hold Hev Hdec)
    as (Hret & Hemit & Hrest).
  fold t in Hemit, Hrest. fold w' in Hemit, Hrest.
  split; [exact Hret|]. split; [exact Hemit|].
  destruct (t =? old); [exact Hrest|].
  destruct Hrest as (Hs & Ht & Hbefore).
  unfold timers_ok in Hok.
  destruct (_inhibit_id (self w)) as [i|] eqn:Hi.
  - rewrite Hs, Ht, (delete_only_timer _ i Hok). cbn.
    split; [reflexivity|]. split; [exact Hbefore|].
    split; [apply insert_empty | reflexivity].
  - rewrite Hs, Ht. cbn. split; [reflexivity|]. split; [exact Hbefore|].
    split; [apply dom_empty_inv_L, Hok | exact Hi].
Qed.

Lemma timeout_changed_iff_differs_witness :
  let w := after inhibit example_env example_world in
  let w' := after (_read_timeout (Some CHANGES_DONE_HINT) false) example_env_edited w in
  timers_ok w
  /\ _timeout (self w) = PyInt 330
  /\ emitted (trace w') = emitted (trace w) ++ [timeout_changed 600]
  /\ timers w' = {[ 3%nat := 590000 ]}.
Proof.
  intros w w'.
  assert (Hok : timers_ok w) by (vm_compute; reflexivity).
  assert (Hpath : _options_path (self w) = Some "/home/user/.xscreensaver")
    by (vm_compute; reflexivity).
  assert (Hold : _timeout (self w) = PyInt 330) by (vm_compute; reflexivity).
  pose proof (timeout_changed_iff_differs (Some CHANGES_DONE_HINT) false
                example_env_edited w _ 330 Hok Hpath Hold eq_refl) as H.
  cbv zeta in H.
  assert (Hdec : (is_event CHANGES_DONE_HINT (Some CHANGES_DONE_HINT) || false)
                 && undecodable
                      (env_open example_env_edited "/home/user/.xscreensaver")
                 = false) by (vm_compute; reflexivity).
  rewrite Hdec in H. destruct H as (_ & Hemit & Hrest).
  split; [exact Hok|]. split; [exact Hold|].
  vm_compute in Hemit, Hrest. destruct Hrest as (_ & _ & Ht & _).
  subst w w'. vm_compute. split; [exact Hemit | exact Ht].
Defined.

(** ** Activation *)

(** The initial read finds the sentinel and therefore commits, when it
    computes a timeout. *)
Lemma initial_read_spec env (w : World) (path : string) :
  _options_path (self w) = Some path ->
  _timeout (self w) = PyInt (-1) ->
  undecodable (env_open env path) = false ->
  let t := spec_timeout (env_open env path) in
  exists w',
    _read_timeout None true env w = (Return tt, w')
    /\ emitted (trace w') = emitted (trace w) ++ [timeout_changed t]
    /\ _timeout (self w') = PyInt t.
Proof.
  intros Hpath Hold Hdec t.
  assert (Hdec' : (is_event CHANGES_DONE_HINT None || true)
                  && undecodable (env_open env path) = false) by exact Hdec.
  destruct (read_timeout_spec None true env w path (-1) Hpath Hold eq_refl Hdec')
    as (Hret & Hemit & Hrest).
  change (is_event CHANGES_DONE_HINT None || true) with true in Hemit, Hrest.
  cbn iota in Hemit, Hrest. fold t in Hemit, Hrest.
  pose proof (spec_timeout_in_range (env_open env path)) as Hrange. fold t in Hrange.
  assert (D : (t =? -1) = false) by (apply Z.eqb_neq; lia).
  rewrite D in Hemit, Hrest. destruct Hrest as (Hs & _).
  unfold after in *.
  destruct (_read_timeout None true env w) as [r w']. cbn in *. subst r.
  exists w'. split; [reflexivity|]. split; [exact Hemit|].
  rewrite Hs. destruct (_inhibit_id (self w)); reflexivity.
Qed.

Lemma initial_read_raises env (w : World) (path : string) :
  _options_path (self w) = Some path ->
  undecodable (env_open env path) = true ->
  exists w',
    _read_timeout None true env w = (Raise UnicodeDecodeError, w') /\ quiet w w'.
Proof.
  intros Hpath Hdec. apply (read_timeout_raises None true env w path Hpath).
  exact Hdec.
Qed.

Ltac activate_call :=
  idtac;
  first
    [ quiet_call
    | match goal with
      | |- context [_read_timeout None true ?env ?w] =>
          let E := fresh "E" in
          let Q := fresh "Q" in
          let D := fresh "Hdec" in
          let He := fresh "Hinit" in
          let Ht := fresh "Hstored" in
          destruct (undecodable (env_open env (env_expanduser env XSS_OPTIONS)))
            eqn:D;
          [ destruct (initial_read_raises env w (env_expanduser env XSS_OPTIONS)
                        eq_refl D) as (? & E & Q);
            rewrite E; quiet_facts Q
          | destruct (initial_read_spec env w (env_expanduser env XSS_OPTIONS)
                        eq_refl eq_refl D) as (? & E & He & Ht);
            rewrite E ]
      end ].

(** An activation that completes has read an options file that gave a
    timeout, and has emitted timeout-changed once, with the timeout it
    stored; one that raises has emitted nothing. *)
Lemma activate_signals env (w : World) :
  let f := env_open env (env_expanduser env XSS_OPTIONS) in
  let w' := after activate env w in
  match (activate env w).1 with
  | Return _ =>
      undecodable f = false
      /\ emitted (trace w') = emitted (trace w) ++ [timeout_changed (spec_timeout f)]
      /\ _timeout (self w') = PyInt (spec_timeout f)
  | Raise _ => emitted (trace w') = emitted (trace w)
  end.
Proof.
  intros f w'. subst f w'. unfold activate. unfold_m.
  exec activate_call.
  all: try (split; [reflexivity|]).
  all: try (split; [|cbn; assumption]).
  all: try trace_done.
Qed.

(** An activation leaves the stored timeout as it was, when it raises
    before the watcher runs, or has stored the sentinel -1 or, after it, the
    timeout of the options file. *)
Lemma activate_stored_timeout env (w : World) :
  let f := env_open env (env_expanduser env XSS_OPTIONS) in
  let w' := after activate env w in
  match (activate env w).1 with
  | Return _ => _timeout (self w') = PyInt (spec_timeout f)
  | Raise _ =>
      _timeout (self w') = _timeout (self w) \/ _timeout (self w') = PyInt (-1)
  end.
Proof.
  intros f w'. subst f w'. unfold activate. unfold_m.
  exec activate_call.
  all: cbn in *; rewrite ?Hself, ?Hself0, ?Hself1; cbn.
  all: first [ assumption | left; reflexivity | right; reflexivity | idtac ].
Qed.

(** Whatever is computed for an options file is a number of seconds of one
    day. *)
Lemma computed_timeout_in_range e init env (w : World) :
  match (computed_timeout e init env w).1 with
  | Return t => 0 <= t <= 86399
  | Raise _ => True
  end.
Proof.
  destruct (_options_path (self w)) as [path|] eqn:Hpath.
  - destruct (computed_timeout_spec e init env w path Hpath) as (w' & E & _).
    rewrite E. cbn.
    destruct ((is_event CHANGES_DONE_HINT e || init)
              && undecodable (env_open env path)); [exact I|].
    destruct (is_event CHANGES_DONE_HINT e || init);
      [apply spec_timeout_in_range | lia].
  - unfold computed_timeout. unfold_m.
    destruct (is_event CHANGES_DONE_HINT e || init); cbn.
    + destruct init; cbn; rewrite Hpath; cbn; exact I.
    + unfold DEFAULT_TIMEOUT. lia.
Qed.

(** X28. [activate] stores the sentinel -1 before the initial read, and
    no computed timeout is negative; so an activation that completes has
    emitted timeout-changed exactly once, with the timeout it then stores. *)
Theorem activation_emits_one_timeout_changed env (w : World) :
  (activate env w).1 = Return tt ->
  let t := spec_timeout (env_open env (env_expanduser env XSS_OPTIONS)) in
  let w' := after activate env w in
  0 <= t
  /\ differs t (PyInt (-1)) = true
  /\ emitted (trace w') = emitted (trace w) ++ [timeout_changed t]
  /\ _timeout (self w') = PyInt t
  /\ (forall e init env0 (w0 : World),
        match (computed_timeout e init env0 w0).1 with
        | Return t0 => 0 <= t0
        | Raise _ => True
        end).
Proof.
  intros Hret t w'.
  pose proof (spec_timeout_in_range (env_open env (env_expanduser env XSS_OPTIONS)))
    as Hrange.
  fold t in Hrange.
  pose proof (activate_signals env w) as H. cbv zeta in H. rewrite Hret in H.
  destruct H as (_ & Hemit & Hstored).
  split; [lia|]. split.
  { unfold differs. apply negb_true_iff, Z.eqb_neq. lia. }
  split; [exact Hemit|]. split; [exact Hstored|].
  intros e init env0 w0.
  pose proof (computed_timeout_in_range e init env0 w0) as H.
  destruct ((computed_timeout e init env0 w0).1); [lia | exact I].
Qed.

Lemma activation_emits_one_timeout_changed_witness :
  (activate example_env (created false)).1 = Return tt
  /\ emitted (trace example_world) = [timeout_changed 330]
  /\ _timeout (self example_world) = PyInt 330.
Proof.
  assert (Hret : (activate example_env (created false)).1 = Return tt)
    by (vm_compute; reflexivity).
  pose proof (activation_emits_one_timeout_changed example_env (created false) Hret)
    as (_ & _ & Hemit & Hstored & _).
  split; [exact Hret|].
  vm_compute in Hemit, Hstored. vm_compute. split; [exact Hemit | exact Hstored].
Defined.

(** C10. Not every activation emits timeout-changed.  With an options
    file whose iteration raises [UnicodeDecodeError] before a line has
    decided, no activation completes and none emits a signal: the stored
    timeout is what it was or the sentinel -1, never a timeout of the file.
    In the example session with such a file the daemon, the query and the
    watcher start, the initial read raises [UnicodeDecodeError] out of
    [activate], nothing is emitted and the sentinel stays. *)
Theorem activation_fails_on_undecodable_options env (w : World) :
  undecodable (env_open env (env_expanduser env XSS_OPTIONS)) = true ->
  let w' := after activate env w in
  (exists e, (activate env w).1 = Raise e)
  /\ emitted (trace w') = emitted (trace w)
  /\ (_timeout (self w') = _timeout (self w) \/ _timeout (self w') = PyInt (-1))
  /\ (activate example_env_undecodable (created false)).1 = Raise UnicodeDecodeError
  /\ emitted (trace (after activate example_env_undecodable (created false))) = []
  /\ _timeout (self (after activate example_env_undecodable (created false)))
     = PyInt (-1)
  /\ _watcher_id (self (after activate example_env_undecodable (created false)))
     = Some 1%nat.
Proof.
  intros Hdec w'.
  pose proof (activate_signals env w) as Hsig.
  pose proof (activate_stored_timeout env w) as Hsto.
  cbv zeta in Hsig, Hsto. fold w' in Hsig, Hsto.
  destruct ((activate env w).1) as [[]|e].
  - destruct Hsig as (Hsig & _). congruence.
  - split; [exists e; reflexivity|]. split; [exact Hsig|]. split; [exact Hsto|].
    repeat split; vm_compute; reflexivity.
Qed.

Lemma activation_fails_on_undecodable_options_witness :
  undecodable
    (env_open example_env_undecodable
       (env_expanduser example_env_undecodable XSS_OPTIONS)) = true
  /\ (exists e, (activate example_env_undecodable (created false)).1 = Raise e)
  /\ emitted (trace (after activate example_env_undecodable (created false)))
     = emitted (trace (created false)).
Proof.
  assert (D : undecodable
                (env_open example_env_undecodable
                   (env_expanduser example_env_undecodable XSS_OPTIONS)) = true)
    by (vm_compute; reflexivity).
  split; [exact D|].
  pose proof (activation_fails_on_undecodable_options example_env_undecodable
                (created false) D) as (Hraise & Hemit & _).
  split; [exact Hraise | exact Hemit].
Defined.


(** ** The active time *)

#[local] Arguments Datetime.sub : simpl never.

(** The days and seconds of a difference, from its whole seconds. *)
Lemma sub_days_seconds (a b : Datetime.datetime) :
  let E := Datetime.elapsed_us a b / 1000000 in
  Datetime.days (Datetime.sub a b) = E / 86400
  /\ Datetime.seconds (Datetime.sub a b) = E mod 86400.
Proof.
  unfold Datetime.sub, Datetime.normalize, Datetime.elapsed_us. simpl.
  set (d := Datetime.toordinal a - Datetime.toordinal b).
  set (s := Datetime.second a + Datetime.minute a * 60 + Datetime.hour a * 3600
            - (Datetime.second b + Datetime.minute b * 60 + Datetime.hour b * 3600)).
  set (us := Datetime.microsecond a - Datetime.microsecond b).
  assert (HE : ((d * 86400 + s) * 1000000 + us) / 1000000
               = d * 86400 + (s + us / 1000000)).
  { rewrite Z.div_add_l by lia. lia. }
  rewrite HE. split.
  - rewrite Z.div_add_l by lia. reflexivity.
  - rewrite (Z.add_comm (d * 86400)). symmetry. apply Z_mod_plus_full.
Qed.

Lemma active_time_spec env (w : World) (since : Datetime.datetime) :
  _active (self w) = Some true ->
  _active_since (self w) = Some since ->
  let E := Datetime.elapsed_us (env_now env) since / 1000000 in
  active_time env w = (Return (E mod 86400 + E / 86400 * 3600), w).
Proof.
  intros Ha Hs E. unfold active_time. unfold_m. rewrite Ha. cbn. rewrite Hs.
  destruct (sub_days_seconds (env_now env) since) as [Hd Hsec].
  fold E in Hd, Hsec. rewrite Hd, Hsec. reflexivity.
Qed.

(** C8. While [active] is true, [active_time] is the elapsed whole seconds
    only within the first day: with [E] the whole seconds from [since] to
    now it returns [E mod 86400 + (E / 86400) * 3600], a day counting for an
    hour.  Ninety seconds after activation it returns 90; one day after, 3600.
    While [active] is not true it returns 0. *)
Theorem active_time_counts_a_day_as_an_hour env (w : World) :
  match _active (self w), _active_since (self w) with
  | Some true, Some since =>
      let E := Datetime.elapsed_us (env_now env) since / 1000000 in
      (active_time env w).1 = Return (E mod 86400 + E / 86400 * 3600)
      /\ (if (0 <=? E) && (E <? 86400)
          then (active_time env w).1 = Return E
          else (active_time env w).1 <> Return E)
  | Some true, None => (active_time env w).1 = Raise TypeError
  | _, _ => (active_time env w).1 = Return 0
  end
  /\ (let blanked := after activate example_env_blanked (created false) in
      (active_time (at_time (Datetime.mk_datetime 2024 1 1 10 1 30 0) example_env)
         blanked).1 = Return 90
      /\ Datetime.elapsed_us (Datetime.mk_datetime 2024 1 2 10 0 0 0)
           (Datetime.mk_datetime 2024 1 1 10 0 0 0) = 86400 * 1000000
      /\ (active_time (at_time (Datetime.mk_datetime 2024 1 2 10 0 0 0) example_env)
            blanked).1 = Return 3600).
Proof.
  split.
  - destruct (_active (self w)) as [[|]|] eqn:Ha.
    + destruct (_active_since (self w)) as [since|] eqn:Hs.
      * intros E. rewrite (active_time_spec env w since Ha Hs). cbn [fst].
        fold E. split; [reflexivity|].
        destruct ((0 <=? E) && (E <? 86400)) eqn:R.
        -- apply andb_prop in R as [R1 R2].
           apply Z.leb_le in R1. apply Z.ltb_lt in R2.
           rewrite Z.mod_small, Z.div_small by lia. f_equal. lia.
        -- intros H. injection H as H.
           pose proof (Z.div_mod E 86400 ltac:(lia)) as Hdm.
           pose proof (Z.mod_pos_bound E 86400 ltac:(lia)) as Hm.
           assert (E / 86400 = 0) by lia.
           apply andb_false_iff in R as [R|R];
             [apply Z.leb_gt in R | apply Z.ltb_ge in R]; lia.
      * unfold active_time. unfold_m. rewrite Ha. cbn. rewrite Hs. reflexivity.
    + unfold active_time. unfold_m. rewrite Ha. reflexivity.
    + unfold active_time. unfold_m. rewrite Ha. reflexivity.
  - vm_compute. repeat split; reflexivity.
Qed.

(** ** The query of the initial state *)

(** Without output from the child, [_do_command] returns [None]. *)
Lemma do_command_time_none env (w : World) :
  query_fails env = true ->
  exists w', _do_command "time" env w = (Return None, w') /\ quiet w w'.
Proof.
  unfold query_fails, _do_command. intros H. unfold_m.
  change (String.append "-" "time") with "-time".
  destruct (env_popen env [XSS_COMMAND; "-time"]); cbn in *.
  - destruct (env_communicate env [XSS_COMMAND; "-time"]) as [retcode out].
    cbn in *. rewrite H. cbn.
    eexists. split; [reflexivity|].
    unfold quiet, only_trace, same_signals, same_sources; cbn.
    repeat split; trace_done.
  - eexists. split; [reflexivity|].
    unfold quiet, only_trace, same_signals, same_sources; cbn.
    repeat split; trace_done.
Qed.

(** C9. When the daemon starts but the [time] query gives no output,
    [activate] raises [AttributeError] on [None.decode]: the tracker holds
    the defaults (inactive, unlocked, since now), but no watcher is started,
    no timeout is stored and nothing is emitted. *)
Theorem activate_raises_without_query_output env (w : World) :
  env_popen env [XSS; "-nosplash"] = true ->
  query_fails env = true ->
  let w' := after activate env w in
  (activate env w).1 = Raise AttributeError
  /\ _active (self w') = Some false
  /\ _locked (self w') = Some false
  /\ _active_since (self w') = Some (env_now env)
  /\ _watcher (self w') = _watcher (self w)
  /\ _timeout (self w') = _timeout (self w)
  /\ emitted (trace w') = emitted (trace w).
Proof.
  intros Hpopen Hfail w'. subst w'. unfold activate. unfold_m.
  rewrite Hpopen. cbn.
  match goal with
  | |- context [_do_command "time" env ?w0] =>
      destruct (do_command_time_none env w0 Hfail) as (w1 & E & Q)
  end.
  rewrite E. cbn. quiet_facts Q. rewrite Hself. cbn.
  repeat split; trace_done.
Qed.

Lemma activate_raises_without_query_output_witness :
  query_fails example_env_killed = true
  /\ (activate example_env_killed (created false)).1 = Raise AttributeError.
Proof.
  split; [reflexivity|].
  exact (proj1 (activate_raises_without_query_output example_env_killed
                  (created false) eq_refl eq_refl)).
Defined.

(** With output that is text but does not match the pattern, the defaults
    stay and the activation goes on. *)
Lemma activate_defaults_when_unmatched env (w : World) retcode out text :
  env_popen env [XSS; "-nosplash"] = true ->
  env_popen env [XSS_COMMAND; "-time"] = true ->
  env_popen env [XSS_COMMAND; "-watch"] = true ->
  env_communicate env [XSS_COMMAND; "-time"] = (retcode, out) ->
  0 <= retcode ->
  Text.decode (Text.strip_bytes out) = Some text ->
  Text.search_screen_since text = None ->
  undecodable (env_open env (env_expanduser env XSS_OPTIONS)) = false ->
  let w' := after activate env w in
  (activate env w).1 = Return tt
  /\ _active (self w') = Some false
  /\ _locked (self w') = Some false
  /\ _active_since (self w') = Some (env_now env).
Proof.
  intros Hp1 Hp2 Hp3 Hc Hrc Htext Hsearch Hdec w'. subst w'.
  unfold activate, _do_command. unfold_m.
  change (String.append "-" "time") with "-time".
  rewrite Hp1. cbn. rewrite Hp2. cbn. rewrite Hc. cbn.
  destruct (retcode <? 0) eqn:R; [apply Z.ltb_lt in R; lia|]. cbn.
  fold (Text.strip_bytes out). rewrite Htext. cbn.
  rewrite Hsearch. cbn. rewrite Hp3. cbn.
  match goal with
  | |- context [_read_timeout None true env ?w0] =>
      destruct (initial_read_spec env w0 (env_expanduser env XSS_OPTIONS)
                  eq_refl eq_refl Hdec) as (w1 & E & _ & _);
      pose proof (read_timeout_tracker None true env w0) as (Ha & Hl & Hsince)
  end.
  rewrite E in *. cbn in *.
  split; [reflexivity|]. split; [exact Ha|]. split; [exact Hl | exact Hsince].
Qed.

(** With output that matches the pattern but carries no date in the fixed
    format, [activate] raises [ValueError] after it has overwritten
    [active]. *)
Lemma activate_raises_on_bad_date env (w : World) retcode out text state date_str :
  env_popen env [XSS; "-nosplash"] = true ->
  env_popen env [XSS_COMMAND; "-time"] = true ->
  env_communicate env [XSS_COMMAND; "-time"] = (retcode, out) ->
  0 <= retcode ->
  Text.decode (Text.strip_bytes out) = Some text ->
  Text.search_screen_since text = Some (state, date_str) ->
  Strptime.strptime (Text.strip date_str) DATETIME_FORMAT = None ->
  let w' := after activate env w in
  (activate env w).1 = Raise ValueError
  /\ _active (self w') = Some (negb (Text.eqb state (Text.lit "non-blanked")))
  /\ _locked (self w') = Some false.
Proof.
  intros Hp1 Hp2 Hc Hrc Htext Hsearch Hdate w'. subst w'.
  unfold activate, _do_command. unfold_m.
  change (String.append "-" "time") with "-time".
  rewrite Hp1. cbn. rewrite Hp2. cbn. rewrite Hc. cbn.
  destruct (retcode <? 0) eqn:R; [apply Z.ltb_lt in R; lia|]. cbn.
  fold (Text.strip_bytes out). rewrite Htext. cbn.
  rewrite Hsearch. cbn. rewrite Hdate. cbn.
  repeat split.
Qed.

(** With output that is not UTF-8, [activate] raises [UnicodeDecodeError]
    at [decode], the tracker holding the defaults. *)
Lemma activate_raises_on_bad_utf8 env (w : World) retcode out :
  env_popen env [XSS; "-nosplash"] = true ->
  env_popen env [XSS_COMMAND; "-time"] = true ->
  env_communicate env [XSS_COMMAND; "-time"] = (retcode, out) ->
  0 <= retcode ->
  Text.is_empty_bytes (Text.strip_bytes out) = false ->
  Text.decode (Text.strip_bytes out) = None ->
  let w' := after activate env w in
  (activate env w).1 = Raise UnicodeDecodeError
  /\ _active (self w') = Some false
  /\ _locked (self w') = Some false.
Proof.
  intros Hp1 Hp2 Hc Hrc Hout Htext w'. subst w'.
  unfold activate, _do_command. unfold_m.
  change (String.append "-" "time") with "-time".
  rewrite Hp1. cbn. rewrite Hp2. cbn. rewrite Hc. cbn.
  destruct (retcode <? 0) eqn:R; [apply Z.ltb_lt in R; lia|]. cbn.
  fold (Text.strip_bytes out). rewrite Htext. cbn.
  repeat split.
Qed.

(** * Further properties of the manager *)

(** X1. [_do_command] never raises: it returns the stripped output when the
    child could be started and was not killed by a signal (also when it
    exits with an error code), and [None] otherwise; it starts exactly the
    one child [xscreensaver-command -cmd], emits nothing and leaves the
    manager, its sources and its timers as they were. *)
Theorem do_command_outcome cmd env (w : World) :
  let argv := [XSS_COMMAND; String.append "-" cmd] in
  let w' := after (_do_command cmd) env w in
  (_do_command cmd env w).1
  = Return (if env_popen env argv && negb ((env_communicate env argv).1 <? 0)
            then Some (Text.strip_bytes (env_communicate env argv).2)
            else None)
  /\ quiet w w'
  /\ spawned (trace w') = spawned (trace w) ++ [argv].
Proof.
  intros argv w'. subst argv w'. unfold _do_command. unfold_m.
  destruct (env_popen env _); cbn.
  - destruct (env_communicate env _) as [retcode out]. cbn.
    destruct (retcode <? 0); cbn; (split; [reflexivity|]); split;
      try quiet_here; trace_done.
  - split; [reflexivity|]. split; [quiet_here | trace_done].
Qed.

(** X2. [_set_dpms] never raises, whatever [xset] does: when the manager
    manages DPMS it runs exactly one [xset +dpms] or [xset -dpms] and
    changes nothing else; when it does not, the call does nothing at all. *)
Theorem set_dpms_never_fails enable env (w : World) :
  let w' := after (_set_dpms enable) env w in
  (_set_dpms enable env w).1 = Return tt
  /\ quiet w w'
  /\ (if _manage_dpms (self w)
      then spawned (trace w')
           = spawned (trace w) ++ [[XSET; if enable then "+dpms" else "-dpms"]]
      else w' = w).
Proof.
  intros w'. subst w'. unfold _set_dpms. unfold_m.
  destruct (_manage_dpms (self w)); cbn.
  - destruct (env_xset env _) as [| |out]; cbn;
      [| |destruct (negb (Text.is_empty_bytes out)); cbn];
      (split; [reflexivity|]); (split; [quiet_here | trace_done]).
  - split; [reflexivity|]. split; [quiet_here | reflexivity].
Qed.

Lemma uninhibit_spec env (w : World) :
  exists w',
    uninhibit env w = (Return tt, w')
    /\ emitted (trace w') = emitted (trace w)
    /\ match _inhibit_id (self w) with
       | Some id =>
           self w' = with_inhibit_id None (self w)
           /\ next_source w' = next_source w
           /\ timers w' = delete id (timers w)
           /\ source_events (trace w') = source_events (trace w) ++ [SourceRemove id]
           /\ spawned (trace w')
              = spawned (trace w)
                ++ (if _manage_dpms (self w) then [[XSET; "+dpms"]] else [])
       | None => w' = extend [Log DEBUG "Uninhibiting screensaver"] w
       end.
Proof.
  unfold uninhibit. unfold_m.
  destruct (_inhibit_id (self w)) as [id|] eqn:Hid; cbn.
  - quiet_call. cbn. eexists. split; [reflexivity|]. cbn.
    rewrite Hself, Hnext, Htimers. cbn.
    split; [trace_done|]. do 3 (split; [reflexivity|]).
    split; trace_done.
  - eexists. split; [reflexivity|]. split; [trace_done | reflexivity].
Qed.

(** X4. On every reachable manager [uninhibit] returns and leaves no timer
    and no [_inhibit_id]; it emits no signal.  If a timer was armed, its
    source is removed and, when DPMS is managed, [xset +dpms] is run; if
    none was, the call only logs, and so does a second [uninhibit]. *)
Theorem uninhibit_disarms (no_dpms : bool) (events : list (Env * op)) env env2 :
  let w := run events (created no_dpms) in
  let w' := after uninhibit env w in
  (uninhibit env w).1 = Return tt
  /\ timers w' = ∅
  /\ _inhibit_id (self w') = None
  /\ emitted (trace w') = emitted (trace w)
  /\ match _inhibit_id (self w) with
     | Some id =>
         source_events (trace w') = source_events (trace w) ++ [SourceRemove id]
         /\ spawned (trace w')
            = spawned (trace w)
              ++ (if _manage_dpms (self w) then [[XSET; "+dpms"]] else [])
     | None => w' = extend [Log DEBUG "Uninhibiting screensaver"] w
     end
  /\ after uninhibit env2 w' = extend [Log DEBUG "Uninhibiting screensaver"] w'.
Proof.
  intros w w'.
  assert (Hok : timers_ok w)
    by (apply run_timers_ok, created_timers_ok).
  subst w'. unfold after.
  destruct (uninhibit_spec env w) as (w1 & E & Hemit & H). rewrite E. cbn.
  split; [reflexivity|].
  assert (Hnone : timers w1 = ∅ /\ _inhibit_id (self w1) = None).
  { unfold timers_ok in Hok.
    destruct (_inhibit_id (self w)) as [id|] eqn:Hid.
    - destruct H as (Hs & _ & Ht & _). rewrite Hs, Ht. cbn.
      split; [apply delete_only_timer, Hok | reflexivity].
    - subst w1. cbn. split; [|exact Hid].
      apply dom_empty_inv_L, Hok. }
  destruct Hnone as [Ht Hi].
  do 3 (split; [assumption|]).
  split.
  - destruct (_inhibit_id (self w)); [|exact H].
    destruct H as (_ & _ & _ & Hsrc & Hsp). split; assumption.
  - destruct (uninhibit_spec env2 w1) as (w2 & E2 & _ & H2).
    rewrite E2, Hi in *. exact H2.
Qed.

(** X5. Setting [active] never raises and never writes the tracker: it
    starts [xscreensaver-command -activate] or [-deactivate] exactly when
    the value differs from the stored [_active], and nothing otherwise; the
    call itself changes no state. *)
Theorem set_active_is_fire_and_forget (value : bool) env (w : World) :
  let w' := after (set_active value) env w in
  (set_active value env w).1 = Return tt
  /\ quiet w w'
  /\ spawned (trace w')
     = spawned (trace w)
       ++ (if bool_decide (_active (self w) = Some value) then []
           else [[XSS_COMMAND; if value then "-activate" else "-deactivate"]]).
Proof.
  intros w'. subst w'. unfold set_active. unfold_m.
  destruct (decide (_active (self w) = Some value)) as [Heq|Hne].
  - rewrite (bool_decide_eq_true_2 _ Heq).
    rewrite bool_decide_eq_false_2 by (intros H; apply H; congruence).
    destruct value; cbn; (split; [reflexivity|]);
      (split; [quiet_here | trace_done]).
  - rewrite (bool_decide_eq_false_2 _ Hne).
    rewrite bool_decide_eq_true_2 by congruence.
    destruct value; cbn; quiet_call; cbn; (split; [reflexivity|]);
      (split; [quiet_here | trace_done]).
Qed.

(** X6. [lock] starts [xscreensaver-command -lock] unless the tracker says
    the screen is locked, [simulate_user_activity] always starts
    [xscreensaver-command -deactivate]; both return, emit nothing and leave
    the manager as it was. *)
Theorem lock_and_activity_commands env (w : World) :
  let w1 := after lock env w in
  let w2 := after simulate_user_activity env w in
  (lock env w).1 = Return tt
  /\ quiet w w1
  /\ spawned (trace w1)
     = spawned (trace w)
       ++ (if truthy (_locked (self w)) then [] else [[XSS_COMMAND; "-lock"]])
  /\ (simulate_user_activity env w).1 = Return tt
  /\ quiet w w2
  /\ spawned (trace w2) = spawned (trace w) ++ [[XSS_COMMAND; "-deactivate"]].
Proof.
  intros w1 w2. subst w1 w2.
  assert (L : (lock env w).1 = Return tt
              /\ quiet w (after lock env w)
              /\ spawned (trace (after lock env w))
                 = spawned (trace w)
                   ++ (if truthy (_locked (self w)) then []
                       else [[XSS_COMMAND; "-lock"]])).
  { unfold lock. unfold_m.
    destruct (truthy (_locked (self w))); cbn.
    - split; [reflexivity|]. split; [quiet_here | trace_done].
    - quiet_call. cbn. split; [reflexivity|]. split; [quiet_here | trace_done]. }
  destruct L as (L1 & L2 & L3).
  do 3 (split; [assumption|]).
  unfold simulate_user_activity. unfold_m. quiet_call. cbn.
  split; [reflexivity|]. split; [quiet_here | trace_done].
Qed.

(** X10. Reading the options twice in the same environment: the second
    read ends as the first did, with a return or, when the iteration over the
    file raises [UnicodeDecodeError] before a line has decided, with that
    error; it changes only the trace, emits nothing and touches no main-loop
    source.  A file-monitor event other than [CHANGES_DONE_HINT] and
    [DELETED] is ignored altogether. *)
Theorem reparse_is_idempotent e init env (w : World) (path : string) (old : Z) :
  _options_path (self w) = Some path ->
  _timeout (self w) = PyInt old ->
  is_event CHANGES_DONE_HINT e || is_event DELETED e || init = true ->
  let w1 := after (_read_timeout e init) env w in
  let w2 := after (_read_timeout e init) env w1 in
  (_read_timeout e init env w1).1 = (_read_timeout e init env w).1
  /\ (_read_timeout e init env w1).1
     = (if (is_event CHANGES_DONE_HINT e || init)
           && undecodable (env_open env path)
        then Raise UnicodeDecodeError else Return tt)
  /\ only_trace w1 w2
  /\ emitted (trace w2) = emitted (trace w1)
  /\ source_events (trace w2) = source_events (trace w1)
  /\ (forall e',
        is_event CHANGES_DONE_HINT e' || is_event DELETED e' = false ->
        _read_timeout e' false env w = (Return tt, w)).
Proof.
  intros Hpath Hold Hev w1 w2.
  assert (Hignored : forall e',
             is_event CHANGES_DONE_HINT e' || is_event DELETED e' = false ->
             _read_timeout e' false env w = (Return tt, w)).
  { intros e' He'. unfold _read_timeout. rewrite He'. reflexivity. }
  destruct ((is_event CHANGES_DONE_HINT e || init)
            && undecodable (env_open env path)) eqn:Hdec.
  { destruct (read_timeout_raises e init env w path Hpath Hdec) as (v1 & E1 & Q1).
    assert (Hw1 : w1 = v1) by (subst w1; unfold after; rewrite E1; reflexivity).
    assert (Hpath1 : _options_path (self w1) = Some path).
    { rewrite Hw1. destruct Q1 as ((Hs & _) & _). rewrite Hs. exact Hpath. }
    destruct (read_timeout_raises e init env w1 path Hpath1 Hdec)
      as (v2 & E2 & Q2).
    assert (Hw2 : w2 = v2) by (subst w2; unfold after; rewrite E2; reflexivity).
    rewrite E1, E2, Hw2. cbn [fst].
    destruct Q2 as (Ho & He & Hs).
    do 2 (split; [reflexivity|]).
    split; [exact Ho|]. split; [exact He|]. split; [exact Hs | exact Hignored]. }
  pose proof (read_timeout_spec e init env w path old Hpath Hold Hev Hdec) as H.
  cbv zeta in H. fold w1 in H.
  set (t := if is_event CHANGES_DONE_HINT e || init
            then spec_timeout (env_open env path) else 600) in *.
  destruct H as (R0 & _ & H).
  assert (H1 : _options_path (self w1) = Some path /\ _timeout (self w1) = PyInt t).
  { destruct (t =? old) eqn:E.
    - destruct H as ((Hs & _) & _). rewrite Hs.
      apply Z.eqb_eq in E. subst old. split; assumption.
    - destruct H as (Hs & _). rewrite Hs.
      destruct (_inhibit_id (self w)); cbn; split; auto. }
  destruct H1 as [Hpath1 Hold1].
  pose proof (read_timeout_spec e init env w1 path t Hpath1 Hold1 Hev Hdec) as H2.
  cbv zeta in H2. fold t w2 in H2. rewrite Z.eqb_refl in H2.
  destruct H2 as (R & Hemit & Hot & Hsrc).
  rewrite app_nil_r in Hemit.
  split; [rewrite R, R0; reflexivity|].
  do 4 (split; [assumption|]).
  exact Hignored.
Qed.

Lemma reparse_is_idempotent_witness :
  let w1 := after (_read_timeout (Some CHANGES_DONE_HINT) false)
              example_env_edited example_world in
  let w2 := after (_read_timeout (Some CHANGES_DONE_HINT) false)
              example_env_edited w1 in
  emitted (trace w1) = emitted (trace example_world) ++ [timeout_changed 600]
  /\ emitted (trace w2) = emitted (trace w1).
Proof.
  assert (H1 : _options_path (self example_world) = Some "/home/user/.xscreensaver")
    by (vm_compute; reflexivity).
  assert (H2 : _timeout (self example_world) = PyInt 330)
    by (vm_compute; reflexivity).
  assert (H3 : is_event CHANGES_DONE_HINT (Some CHANGES_DONE_HINT)
               || is_event DELETED (Some CHANGES_DONE_HINT) || false = true)
    by (vm_compute; reflexivity).
  pose proof (reparse_is_idempotent (Some CHANGES_DONE_HINT) false
                example_env_edited example_world _ _ H1 H2 H3)
    as (_ & _ & _ & H & _).
  split; [vm_compute; reflexivity | exact H].
Defined.

Lemma deactivate_spec env (w : World) :
  exists w',
    deactivate env w = (Return tt, w')
    /\ self w' = with_timeout PyNone (__init__ (negb (_manage_dpms (self w))))
    /\ next_source w' = next_source w
    /\ timers w'
       = match _watcher_id (self w) with
         | Some i => delete i
         | None => fun m => m
         end (match _inhibit_id (self w) with
              | Some i => delete i (timers w)
              | None => timers w
              end)
    /\ io_watches w'
       = match _watcher_id (self w) with
         | Some i => fun s => s ∖ {[ i ]}
         | None => fun s => s
         end (match _inhibit_id (self w) with
              | Some i => io_watches w ∖ {[ i ]}
              | None => io_watches w
              end)
    /\ emitted (trace w') = emitted (trace w)
    /\ spawned (trace w')
       = spawned (trace w)
         ++ match _screensaver (self w) with
            | Some p => if env_running env p then [[XSS_COMMAND; "-exit"]] else []
            | None => []
            end.
Proof.
  destruct w as [s n tm io tr].
  destruct s as [ss a asince l wt buf wid t path gfile mon monid dpms inh].
  unfold deactivate. unfold_m.
  destruct inh as [i|]; cbn; destruct mon; cbn; destruct wid as [j|]; cbn;
    destruct wt; cbn;
    (destruct ss as [p0|]; cbn;
     [destruct (env_running env p0); cbn;
      [quiet_call; cbn in *;
       match goal with E : _do_command _ _ _ = _ |- _ => clear E end|]|]);
    (eexists; split; [reflexivity|]; cbn;
     rewrite ?Hself, ?Hnext, ?Htimers, ?Hio; cbn;
     split; [destruct dpms; reflexivity|];
     do 3 (split; [reflexivity|]); split; trace_done).
Qed.

(** X11. On every reachable manager [deactivate] returns and puts the
    attributes back to those of a new manager, but for [_timeout], which is
    [None] and no longer [-1]; no timer is left, the watch on the watcher is
    removed, nothing is emitted, and [xscreensaver-command -exit] is run
    exactly when the daemon was started and still runs. *)
Theorem deactivate_resets (no_dpms : bool) (events : list (Env * op)) env :
  let w := run events (created no_dpms) in
  let w' := after deactivate env w in
  (deactivate env w).1 = Return tt
  /\ self w' = with_timeout PyNone (__init__ (negb (_manage_dpms (self w))))
  /\ timers w' = ∅
  /\ (forall id, _watcher_id (self w) = Some id -> id ∉ io_watches w')
  /\ emitted (trace w') = emitted (trace w)
  /\ spawned (trace w')
     = spawned (trace w)
       ++ match _screensaver (self w) with
          | Some p => if env_running env p then [[XSS_COMMAND; "-exit"]] else []
          | None => []
          end.
Proof.
  intros w w'.
  assert (Hok : timers_ok w) by (apply run_timers_ok, created_timers_ok).
  subst w'. unfold after.
  destruct (deactivate_spec env w) as (w1 & E & Hs & _ & Ht & Hio & Hem & Hsp).
  rewrite E. cbn.
  split; [reflexivity|]. split; [exact Hs|].
  split.
  { rewrite Ht. unfold timers_ok in Hok.
    assert (H0 : match _inhibit_id (self w) with
                 | Some i => delete i (timers w)
                 | None => timers w
                 end = ∅).
    { destruct (_inhibit_id (self w)).
      - apply delete_only_timer, Hok.
      - apply dom_empty_inv_L, Hok. }
    rewrite H0. destruct (_watcher_id (self w)); [apply delete_empty | reflexivity]. }
  split.
  { intros id Hid. rewrite Hio, Hid. apply not_elem_of_difference. right.
    apply elem_of_singleton. reflexivity. }
  split; assumption.
Qed.

Lemma initial_read_world env (w : World) (path : string) :
  _options_path (self w) = Some path ->
  _timeout (self w) = PyInt (-1) ->
  _inhibit_id (self w) = None ->
  undecodable (env_open env path) = false ->
  let t := spec_timeout (env_open env path) in
  exists w',
    _read_timeout None true env w = (Return tt, w')
    /\ self w' = with_timeout (PyInt t) (self w)
    /\ next_source w' = next_source w
    /\ timers w' = timers w
    /\ io_watches w' = io_watches w.
Proof.
  intros Hpath Hold Hnone Hdec t.
  destruct (computed_timeout_spec None true env w path Hpath) as (w1 & E & Q).
  change (is_event CHANGES_DONE_HINT None || true) with true in E.
  cbn [andb] in E. rewrite Hdec in E.
  cbn iota in E. fold t in E. quiet_facts Q.
  unfold _read_timeout.
  change (is_event CHANGES_DONE_HINT None || is_event DELETED None || true)
    with true.
  cbn iota. unfold mbind, M_bind.
  rewrite E. cbn. rewrite Hself, Hold.
  pose proof (spec_timeout_in_range (env_open env path)) as Hr. fold t in Hr.
  unfold differs. destruct (t =? -1) eqn:D; [apply Z.eqb_eq in D; lia|]. cbn.
  rewrite Hself, Hnone. cbn.
  eexists. split; [reflexivity|]. cbn. rewrite Hself, Hnext, Htimers, Hio.
  repeat split.
Qed.

(** X14. How [activate] ends, in every environment: [OSError] when the
    daemon cannot be started, [AttributeError] when the [-time] query gives
    no output, [UnicodeDecodeError] when its output is not UTF-8,
    [ValueError] when its output matches the pattern with a date that does
    not parse, [OSError] when the watcher cannot be started,
    [UnicodeDecodeError] when the iteration over the options file raises it
    before a line has decided, and a normal return in every other case. *)
Theorem activate_outcome env (w : World) :
  (activate env w).1
  = if negb (env_popen env [XSS; "-nosplash"]) then Raise OSError
    else if query_fails env then Raise AttributeError
    else
      let output := Text.strip_bytes (env_communicate env [XSS_COMMAND; "-time"]).2 in
      let read := if undecodable (env_open env (env_expanduser env XSS_OPTIONS))
                  then Raise UnicodeDecodeError else Return tt in
      let watch := if env_popen env [XSS_COMMAND; "-watch"]
                   then read else Raise OSError in
      match Text.decode output with
      | None => Raise UnicodeDecodeError
      | Some text =>
          match Text.search_screen_since text with
          | Some (_, date_str) =>
              match Strptime.strptime (Text.strip date_str) DATETIME_FORMAT with
              | Some _ => watch
              | None => Raise ValueError
              end
          | None => watch
          end
      end.
Proof.
  unfold query_fails, activate, _do_command. unfold_m.
  change (String.append "-" "time") with "-time".
  destruct (env_popen env [XSS; "-nosplash"]); cbn; [|reflexivity].
  destruct (env_popen env [XSS_COMMAND; "-time"]); cbn; [|reflexivity].
  destruct (env_communicate env [XSS_COMMAND; "-time"]) as [retcode out]. cbn.
  destruct (retcode <? 0); cbn; [reflexivity|].
  fold (Text.strip_bytes out).
  destruct (Text.decode (Text.strip_bytes out)) as [text|]; cbn; [|reflexivity].
  destruct (Text.search_screen_since text) as [[state date_str]|];
    cbn;
    [destruct (Strptime.strptime (Text.strip date_str) DATETIME_FORMAT); cbn;
     [|reflexivity]|];
    (destruct (env_popen env [XSS_COMMAND; "-watch"]); cbn; [|reflexivity];
     destruct (undecodable (env_open env (env_expanduser env XSS_OPTIONS)))
       eqn:Hdec;
     match goal with
     | |- context [_read_timeout None true env ?w0] =>
         first
           [ destruct (initial_read_spec env w0 (env_expanduser env XSS_OPTIONS)
                         eq_refl eq_refl Hdec) as (w1 & E & _ & _)
           | destruct (initial_read_raises env w0 (env_expanduser env XSS_OPTIONS)
                         eq_refl Hdec) as (w1 & E & _) ]
     end;
     rewrite E; reflexivity).
Qed.

#[global] Instance same_field_preorder {A} (f : XScreenSaverManager -> A) :
  PreOrder (same_field f).
Proof.
  split.
  - intros w. reflexivity.
  - intros a b c H1 H2. unfold same_field in *. congruence.
Qed.

Ltac field_side :=
  first [ exact _ | intros; unfold same_field; reflexivity ].

(** The options reader writes [_timeout] and, re-arming the timer,
    [_inhibit_id]; no other attribute. *)
Lemma read_timeout_field {A} (f : XScreenSaverManager -> A) e init :
  (forall v s, f (with_timeout v s) = f s) ->
  (forall v s, f (with_inhibit_id v s) = f s) ->
  keeps (same_field f) (_read_timeout e init).
Proof.
  intros Ht Hi. apply keeps_read_timeout; try field_side.
  - intros v w. unfold same_field. cbn. apply Hi.
  - intros v w. unfold same_field. cbn. apply Ht.
Qed.

(** X13. When the daemon, the [-time] query and the watcher start, the
    query output is UTF-8 and matches [screen <word> since <date>] with a
    date in the fixed format, and the options file gives a timeout,
    [activate] returns with [_active] true unless the word is [non-blanked],
    [_locked] true exactly for [locked], [_active_since] the date; the two
    processes, an empty read buffer, the watch and the options path are
    stored. *)
Theorem activate_reads_initial_state env (w : World) retcode out text state
    date_str since :
  env_popen env [XSS; "-nosplash"] = true ->
  env_popen env [XSS_COMMAND; "-time"] = true ->
  env_popen env [XSS_COMMAND; "-watch"] = true ->
  env_communicate env [XSS_COMMAND; "-time"] = (retcode, out) ->
  0 <= retcode ->
  Text.decode (Text.strip_bytes out) = Some text ->
  Text.search_screen_since text = Some (state, date_str) ->
  Strptime.strptime (Text.strip date_str) DATETIME_FORMAT = Some since ->
  undecodable (env_open env (env_expanduser env XSS_OPTIONS)) = false ->
  let w' := after activate env w in
  (activate env w).1 = Return tt
  /\ _active (self w') = Some (negb (Text.eqb state (Text.lit "non-blanked")))
  /\ _locked (self w') = Some (Text.eqb state (Text.lit "locked"))
  /\ _active_since (self w') = Some since
  /\ _screensaver (self w') = Some (Process [XSS; "-nosplash"])
  /\ _watcher (self w') = Some (Process [XSS_COMMAND; "-watch"])
  /\ _watcher_read_buf (self w') = Some []
  /\ _watcher_id (self w') = Some (next_source w)
  /\ _options_path (self w') = Some (env_expanduser env XSS_OPTIONS).
Proof.
  intros Hp1 Hp2 Hp3 Hc Hrc Htext Hsearch Hdate Hdec w'. subst w'.
  unfold activate, _do_command. unfold_m.
  change (String.append "-" "time") with "-time".
  rewrite Hp1. cbn. rewrite Hp2. cbn. rewrite Hc. cbn.
  destruct (retcode <? 0) eqn:R; [apply Z.ltb_lt in R; lia|]. cbn.
  fold (Text.strip_bytes out). rewrite Htext. cbn.
  rewrite Hsearch. cbn. rewrite Hdate. cbn. rewrite Hp3. cbn.
  match goal with
  | |- context [_read_timeout None true env ?w0] =>
      destruct (initial_read_spec env w0 (env_expanduser env XSS_OPTIONS)
                  eq_refl eq_refl Hdec) as (w1 & E & _ & _);
      pose proof (read_timeout_field _active None true
                    ltac:(reflexivity) ltac:(reflexivity) env w0) as F1;
      pose proof (read_timeout_field _locked None true
                    ltac:(reflexivity) ltac:(reflexivity) env w0) as F2;
      pose proof (read_timeout_field _active_since None true
                    ltac:(reflexivity) ltac:(reflexivity) env w0) as F3;
      pose proof (read_timeout_field _screensaver None true
                    ltac:(reflexivity) ltac:(reflexivity) env w0) as F4;
      pose proof (read_timeout_field _watcher None true
                    ltac:(reflexivity) ltac:(reflexivity) env w0) as F5;
      pose proof (read_timeout_field _watcher_read_buf None true
                    ltac:(reflexivity) ltac:(reflexivity) env w0) as F6;
      pose proof (read_timeout_field _watcher_id None true
                    ltac:(reflexivity) ltac:(reflexivity) env w0) as F7;
      pose proof (read_timeout_field _options_path None true
                    ltac:(reflexivity) ltac:(reflexivity) env w0) as F8
  end.
  unfold same_field in *. rewrite E in *. cbn in *.
  split; [reflexivity|].
  repeat (split; [assumption|]). assumption.
Qed.

Lemma activate_reads_initial_state_witness :
  (activate example_env (created false)).1 = Return tt
  /\ _active (self example_world) = Some false
  /\ _locked (self example_world) = Some false
  /\ _active_since (self example_world)
     = Some (Datetime.mk_datetime 2024 1 1 8 0 0 0)
  /\ _watcher_id (self example_world) = Some 1%nat.
Proof.
  assert (H1 : env_popen example_env [XSS; "-nosplash"] = true) by reflexivity.
  assert (H2 : env_popen example_env [XSS_COMMAND; "-time"] = true) by reflexivity.
  assert (H3 : env_popen example_env [XSS_COMMAND; "-watch"] = true) by reflexivity.
  assert (H4 : env_communicate example_env [XSS_COMMAND; "-time"]
               = (0, "XScreenSaver 5.15: screen non-blanked since Mon Jan  1 08:00:00 2024 (hack #1)"))
    by reflexivity.
  assert (H5 : 0 <= 0) by lia.
  assert (H6 : Text.decode
                 (Text.strip_bytes
                    "XScreenSaver 5.15: screen non-blanked since Mon Jan  1 08:00:00 2024 (hack #1)")
               = Some (Text.lit "XScreenSaver 5.15: screen non-blanked since Mon Jan  1 08:00:00 2024 (hack #1)"))
    by (vm_compute; reflexivity).
  assert (H7 : Text.search_screen_since
                 (Text.lit "XScreenSaver 5.15: screen non-blanked since Mon Jan  1 08:00:00 2024 (hack #1)")
               = Some (Text.lit "non-blanked", Text.lit "Mon Jan  1 08:00:00 2024 "))
    by (vm_compute; reflexivity).
  assert (H8 : Strptime.strptime (Text.strip (Text.lit "Mon Jan  1 08:00:00 2024 "))
                 DATETIME_FORMAT
               = Some (Datetime.mk_datetime 2024 1 1 8 0 0 0))
    by (vm_compute; reflexivity).
  assert (H9 : undecodable
                 (env_open example_env (env_expanduser example_env XSS_OPTIONS))
               = false) by (vm_compute; reflexivity).
  pose proof (activate_reads_initial_state example_env (created false)
                _ _ _ _ _ _ H1 H2 H3 H4 H5 H6 H7 H8 H9)
    as (R & Ha & Hl & Hs & _ & _ & _ & Hw & _).
  split; [exact R|]. split; [exact Ha|]. split; [exact Hl|].
  split; [exact Hs | exact Hw].
Defined.

Ltac idle_call :=
  idtac;
  first
    [ quiet_call
    | match goal with
      | |- context [_read_timeout None true ?env ?w0] =>
          let E := fresh "E" in
          let Hn := fresh "Hn" in
          let D := fresh "Hdec" in
          let Q := fresh "Q" in
          assert (Hn : _inhibit_id (self w0) = None)
            by (cbn; push_world; reflexivity);
          destruct (undecodable (env_open env (env_expanduser env XSS_OPTIONS)))
            eqn:D;
          [ destruct (initial_read_raises env w0 (env_expanduser env XSS_OPTIONS)
                        eq_refl D) as (? & E & ((? & ? & ? & ?) & _));
            rewrite E; clear E Hn
          | destruct (initial_read_world env w0 (env_expanduser env XSS_OPTIONS)
                        eq_refl eq_refl Hn D) as (? & E & ? & ? & ? & ?);
            rewrite E; clear E Hn ]
      end ].

(** An activation of a manager that holds no source registers at most the
    watch on the watcher, and remembers it. *)
Lemma activate_sources env (w : World) :
  _inhibit_id (self w) = None ->
  _watcher_id (self w) = None ->
  timers w = ∅ ->
  io_watches w = ∅ ->
  let w' := after activate env w in
  _inhibit_id (self w') = None
  /\ timers w' = ∅
  /\ io_watches w' = match _watcher_id (self w') with
                     | Some id => {[ id ]}
                     | None => ∅
                     end
  /\ _manage_dpms (self w') = _manage_dpms (self w).
Proof.
  destruct w as [s n tm io tr].
  destruct s as [ss a asince l wt buf wid t path gfile mon monid dpms inh].
  cbn. intros -> -> -> ->.
  unfold activate. unfold_m.
  exec_world idle_call;
    repeat split; rewrite ?union_empty_r_L; reflexivity.
Qed.

(** X12. [activate] followed by [deactivate] leaves a new manager as it
    was, but for [_timeout] being [None]: no timer and no watch remain,
    whether the activation returned or raised part-way. *)
Theorem activate_then_deactivate (no_dpms : bool) env env2 :
  let w := after deactivate env2 (after activate env (created no_dpms)) in
  self w = with_timeout PyNone (__init__ no_dpms)
  /\ timers w = ∅
  /\ io_watches w = ∅.
Proof.
  intros w. subst w.
  destruct (activate_sources env (created no_dpms) eq_refl eq_refl eq_refl eq_refl)
    as (Hi & Ht & Hio & Hd).
  set (w1 := after activate env (created no_dpms)) in *.
  clearbody w1. unfold after.
  destruct (deactivate_spec env2 w1) as (w2 & E & Hs & _ & Ht2 & Hio2 & _).
  rewrite E. cbn. rewrite Hs, Ht2, Hio2, Hi, Ht, Hio, Hd. cbn.
  rewrite negb_involutive.
  split; [reflexivity|].
  destruct (_watcher_id (self w1)) as [j|].
  - split; [apply delete_empty|]. apply difference_diag_L.
  - split; reflexivity.
Qed.

Lemma same_field_maintains_timeout_ok {A} (c : M A) :
  keeps (same_field _timeout) c -> keeps (maintains timeout_ok) c.
Proof.
  intros K env w Hok. specialize (K env w).
  unfold timeout_ok, same_field in *. rewrite K. exact Hok.
Qed.

Lemma inhibit_same_timeout : keeps (same_field _timeout) inhibit.
Proof. apply keeps_inhibit; field_side. Qed.

Lemma read_timeout_timeout_ok e init : keeps (maintains timeout_ok) (_read_timeout e init).
Proof.
  intros env w Hok. unfold _read_timeout.
  destruct (is_event CHANGES_DONE_HINT e || is_event DELETED e || init);
    [|exact Hok].
  unfold mbind, M_bind.
  pose proof (computed_timeout_in_range e init env w) as Hr.
  pose proof (computed_timeout_only_trace e init env w) as (Hs & _).
  destruct (computed_timeout e init env w) as [[t|x] w1]; cbn in *.
  - unfold timeout_ok in Hok. rewrite <- Hs in Hok.
    destruct (_timeout (self w1)) as [| |old] eqn:Hold; cbn.
    + unfold timeout_ok. cbn. rewrite Hold. exact I.
    + pose proof (inhibit_same_timeout env (update (with_timeout (PyInt t)) w1)) as F.
      unfold same_field in F. cbn in F.
      destruct (_inhibit_id (self w1)); cbn.
      * destruct (inhibit env (update (with_timeout (PyInt t)) w1)) as [[u|x] w2];
          cbn in *; unfold timeout_ok; cbn; rewrite F; lia.
      * lia.
    + destruct (negb (t =? old)); cbn.
      * pose proof (inhibit_same_timeout env (update (with_timeout (PyInt t)) w1)) as F.
        unfold same_field in F. cbn in F.
        destruct (_inhibit_id (self w1)); cbn.
        -- destruct (inhibit env (update (with_timeout (PyInt t)) w1)) as [[u|x] w2];
             cbn in *; unfold timeout_ok; cbn; rewrite F; lia.
        -- lia.
      * unfold timeout_ok. rewrite Hold. exact Hok.
  - unfold timeout_ok in *. rewrite Hs. exact Hok.
Qed.

Lemma read_from_watcher_same_timeout c : keeps (same_field _timeout) (_read_from_watcher c).
Proof.
  intros env w. unfold _read_from_watcher. unfold_m.
  exec_world timers_call; reflexivity.
Qed.

Lemma activate_timeout_ok : keeps (maintains timeout_ok) activate.
Proof.
  intros env w Hok. unfold activate. unfold_m.
  exec_world activate_call;
    unfold timeout_ok in *; cbn; push_world; cbn;
    first [ exact Hok
          | lia
          | match goal with
            | H : _timeout (self _) = PyInt (spec_timeout ?f) |- _ =>
                rewrite H; pose proof (spec_timeout_in_range f); lia
            end ].
Qed.

Lemma deactivate_timeout_ok : keeps (maintains timeout_ok) deactivate.
Proof.
  intros env w _. destruct (deactivate_spec env w) as (w' & E & Hs & _).
  rewrite E. unfold timeout_ok. cbn. rewrite Hs. exact I.
Qed.

Lemma perform_timeout_ok o : keeps (maintains timeout_ok) (perform o).
Proof.
  destruct o; simpl perform.
  - apply activate_timeout_ok.
  - apply deactivate_timeout_ok.
  - apply same_field_maintains_timeout_ok, keeps_ignore; [exact _|].
    apply read_from_watcher_same_timeout.
  - apply read_timeout_timeout_ok.
  - apply same_field_maintains_timeout_ok, keeps_ignore; [exact _|].
    apply keeps_active; exact _.
  - apply same_field_maintains_timeout_ok, keeps_set_active; field_side.
  - apply same_field_maintains_timeout_ok, keeps_ignore; [exact _|].
    apply keeps_active_time; exact _.
  - apply same_field_maintains_timeout_ok, keeps_ignore; [exact _|].
    apply keeps_timeout; exact _.
  - apply same_field_maintains_timeout_ok, keeps_lock; field_side.
  - apply same_field_maintains_timeout_ok, keeps_simulate_user_activity; field_side.
  - apply same_field_maintains_timeout_ok, inhibit_same_timeout.
  - apply same_field_maintains_timeout_ok, keeps_uninhibit; field_side.
  - apply same_field_maintains_timeout_ok, keeps_ignore; [exact _|].
    apply keeps_do_inhibit; field_side.
Qed.

Lemma run_timeout_ok events (w : World) : timeout_ok w -> timeout_ok (run events w).
Proof.
  revert w. induction events as [|[env o] events IH]; intros w Hok; simpl.
  - exact Hok.
  - apply IH, perform_timeout_ok, Hok.
Qed.

(** X15. On every reachable manager a stored integer timeout is the
    sentinel -1, which an activation leaves when its initial read raises, or
    between 0 and 86399 seconds; so the interval of the inhibition timer is
    between 20 and 86389 seconds and its milliseconds fit the 32 bits of
    [GLib.timeout_add]. *)
Theorem timeout_stays_within_a_day (no_dpms : bool) (events : list (Env * op)) :
  let w := run events (created no_dpms) in
  match _timeout (self w) with
  | PyInt t =>
      -1 <= t <= 86399
      /\ 20 <= interval_of t <= 86389
      /\ 0 < interval_of t * 1000 < 2 ^ 31
  | _ => True
  end.
Proof.
  intros w.
  assert (Hok : timeout_ok w) by (apply run_timeout_ok; exact I).
  unfold timeout_ok in Hok. destruct (_timeout (self w)) as [| |t]; try exact I.
  unfold interval_of. lia.
Qed.

#[global] Instance same_xset_preorder : PreOrder same_xset.
Proof.
  split.
  - intros w. split; reflexivity.
  - intros a b c [H1 H2] [H3 H4]. split; congruence.
Qed.

Lemma xset_calls_app (a b : list effect) :
  xset_calls (a ++ b) = xset_calls a ++ xset_calls b.
Proof. apply omap_app. Qed.

Ltac xset_side :=
  first
    [ exact _
    | intros; unfold same_xset; cbn; rewrite ?xset_calls_app; cbn;
      rewrite ?app_nil_r; split; reflexivity ].

Lemma same_xset_maintains {A} (c : M A) :
  keeps same_xset c -> keeps (maintains dpms_untouched) c.
Proof.
  intros K env w [Hm Hx]. destruct (K env w) as [Km Kx].
  split; congruence.
Qed.

(** Without power management [_set_dpms] does nothing. *)
Lemma set_dpms_disabled enable env (w : World) :
  _manage_dpms (self w) = false -> _set_dpms enable env w = (Return tt, w).
Proof. intros H. unfold _set_dpms. unfold_m. rewrite H. reflexivity. Qed.

Lemma do_inhibit_dpms_untouched : keeps (maintains dpms_untouched) _do_inhibit.
Proof.
  intros env w [Hm Hx]. unfold _do_inhibit. unfold_m.
  destruct (truthy (_locked (self w))); cbn.
  - split; [exact Hm|]. cbn. rewrite xset_calls_app, Hx. reflexivity.
  - pose proof (keeps_do_command same_xset ltac:(xset_side) ltac:(xset_side)
                  "deactivate" env (extend [Log DEBUG "Inhibiting"] w)) as [Km Kx].
    destruct (_do_command "deactivate" env (extend [Log DEBUG "Inhibiting"] w))
      as [[o|x] w1]; cbn in *.
    + rewrite set_dpms_disabled by congruence. cbn.
      split; [congruence|]. rewrite Kx, xset_calls_app, Hx. reflexivity.
    + split; [congruence|]. rewrite Kx, xset_calls_app, Hx. reflexivity.
Qed.

Lemma do_command_dpms_untouched cmd : keeps (maintains dpms_untouched) (_do_command cmd).
Proof. apply same_xset_maintains, keeps_do_command; xset_side. Qed.

Lemma computed_timeout_dpms_untouched e init :
  keeps (maintains dpms_untouched) (computed_timeout e init).
Proof. apply same_xset_maintains, keeps_computed_timeout; xset_side. Qed.

Lemma set_dpms_dpms_untouched enable : keeps (maintains dpms_untouched) (_set_dpms enable).
Proof.
  intros env w [Hm Hx]. rewrite set_dpms_disabled by exact Hm. split; assumption.
Qed.

(** Closes [dpms_untouched] of a world built from one of which it is
    known. *)
Ltac dpms_basic :=
  cbn; rewrite ?omap_app; cbn; rewrite ?app_nil_r;
  split; first [ assumption | congruence ].

Ltac dpms_leaf :=
  unfold maintains, dpms_untouched, xset_calls in *;
  repeat match goal with
         | H : _ /\ _ |- _ => destruct H
         end;
  repeat match goal with
         | F : ?P -> _ |- _ =>
             let H := fresh "H" in
             assert (H : P) by dpms_basic;
             specialize (F H); destruct F
         end;
  dpms_basic.

Ltac dpms_call_inner :=
  idtac;
  match goal with
  | |- context [_do_command ?cmd ?env ?w] =>
      call_with (do_command_dpms_untouched cmd) (_do_command cmd) env w
  | |- context [_set_dpms ?b ?env ?w] =>
      call_with (set_dpms_dpms_untouched b) (_set_dpms b) env w
  | |- context [computed_timeout ?e ?i ?env ?w] =>
      call_with (computed_timeout_dpms_untouched e i) (computed_timeout e i) env w
  | |- context [_do_inhibit ?env ?w] =>
      call_with do_inhibit_dpms_untouched _do_inhibit env w
  end.

Lemma inhibit_dpms_untouched : keeps (maintains dpms_untouched) inhibit.
Proof.
  intros env w Hok. unfold inhibit. unfold_m. exec dpms_call_inner; dpms_leaf.
Qed.

Lemma uninhibit_dpms_untouched : keeps (maintains dpms_untouched) uninhibit.
Proof.
  intros env w Hok. unfold uninhibit. unfold_m. exec dpms_call_inner; dpms_leaf.
Qed.

Ltac dpms_call :=
  idtac;
  first
    [ dpms_call_inner
    | match goal with
      | |- context [inhibit ?env ?w] =>
          call_with inhibit_dpms_untouched inhibit env w
      end ].

Lemma read_timeout_dpms_untouched e init :
  keeps (maintains dpms_untouched) (_read_timeout e init).
Proof.
  intros env w Hok. unfold _read_timeout. unfold_m. exec dpms_call; dpms_leaf.
Qed.

Lemma read_from_watcher_dpms_untouched c :
  keeps (maintains dpms_untouched) (_read_from_watcher c).
Proof.
  intros env w Hok. unfold _read_from_watcher. unfold_m. exec dpms_call; dpms_leaf.
Qed.

Lemma deactivate_dpms_untouched : keeps (maintains dpms_untouched) deactivate.
Proof.
  intros env w Hok. unfold deactivate. unfold_m. exec dpms_call; dpms_leaf.
Qed.

Ltac dpms_activation_call :=
  idtac;
  first
    [ dpms_call_inner
    | match goal with
      | |- context [_read_timeout ?e ?i ?env ?w] =>
          call_with (read_timeout_dpms_untouched e i) (_read_timeout e i) env w
      end ].

Lemma activate_dpms_untouched : keeps (maintains dpms_untouched) activate.
Proof.
  intros env w Hok. unfold activate. unfold_m. exec dpms_activation_call; dpms_leaf.
Qed.

Lemma perform_dpms_untouched o : keeps (maintains dpms_untouched) (perform o).
Proof.
  destruct o; simpl perform.
  - apply activate_dpms_untouched.
  - apply deactivate_dpms_untouched.
  - apply keeps_ignore; [exact _|]. apply read_from_watcher_dpms_untouched.
  - apply read_timeout_dpms_untouched.
  - apply same_xset_maintains, keeps_ignore; [exact _|].
    apply keeps_active; exact _.
  - apply same_xset_maintains, keeps_set_active; xset_side.
  - apply same_xset_maintains, keeps_ignore; [exact _|].
    apply keeps_active_time; exact _.
  - apply same_xset_maintains, keeps_ignore; [exact _|].
    apply keeps_timeout; exact _.
  - apply same_xset_maintains, keeps_lock; xset_side.
  - apply same_xset_maintains, keeps_simulate_user_activity; xset_side.
  - apply inhibit_dpms_untouched.
  - apply uninhibit_dpms_untouched.
  - apply keeps_ignore; [exact _|]. apply do_inhibit_dpms_untouched.
Qed.

(** X3. A manager created with [no_dpms] never runs [xset]: after any
    sequence of its methods and callbacks [_manage_dpms] is still false, no
    [xset] call was made, and [_set_dpms] is a no-op. *)
Theorem no_dpms_never_calls_xset (events : list (Env * op)) :
  let w := run events (created true) in
  _manage_dpms (self w) = false
  /\ xset_calls (trace w) = []
  /\ forall enable env, _set_dpms enable env w = (Return tt, w).
Proof.
  intros w.
  assert (Hok : dpms_untouched w).
  { subst w. generalize (created true), (conj eq_refl eq_refl : dpms_untouched (created true)).
    induction events as [|[env o] events IH]; intros w Hok; simpl.
    - exact Hok.
    - apply IH, perform_dpms_untouched, Hok. }
  destruct Hok as [Hm Hx]. split; [exact Hm|]. split; [exact Hx|].
  intros enable env. apply set_dpms_disabled, Hm.
Qed.

(** * The settings manager *)

Section gsettings.
Import GSettingsManager.

Lemma dict_get_set_eq {V} (k : string) (v : V) d : dict_get k (dict_set k v d) = Some v.
Proof.
  induction d as [|[k' v'] d IH]; simpl.
  - rewrite String.eqb_refl. reflexivity.
  - destruct (String.eqb k' k) eqn:E; simpl; rewrite E; [reflexivity | exact IH].
Qed.

Lemma dict_get_set_ne {V} (k k' : string) (v : V) d :
  k <> k' -> dict_get k' (dict_set k v d) = dict_get k' d.
Proof.
  intros Hne. induction d as [|[k0 v0] d IH]; simpl.
  - apply String.eqb_neq in Hne. rewrite Hne. reflexivity.
  - destruct (String.eqb k0 k) eqn:E; simpl.
    + apply String.eqb_eq in E. subst k0.
      apply String.eqb_neq in Hne. rewrite Hne. reflexivity.
    + rewrite IH. reflexivity.
Qed.

Lemma dict_get_None {V} (k : string) (d : list (string * V)) :
  dict_get k d = None <-> k ∉ d.*1.
Proof.
  induction d as [|[k0 v0] d IH]; simpl.
  - split; [intros _; apply not_elem_of_nil | reflexivity].
  - rewrite not_elem_of_cons. destruct (String.eqb k0 k) eqn:E.
    + apply String.eqb_eq in E. subst. split; [discriminate | intros [H _]; congruence].
    + apply String.eqb_neq in E. rewrite IH.
      split; [intros H; split; [congruence | exact H] | tauto].
Qed.

Lemma dict_get_elem_of {V} (k : string) (v : V) d :
  dict_get k d = Some v -> (k, v) ∈ d.
Proof.
  induction d as [|[k0 v0] d IH]; simpl; [discriminate|].
  destruct (String.eqb k0 k) eqn:E.
  - apply String.eqb_eq in E. intros [= ->]. subst. left.
  - intros H. right. apply IH, H.
Qed.

Lemma dict_get_NoDup {V} (k : string) (v : V) d :
  NoDup d.*1 -> (k, v) ∈ d -> dict_get k d = Some v.
Proof.
  induction d as [|[k0 v0] d IH]; simpl; intros Hnd Hin.
  - apply elem_of_nil in Hin. destruct Hin.
  - apply NoDup_cons in Hnd as [Hk Hnd].
    apply elem_of_cons in Hin as [[= -> ->]|Hin].
    + rewrite String.eqb_refl. reflexivity.
    + destruct (String.eqb k0 k) eqn:E; [|apply IH; assumption].
      apply String.eqb_eq in E. subst k0. exfalso. apply Hk.
      apply list_elem_of_fmap. exists (k, v). split; [reflexivity | exact Hin].
Qed.

Lemma dict_set_absent {V} (k : string) (v : V) d :
  dict_get k d = None -> dict_set k v d = d ++ [(k, v)].
Proof.
  induction d as [|[k0 v0] d IH]; simpl; [reflexivity|].
  destruct (String.eqb k0 k); [discriminate|]. intros H. rewrite IH by exact H.
  reflexivity.
Qed.

Lemma dict_set_keys {V} (k : string) (v e : V) d :
  dict_get k d = Some e -> (dict_set k v d).*1 = d.*1.
Proof.
  induction d as [|[k0 v0] d IH]; simpl; [discriminate|].
  destruct (String.eqb k0 k) eqn:E; simpl; [reflexivity|].
  intros H. f_equal. apply IH, H.
Qed.

(** The handler of an entry does not depend on its saved value. *)
Lemma dict_set_handlers (k : string) (v : option Z) (e : saved) d :
  dict_get k d = Some e ->
  handler_of <$> dict_set k (mk_saved v (handler_id e)) d = handler_of <$> d.
Proof.
  induction d as [|[k0 v0] d IH]; simpl; [discriminate|].
  destruct (String.eqb k0 k) eqn:E; simpl.
  - intros [= ->]. reflexivity.
  - intros H. f_equal. apply IH, H.
Qed.

Lemma setting_schema_known key info :
  dict_get key SETTINGS = Some info ->
  existsb (String.eqb (schema info))
    [SCHEMA_SCREENSAVER; SCHEMA_SESSION; SCHEMA_POWER] = true
  /\ marshal (type info) (Some (clamp info)) = mret (clamp info).
Proof.
  unfold SETTINGS. cbn [dict_get].
  repeat match goal with
         | |- context [String.eqb ?a key] =>
             destruct (String.eqb a key);
             [intros [= <-]; split; reflexivity|]
         end.
  discriminate.
Qed.

Lemma marshal_fits ty z :
  fits ty z = true -> marshal ty (Some z) = mret z.
Proof.
  destruct ty; simpl; intros H.
  - apply orb_prop in H as [H|H]; apply Z.eqb_eq in H; subst; reflexivity.
  - rewrite H. reflexivity.
  - rewrite H. reflexivity.
Qed.

Lemma dict_set_twice {V} (k : string) (v v' : V) d :
  dict_set k v' (dict_set k v d) = dict_set k v' d.
Proof.
  induction d as [|[k0 v0] d IH]; simpl.
  - rewrite String.eqb_refl. reflexivity.
  - destruct (String.eqb k0 k) eqn:E; simpl; rewrite E; [reflexivity|].
    f_equal. exact IH.
Qed.

Lemma dict_get_app_absent {V} (k k' : string) (v : V) d :
  dict_get k d = None ->
  dict_get k' (d ++ [(k, v)]) = if String.eqb k k' then Some v else dict_get k' d.
Proof.
  intros H. rewrite <- (dict_set_absent k v d H).
  destruct (String.eqb k k') eqn:E.
  - apply String.eqb_eq in E. subst. apply dict_get_set_eq.
  - apply String.eqb_neq in E. apply dict_get_set_ne, E.
Qed.

#[local] Arguments dict_get : simpl never.
#[local] Arguments dict_set : simpl never.
#[local] Arguments notify : simpl never.
#[local] Arguments _changed : simpl never.
#[local] Arguments _set_setting : simpl never.

Ltac unfold_method :=
  unfold mbind, Method_bind, mret, Method_ret, read, modify, throw, then_.

Lemma changed_spec key init (w : world) info gs d e v :
  dict_get key SETTINGS = Some info ->
  _gsettings (self w) = Some gs ->
  existsb (String.eqb (schema info)) gs = true ->
  _saved (self w) = Some d ->
  dict_get key d = Some e ->
  store w !! (schema info, key) = Some v ->
  _changed key init w
  = (Returns tt,
     mk_world
       (mk (Some gs) (Some (dict_set key (mk_saved (Some v) (handler_id e)) d)))
       (store w) (handlers w) (blocked w) (next_handler w)
       (idle w ++ (if v =? clamp info then [] else [(key, clamp info)]))
       (trace w
        ++ [Log DEBUG (if init then "Saving initial value %s for %s.%s"
                       else "%s.%s changed to %s")])).
Proof.
  intros Hk Hg Hs Hd He Hv.
  unfold _changed, _get_setting, setting, gsettings_of, get_value, saved_of,
    log, idle_add.
  unfold_method. rewrite Hk. cbn. rewrite Hg, Hs. cbn. rewrite Hv.
  destruct init; cbn; rewrite Hd, He; cbn;
    destruct (v =? clamp info); cbn; unfold with_self, with_idle; cbn;
    rewrite Hg, Hd, ?app_nil_r; reflexivity.
Qed.

(** A signal whose handlers are all blocked calls nothing. *)
Lemma notify_blocked s k (w : world) :
  (forall id, (id, (s, k)) ∈ handlers w -> id ∈ blocked w) ->
  notify s k w = (Returns tt, w).
Proof.
  unfold notify. intros H. f_equal.
  generalize dependent (handlers w). intros hs.
  induction hs as [|[id [s' k']] hs IH]; intros H; simpl; [reflexivity|].
  destruct (String.eqb s' s) eqn:Es; simpl; [|apply IH; intros; apply H; right; assumption].
  destruct (String.eqb k' k) eqn:Ek; simpl; [|apply IH; intros; apply H; right; assumption].
  apply String.eqb_eq in Es, Ek. subst.
  rewrite bool_decide_eq_true_2 by (apply H; left). simpl.
  apply IH. intros. apply H. right. assumption.
Qed.

Lemma set_setting_spec env key z ret (w : world) info gs d e old :
  dict_get key SETTINGS = Some info ->
  _gsettings (self w) = Some gs ->
  existsb (String.eqb (schema info)) gs = true ->
  _saved (self w) = Some d ->
  dict_get key d = Some e ->
  store w !! (schema info, key) = Some old ->
  marshal (type info) (Some z) = mret z ->
  blocked w = ∅ ->
  (forall id, (id, (schema info, key)) ∈ handlers w -> id = handler_id e) ->
  exists tr,
    _set_setting env key (Some z) ret w
    = (Returns (default (writable env (schema info) key) ret),
       mk_world (self w)
         (if writable env (schema info) key
          then <[ (schema info, key) := z ]> (store w) else store w)
         (handlers w) ∅ (next_handler w) (idle w) (trace w ++ tr)).
Proof.
  intros Hk Hg Hs Hd He Hv Hm Hb Hh.
  unfold _set_setting, setting, gsettings_of, saved_of, log, handler_block,
    handler_unblock, set_value.
  unfold_method. rewrite Hk. cbn. rewrite Hg, Hs. cbn. rewrite Hd, He. cbn.
  rewrite Hm. unfold_method. cbn.
  rewrite Hv. unfold with_blocked, with_store. cbn. rewrite Hb.
  assert (Hset : ({[handler_id e]} ∪ ∅) ∖ {[handler_id e]} = (∅ : gset nat)).
  { rewrite union_empty_r_L. apply difference_diag_L. }
  destruct (writable env (schema info) key) eqn:W; cbn.
  - rewrite notify_blocked.
    2:{ cbn. intros id Hin. apply Hh in Hin. subst id.
        apply elem_of_union_l, elem_of_singleton. reflexivity. }
    cbn. rewrite Hset, <- !app_assoc. eexists. destruct ret; reflexivity.
  - rewrite Hset, <- !app_assoc. eexists. destruct ret; reflexivity.
Qed.

Lemma schema_of_setting key info :
  dict_get key SETTINGS = Some info -> schema_of key = schema info.
Proof. intros H. unfold schema_of. rewrite H. reflexivity. Qed.

Lemma gsettings_of_spec schema (w : world) gs :
  _gsettings (self w) = Some gs ->
  existsb (String.eqb schema) gs = true ->
  gsettings_of schema w = (Returns schema, w).
Proof.
  intros Hg Hs. unfold gsettings_of. unfold_method. rewrite Hg, Hs. reflexivity.
Qed.

#[local] Arguments gsettings_of : simpl never.

Lemma listen_consistent env db done d (w : world) key info :
  consistent env db done d w ->
  key ∉ done ->
  dict_get key SETTINGS = Some info ->
  exists d' w',
    listen (key, info) w = (Returns tt, w')
    /\ consistent env db (key :: done) d' w'
    /\ store w' = store w.
Proof.
  intros (G & S & H & ND & E1 & E3 & B & St & T & Q & P) Hnew Hk.
  destruct (setting_schema_known key info Hk) as [Hs _].
  assert (Hstore : store w !! (schema info, key) = db !! (schema info, key)).
  { destruct (St (schema info) key) as [E|(i & _ & _ & Hd & _)]; [exact E|].
    contradiction. }
  assert (Habs : dict_get key d = None).
  { destruct (dict_get key d) as [e|] eqn:E; [|reflexivity].
    destruct (E1 key e E) as [Hd _]. contradiction. }
  unfold listen. unfold_method.
  rewrite (gsettings_of_spec _ _ _ G Hs). cbn.
  rewrite Hstore.
  destruct (db !! (schema info, key)) as [v|] eqn:Hv.
  - rewrite bool_decide_eq_true_2 by (eexists; reflexivity).
    unfold log, connect. unfold_method. cbn. rewrite S. cbn.
    rewrite (dict_set_absent _ _ _ Habs).
    erewrite (changed_spec key true _ info _ _ (mk_saved None (next_handler w)) v);
      [| exact Hk | cbn; rewrite G; reflexivity | exact Hs | cbn; reflexivity
       | rewrite dict_get_app_absent by exact Habs;
         rewrite String.eqb_refl; reflexivity
       | cbn; rewrite Hstore; reflexivity ].
    cbn. rewrite <- (dict_set_absent _ (mk_saved None (next_handler w)) _ Habs).
    rewrite dict_set_twice, (dict_set_absent _ _ _ Habs).
    eexists _, _. split; [reflexivity|]. split; [|reflexivity].
    unfold consistent. cbn.
    split; [reflexivity|]. split; [reflexivity|].
    split.
    { rewrite H, fmap_app. cbn. unfold handler_of at 3. cbn.
      rewrite (schema_of_setting _ _ Hk). reflexivity. }
    split.
    { rewrite fmap_app. cbn. apply NoDup_app. split; [exact ND|].
      split; [|apply NoDup_singleton].
      intros x Hx Hx'. apply list_elem_of_singleton in Hx'. subst x.
      apply dict_get_None in Habs. contradiction. }
    split.
    { intros k e. rewrite dict_get_app_absent by exact Habs.
      destruct (String.eqb key k) eqn:Ek.
      - apply String.eqb_eq in Ek. subst k. intros [= <-].
        split; [left|]. exists info, v. cbn. repeat split; assumption.
      - intros He. destruct (E1 k e He) as [Hd Hrest]. split; [right; exact Hd|].
        exact Hrest. }
    split.
    { intros k i Hd Hi Hsome. rewrite dict_get_app_absent by exact Habs.
      destruct (String.eqb key k) eqn:Ek; [eexists; reflexivity|].
      apply String.eqb_neq in Ek.
      apply elem_of_cons in Hd as [->|Hd]; [congruence|].
      apply (E3 k i Hd Hi Hsome). }
    split; [exact B|].
    split.
    { intros s k. destruct (St s k) as [E|(i & Hi & Hsi & Hd & Hrest)].
      - left. exact E.
      - right. exists i. split; [exact Hi|]. split; [exact Hsi|].
        split; [right; exact Hd | exact Hrest]. }
    split; [exact T|].
    split.
    { apply Forall_app. split.
      - eapply Forall_impl; [exact Q|]. intros [k z] (i & Hi & Hz & Hsome).
        exists i. split; [exact Hi|]. split; [exact Hz|].
        rewrite dict_get_app_absent by exact Habs.
        destruct (String.eqb key k); [eexists; reflexivity | exact Hsome].
      - destruct (v =? clamp info); [apply Forall_nil_2|].
        apply Forall_singleton. exists info. split; [exact Hk|].
        split; [reflexivity|]. rewrite dict_get_app_absent by exact Habs.
        rewrite String.eqb_refl. eexists; reflexivity. }
    intros k i v0 Hd Hi Hv0.
    apply elem_of_cons in Hd as [->|Hd].
    + assert (i = info) by congruence. subst i.
      assert (v0 = v) by congruence. subst v0.
      destruct (v =? clamp info) eqn:Ec.
      * left. apply Z.eqb_eq, Ec.
      * right. right. left. apply elem_of_app. right. left.
    + destruct (P k i v0 Hd Hi Hv0) as [Hc|[Hc|[Hc|Hc]]]; auto.
      right. right. left. apply elem_of_app. left. exact Hc.
  - rewrite bool_decide_eq_false_2 by (intros [x Hx]; discriminate).
    unfold log. unfold_method. eexists d, _. split; [reflexivity|].
    split; [|reflexivity].
    unfold consistent. cbn.
    split; [exact G|]. split; [exact S|]. split; [exact H|]. split; [exact ND|].
    split.
    { intros k e He. destruct (E1 k e He) as [Hd Hrest]. split; [right; exact Hd|].
      exact Hrest. }
    split.
    { intros k i Hd Hi Hsome.
      apply elem_of_cons in Hd as [->|Hd]; [|apply (E3 k i Hd Hi Hsome)].
      assert (i = info) by congruence. subst i. rewrite Hv in Hsome.
      destruct Hsome as [x Hx]. discriminate. }
    split; [exact B|].
    split.
    { intros s k. destruct (St s k) as [E|(i & Hi & Hsi & Hd & Hrest)].
      - left. exact E.
      - right. exists i. split; [exact Hi|]. split; [exact Hsi|].
        split; [right; exact Hd | exact Hrest]. }
    split; [exact T|]. split; [exact Q|].
    intros k i v0 Hd Hi Hv0.
    apply elem_of_cons in Hd as [->|Hd]; [|apply (P k i v0 Hd Hi Hv0)].
    assert (i = info) by congruence. subst i. congruence.
Qed.

Ltac closed_bool :=
  repeat match goal with
         | |- context [existsb (String.eqb ?a) ?l] =>
             let b := eval vm_compute in (existsb (String.eqb a) l) in
             change (existsb (String.eqb a) l) with b
         end.

Lemma activate_consistent env db :
  installed env SCHEMA_SCREENSAVER = true ->
  installed env SCHEMA_SESSION = true ->
  installed env SCHEMA_POWER = true ->
  typed db ->
  exists d w',
    activate env (created db) = (Returns tt, w')
    /\ consistent env db (rev SETTINGS.*1) d w'
    /\ store w' = db.
Proof.
  intros I1 I2 I3 T.
  unfold activate, created.
  unfold mbind at 1 2 3. unfold Method_bind at 1 2 3.
  unfold modify at 1 2. cbn [with_self self store handlers blocked next_handler idle trace _gsettings _saved].
  assert (L1 : forall s,
    for_each SETTINGS (create_settings env)
      (mk_world (mk (Some []) s) db [] ∅ 1 [] [])
    = (Returns tt,
       mk_world (mk (Some [SCHEMA_SCREENSAVER; SCHEMA_SESSION; SCHEMA_POWER]) s)
         db [] ∅ 1 [] [])).
  { intros s. unfold SETTINGS, for_each, create_settings, new_settings.
    unfold_method. cbn [schema self _gsettings with_self _saved store handlers
                          blocked next_handler idle trace app].
    closed_bool. cbn [negb]. rewrite I1.
    cbn [schema self _gsettings with_self _saved store handlers
           blocked next_handler idle trace app].
    closed_bool. cbn [negb]. rewrite I2.
    cbn [schema self _gsettings with_self _saved store handlers
           blocked next_handler idle trace app].
    closed_bool. cbn [negb]. rewrite I3.
    cbn [schema self _gsettings with_self _saved store handlers
           blocked next_handler idle trace app].
    closed_bool. cbn [negb]. reflexivity. }
  unfold with_self, __init__.
  cbn [self _gsettings _saved store handlers blocked next_handler idle trace].
  rewrite L1.
  cbn [self _gsettings _saved store handlers blocked next_handler idle trace].
  set (w1 := mk_world _ db [] ∅ 1%nat [] []).
  assert (C0 : consistent env db [] [] w1).
  { unfold consistent, w1. cbn.
    split; [reflexivity|]. split; [reflexivity|]. split; [reflexivity|].
    split; [apply NoDup_nil_2|].
    split; [intros k e He; discriminate He|].
    split; [intros k i Hd; apply elem_of_nil in Hd; destruct Hd|].
    split; [reflexivity|].
    split; [intros s k; left; reflexivity|].
    split; [exact T|].
    split; [apply Forall_nil_2|].
    intros k i v Hd. apply elem_of_nil in Hd. destruct Hd. }
  assert (S0 : store w1 = db) by reflexivity.
  clearbody w1.
  unfold SETTINGS. cbn [for_each]. unfold_method.
  do 4 (match goal with
        | C : consistent env db _ _ ?w |- context [listen (?k, ?i) ?w] =>
            let E := fresh "E" in
            let C' := fresh "C" in
            let S' := fresh "S" in
            destruct (listen_consistent env db _ _ w k i C)
              as (? & ? & E & C' & S');
            [ rewrite ?not_elem_of_cons; repeat split; try discriminate;
              apply not_elem_of_nil
            | reflexivity
            | rewrite E; clear E C ]
        end).
  eexists _, _. split; [reflexivity|]. split; [eassumption|]. congruence.
Qed.

Lemma handler_unique (d : list (string * saved)) k e id info :
  NoDup d.*1 ->
  dict_get k d = Some e ->
  dict_get k SETTINGS = Some info ->
  (id, (schema info, k)) ∈ handler_of <$> d ->
  id = handler_id e.
Proof.
  intros ND He Hk Hin.
  apply list_elem_of_fmap in Hin as ([k' e'] & Heq & Hin).
  unfold handler_of in Heq. cbn in Heq. injection Heq as -> _ ->.
  apply (dict_get_NoDup _ _ _ ND) in Hin. congruence.
Qed.

Lemma idle_consistent env db done d (w : world) :
  consistent env db done d w ->
  consistent env db done d (step env Idle w).
Proof.
  intros (G & S & H & ND & E1 & E3 & B & St & T & Q & P).
  unfold step. destruct (idle w) as [|[k z] q] eqn:Hq.
  { unfold consistent. rewrite Hq. repeat (split; [assumption|]). exact P. }
  apply Forall_cons in Q as [(info & Hk & -> & [e He]) Q].
  destruct (E1 k e He) as (Hd & info' & v & Hk' & Hv & Hval).
  assert (info' = info) by congruence. subst info'.
  destruct (setting_schema_known k info Hk) as [Hs Hm].
  assert (Hold : exists old, store w !! (schema info, k) = Some old).
  { destruct (St (schema info) k) as [E|(i & _ & _ & _ & _ & _ & E)];
      rewrite E; eauto. }
  destruct Hold as [old Hold].
  unfold then_.
  destruct (set_setting_spec env k (clamp info) (Some false)
              (with_idle (fun _ => q) w) info _ d e old Hk G Hs S He Hold Hm B)
    as [tr E].
  { cbn. rewrite H. intros id Hin. eapply handler_unique; eassumption. }
  rewrite E. clear E. cbn.
  unfold consistent. cbn.
  do 6 (split; [assumption|]). split; [reflexivity|].
  split.
  { intros s k0. destruct (writable env (schema info) k) eqn:W; [|apply St].
    destruct (decide ((s, k0) = (schema info, k))) as [[= -> ->]|Hne].
    - right. exists info. rewrite lookup_insert_eq.
      repeat split; try assumption; try reflexivity. rewrite Hv. eauto.
    - rewrite lookup_insert_ne by congruence. apply St. }
  split; [exact T|]. split; [exact Q|].
  intros k0 i v0 Hd0 Hi Hv0.
  destruct (P k0 i v0 Hd0 Hi Hv0) as [Hc|[Hc|[Hc|Hc]]]; auto.
  - right. left. destruct (writable env (schema info) k) eqn:W; [|exact Hc].
    destruct (decide ((schema i, k0) = (schema info, k))) as [Heq|Hne].
    + injection Heq as Hsch ->. assert (i = info) by congruence. subst i.
      apply lookup_insert_eq.
    + rewrite lookup_insert_ne by congruence. exact Hc.
  - apply elem_of_cons in Hc as [[= -> Hz]|Hc]; [|auto].
    assert (i = info) by congruence. subst i.
    destruct (writable env (schema info) k) eqn:W; [|auto].
    right. left. apply lookup_insert_eq.
Qed.

(** The handlers of the other keys are not called. *)
Lemma notify_fold_other s k (d : list (string * saved)) (w : world) :
  k ∉ d.*1 ->
  fold_left
    (fun w '(id, (s', k')) =>
       if String.eqb s' s && String.eqb k' k && negb (bool_decide (id ∈ blocked w))
       then then_ (_changed k' false) w
       else w)
    (handler_of <$> d) w
  = w.
Proof.
  revert w. induction d as [|[k0 e0] d IH]; intros w Hk; [reflexivity|].
  cbn in Hk. apply not_elem_of_cons in Hk as [Hne Hk].
  cbn. assert (E : String.eqb k0 k = false) by (apply String.eqb_neq; congruence).
  rewrite E, andb_false_r. cbn. apply IH, Hk.
Qed.

(** A change of a key calls the handler of its entry, once. *)
Lemma notify_spec s k (d : list (string * saved)) (w : world) :
  handlers w = handler_of <$> d ->
  NoDup d.*1 ->
  blocked w = ∅ ->
  notify s k w
  = (Returns tt,
     match dict_get k d with
     | Some _ => if String.eqb (schema_of k) s then then_ (_changed k false) w else w
     | None => w
     end).
Proof.
  intros H ND B. unfold notify. f_equal. rewrite H. clear H.
  revert ND. induction d as [|[k0 e0] d IH]; intros ND; [reflexivity|].
  cbn in ND. apply NoDup_cons in ND as [Hk0 ND].
  cbn [fmap list_fmap fold_left handler_of fst snd].
  change (list_fmap _ _ handler_of d) with (handler_of <$> d).
  destruct (String.eqb k0 k) eqn:E.
  - apply String.eqb_eq in E. subst k0.
    assert (Hget : dict_get k ((k, e0) :: d) = Some e0).
    { unfold dict_get. rewrite String.eqb_refl. reflexivity. }
    rewrite Hget, andb_true_r, B.
    rewrite bool_decide_eq_false_2 by apply not_elem_of_empty.
    rewrite andb_true_r.
    destruct (String.eqb (schema_of k) s); apply notify_fold_other, Hk0.
  - rewrite andb_false_r. cbn [andb].
    assert (Hget : dict_get k ((k0, e0) :: d) = dict_get k d).
    { unfold dict_get at 1. rewrite E. reflexivity. }
    rewrite Hget. apply IH, ND.
Qed.

Lemma changed_db_lookup (s k : string) (z : Z) (db : gmap (string * string) Z)
    (s' k' : string) :
  changed_db s k z db !! (s', k')
  = if bool_decide ((s', k') = (s, k))
    then match db !! (s, k) with Some _ => Some z | None => None end
    else db !! (s', k').
Proof.
  unfold changed_db.
  destruct (decide ((s', k') = (s, k))) as [[= -> ->]|Hne].
  - rewrite bool_decide_eq_true_2 by reflexivity.
    destruct (db !! (s, k)) eqn:E; [apply lookup_insert_eq | exact E].
  - rewrite bool_decide_eq_false_2 by exact Hne.
    destruct (db !! (s, k)); [apply lookup_insert_ne; congruence | reflexivity].
Qed.

Lemma changed_consistent env db done d (w : world) s k z :
  consistent env db done d w ->
  typed_event (Changed s k z) ->
  exists d', consistent env (changed_db s k z db) done d' (step env (Changed s k z) w).
Proof.
  intros (G & S & H & ND & E1 & E3 & B & St & T & Q & P) Hz.
  unfold step, then_.
  rewrite (notify_spec s k d) by assumption. unfold then_.
  assert (Hsame : forall s' k',
            is_Some (store w !! (s', k')) <-> is_Some (db !! (s', k'))).
  { intros s' k'. destruct (St s' k') as [E|(i & _ & _ & _ & Hsome & _ & E)].
    - rewrite E. reflexivity.
    - rewrite E. split; [intros _; exact Hsome | eauto]. }
  assert (Hst : forall s' k',
            with_store (changed_db s k z) w = with_store (changed_db s k z) w ->
            changed_db s k z (store w) !! (s', k') = changed_db s k z db !! (s', k')
            \/ exists info,
                 dict_get k' SETTINGS = Some info /\ schema info = s' /\ k' ∈ done
                 /\ is_Some (changed_db s k z db !! (s', k'))
                 /\ writable env s' k' = true
                 /\ changed_db s k z (store w) !! (s', k') = Some (clamp info)).
  { intros s' k' _. rewrite !changed_db_lookup.
    destruct (bool_decide ((s', k') = (s, k))) eqn:D.
    - left. pose proof (Hsame s k) as Hss.
      destruct (store w !! (s, k)), (db !! (s, k)); try reflexivity;
        exfalso; [apply proj1 in Hss | apply proj2 in Hss];
        destruct Hss as [x Hx]; eauto; discriminate.
    - apply St. }
  set (managed := match dict_get k d with
                  | Some _ => String.eqb (schema_of k) s
                  | None => false
                  end).
  destruct managed eqn:M; subst managed.
  - (* the key is listened to *)
    destruct (dict_get k d) as [e|] eqn:He; [|discriminate].
    rewrite M. apply String.eqb_eq in M.
    destruct (E1 k e He) as (Hd & info & v & Hk & Hv & Hval).
    rewrite (schema_of_setting _ _ Hk) in M. subst s.
    destruct (setting_schema_known k info Hk) as [Hs _].
    assert (Hnew : store (with_store (changed_db (schema info) k z) w)
                     !! (schema info, k) = Some z).
    { cbn. rewrite changed_db_lookup, bool_decide_eq_true_2 by reflexivity.
      destruct (proj2 (Hsame (schema info) k)) as [x Hx]; [eauto|].
      rewrite Hx. reflexivity. }
    rewrite (changed_spec k false (with_store (changed_db (schema info) k z) w)
               info _ d e z Hk G Hs S He Hnew). cbn.
    eexists. unfold consistent. cbn.
    split; [reflexivity|]. split; [reflexivity|].
    split; [rewrite dict_set_handlers by exact He; exact H|].
    split; [rewrite (dict_set_keys _ _ _ _ He); exact ND|].
    split.
    { intros k0 e0. destruct (decide (k = k0)) as [<-|Hne].
      - rewrite dict_get_set_eq. intros [= <-]. split; [exact Hd|].
        exists info, z. cbn. split; [exact Hk|]. split; [|reflexivity].
        rewrite changed_db_lookup, bool_decide_eq_true_2 by reflexivity.
        rewrite Hv. reflexivity.
      - rewrite dict_get_set_ne by exact Hne. intros He0.
        destruct (E1 k0 e0 He0) as (Hd0 & i0 & v0 & Hk0 & Hv0 & Hval0).
        split; [exact Hd0|]. exists i0, v0. split; [exact Hk0|].
        split; [|exact Hval0].
        rewrite changed_db_lookup, bool_decide_eq_false_2 by congruence.
        exact Hv0. }
    split.
    { intros k0 i0 Hd0 Hk0 Hsome. destruct (decide (k = k0)) as [<-|Hne].
      - rewrite dict_get_set_eq. eauto.
      - rewrite dict_get_set_ne by exact Hne. apply (E3 k0 i0 Hd0 Hk0).
        rewrite changed_db_lookup, bool_decide_eq_false_2 in Hsome by congruence.
        exact Hsome. }
    split; [exact B|].
    split; [intros s' k'; apply Hst; reflexivity|].
    split.
    { intros k0 i0 z0 Hk0. rewrite changed_db_lookup.
      destruct (decide ((schema i0, k0) = (schema info, k))) as [Heq|Hne].
      - rewrite bool_decide_eq_true_2 by exact Heq. injection Heq as Hsch ->.
        rewrite Hv. intros [= <-]. apply (Hz i0 Hk0 Hsch).
      - rewrite bool_decide_eq_false_2 by exact Hne. apply (T k0 i0 z0 Hk0). }
    split.
    { apply Forall_app. split.
      - eapply Forall_impl; [exact Q|]. intros [k0 z0] (i0 & Hk0 & Hz0 & Hsome).
        exists i0. split; [exact Hk0|]. split; [exact Hz0|].
        destruct (decide (k = k0)) as [<-|Hne].
        + rewrite dict_get_set_eq. eauto.
        + rewrite dict_get_set_ne by exact Hne. exact Hsome.
      - destruct (z =? clamp info); [apply Forall_nil_2|].
        apply Forall_singleton. exists info. split; [exact Hk|].
        split; [reflexivity|]. rewrite dict_get_set_eq. eauto. }
    intros k0 i0 v0 Hd0 Hk0. rewrite !changed_db_lookup.
    destruct (decide ((schema i0, k0) = (schema info, k))) as [Heq|Hne].
    + rewrite bool_decide_eq_true_2 by exact Heq. injection Heq as Hsch ->.
      assert (i0 = info) by congruence. subst i0.
      rewrite Hv. intros [= <-].
      destruct (z =? clamp info) eqn:Ec.
      * left. apply Z.eqb_eq, Ec.
      * right. right. left. apply elem_of_app. right. left.
    + rewrite bool_decide_eq_false_2 by exact Hne. intros Hv0.
      destruct (P k0 i0 v0 Hd0 Hk0 Hv0) as [Hc|[Hc|[Hc|Hc]]]; auto.
      right. right. left. apply elem_of_app. left. exact Hc.
  - (* no handler for the key *)
    assert (Hw : match dict_get k d with
                 | Some _ =>
                     if String.eqb (schema_of k) s
                     then (_changed k false (with_store (changed_db s k z) w)).2
                     else with_store (changed_db s k z) w
                 | None => with_store (changed_db s k z) w
                 end = with_store (changed_db s k z) w).
    { destruct (dict_get k d); [rewrite M|]; reflexivity. }
    rewrite Hw. clear Hw.
    assert (Hother : forall k0 i0,
              k0 ∈ done -> dict_get k0 SETTINGS = Some i0 ->
              is_Some (db !! (schema i0, k0)) ->
              (schema i0, k0) <> (s, k)).
    { intros k0 i0 Hd0 Hk0 Hsome [= <- <-].
      destruct (E3 k0 i0 Hd0 Hk0 Hsome) as [e He]. rewrite He in M.
      rewrite (schema_of_setting _ _ Hk0), String.eqb_refl in M. discriminate. }
    exists d. unfold consistent. cbn.
    do 4 (split; [assumption|]).
    split.
    { intros k0 e0 He0.
      destruct (E1 k0 e0 He0) as (Hd0 & i0 & v0 & Hk0 & Hv0 & Hval0).
      split; [exact Hd0|]. exists i0, v0. split; [exact Hk0|].
      split; [|exact Hval0].
      rewrite changed_db_lookup, bool_decide_eq_false_2; [exact Hv0|].
      apply Hother; eauto. }
    split.
    { intros k0 i0 Hd0 Hk0 Hsome. apply (E3 k0 i0 Hd0 Hk0).
      rewrite changed_db_lookup in Hsome.
      destruct (bool_decide ((schema i0, k0) = (s, k))) eqn:D; [|exact Hsome].
      apply bool_decide_eq_true in D. injection D as <- <-.
      destruct (db !! (schema i0, k0)); [eauto | exact Hsome]. }
    split; [exact B|].
    split; [intros s' k'; apply Hst; reflexivity|].
    split.
    { intros k0 i0 z0 Hk0. rewrite changed_db_lookup.
      destruct (decide ((schema i0, k0) = (s, k))) as [Heq|Hne].
      - rewrite bool_decide_eq_true_2 by exact Heq. injection Heq as Hsch ->.
        destruct (db !! (s, k)); [|discriminate]. intros [= <-].
        apply (Hz i0 Hk0 Hsch).
      - rewrite bool_decide_eq_false_2 by exact Hne. apply (T k0 i0 z0 Hk0). }
    split; [exact Q|].
    intros k0 i0 v0 Hd0 Hk0. rewrite !changed_db_lookup.
    destruct (decide ((schema i0, k0) = (s, k))) as [Heq|Hne].
    + rewrite bool_decide_eq_true_2 by exact Heq. intros Hv0. exfalso.
      apply (Hother k0 i0 Hd0 Hk0); [|exact Heq].
      injection Heq as <- <-. destruct (db !! (schema i0, k0)); [eauto | discriminate].
    + rewrite bool_decide_eq_false_2 by exact Hne. apply (P k0 i0 v0 Hd0 Hk0).
Qed.

Lemma run_consistent env db done (events : list event) :
  Forall typed_event events ->
  forall d (w : world),
    consistent env db done d w ->
    exists d', consistent env (outside events db) done d' (run env events w).
Proof.
  intros Hev. revert db.
  induction Hev as [|e events He Hev IH]; intros db d w C; [exists d; exact C|].
  cbn. destruct e as [s k z|].
  - destruct (changed_consistent env db done d w s k z C He) as [d1 C1].
    apply (IH _ d1 _ C1).
  - apply (IH _ d _ (idle_consistent env db done d w C)).
Qed.

Lemma restore_spec env k e v (w : world) info d old :
  dict_get k SETTINGS = Some info ->
  _gsettings (self w) = Some [SCHEMA_SCREENSAVER; SCHEMA_SESSION; SCHEMA_POWER] ->
  _saved (self w) = Some d ->
  dict_get k d = Some e ->
  value e = Some v ->
  store w !! (schema info, k) = Some old ->
  fits (type info) v = true ->
  blocked w = ∅ ->
  (forall id, (id, (schema info, k)) ∈ handlers w -> id = handler_id e) ->
  exists tr,
    restore env (k, e) w
    = (Returns tt,
       mk_world (self w)
         (if writable env (schema info) k
          then <[ (schema info, k) := v ]> (store w) else store w)
         (List.filter (fun h => negb (Nat.eqb h.1 (handler_id e))) (handlers w))
         ∅ (next_handler w) (idle w) (trace w ++ tr)).
Proof.
  intros Hki G S He Hval Hold Hfit B Hh.
  destruct (setting_schema_known k info Hki) as [Hs _].
  destruct (set_setting_spec env k v None w info _ d e old Hki G Hs S He Hold
              (marshal_fits _ _ Hfit) B Hh) as [tr E].
  unfold restore, setting, log, disconnect.
  unfold_method. rewrite Hki. cbv beta iota.
  rewrite Hval, E. cbv beta iota zeta.
  erewrite gsettings_of_spec; [| cbn; exact G | exact Hs]. cbv beta iota.
  unfold with_handlers. cbn. rewrite <- app_assoc. eexists. reflexivity.
Qed.

#[local] Arguments restore : simpl never.

(** The loop of [deactivate] over the entries [rest] that are left. *)
Lemma restore_loop env db (d rest : list (string * saved)) :
  NoDup rest.*1 ->
  typed db ->
  (forall k e,
     (k, e) ∈ rest ->
     dict_get k d = Some e
     /\ exists info v,
          dict_get k SETTINGS = Some info
          /\ db !! (schema info, k) = Some v /\ value e = Some v) ->
  forall w : world,
    _gsettings (self w) = Some [SCHEMA_SCREENSAVER; SCHEMA_SESSION; SCHEMA_POWER] ->
    _saved (self w) = Some d ->
    blocked w = ∅ ->
    (forall h, h ∈ handlers w -> exists entry, entry ∈ rest /\ h = handler_of entry) ->
    (forall s k,
       store w !! (s, k) = db !! (s, k)
       \/ exists info,
            dict_get k SETTINGS = Some info /\ schema info = s /\ k ∈ rest.*1
            /\ writable env s k = true
            /\ store w !! (s, k) = Some (clamp info)) ->
    exists w',
      for_each rest (restore env) w = (Returns tt, w')
      /\ self w' = self w
      /\ store w' = db
      /\ handlers w' = []
      /\ blocked w' = ∅.
Proof.
  induction rest as [|[k e] rest IH]; intros ND T Hrest w G S B Hh St.
  - exists w. split; [reflexivity|]. split; [reflexivity|].
    split.
    { apply map_eq. intros [s k]. destruct (St s k) as [E|(i & _ & _ & Hin & _)];
        [exact E|]. apply elem_of_nil in Hin. destruct Hin. }
    split; [|exact B].
    destruct (handlers w) as [|h hs]; [reflexivity|].
    destruct (Hh h) as (entry & Hin & _); [left|].
    apply elem_of_nil in Hin. destruct Hin.
  - cbn in ND. apply NoDup_cons in ND as [Hk ND].
    destruct (Hrest k e) as (He & info & v & Hki & Hv & Hval); [left|].
    destruct (setting_schema_known k info Hki) as [Hs _].
    assert (Hold : exists old, store w !! (schema info, k) = Some old).
    { destruct (St (schema info) k) as [E|(i & _ & _ & _ & _ & E)];
        rewrite E; eauto. }
    destruct Hold as [old Hold].
    destruct (restore_spec env k e v w info d old Hki G S He Hval Hold
                (T k info v Hki Hv) B) as [tr E].
    { intros id Hin. destruct (Hh _ Hin) as ([k' e'] & Hin' & Heq).
      unfold handler_of in Heq. cbn in Heq. injection Heq as Hid _ Hkk.
      subst id k'.
      apply elem_of_cons in Hin' as [[= <-]|Hin']; [reflexivity|].
      exfalso. apply Hk. apply list_elem_of_fmap. exists (k, e').
      split; [reflexivity | exact Hin']. }
    cbn [for_each]. unfold_method. rewrite E.
    match goal with
    | |- context [for_each rest (restore env) ?w1] =>
        destruct (IH ND T) with (w := w1) as (w' & E' & Hself & Hstore & Hhs & Hb)
    end.
    + intros k0 e0 Hin. apply Hrest. right. exact Hin.
    + exact G.
    + exact S.
    + reflexivity.
    + cbn. intros h Hin. apply list_elem_of_In, filter_In in Hin as [Hin Hid].
      apply list_elem_of_In in Hin.
      destruct (Hh _ Hin) as (entry & Hin' & ->).
      exists entry. split; [|reflexivity].
      apply elem_of_cons in Hin' as [->|Hin']; [|exact Hin'].
      cbn in Hid. rewrite Nat.eqb_refl in Hid. discriminate Hid.
    + cbn. intros s k0.
      destruct (decide ((s, k0) = (schema info, k))) as [[= -> ->]|Hne].
      * left. destruct (writable env (schema info) k) eqn:W.
        -- rewrite lookup_insert_eq, Hv. reflexivity.
        -- destruct (St (schema info) k) as [E1|(i & _ & _ & _ & W' & _)];
             [exact E1 | congruence].
      * assert (Hsame : (if writable env (schema info) k
                         then <[(schema info, k):=v]> (store w) else store w)
                          !! (s, k0) = store w !! (s, k0)).
        { destruct (writable env (schema info) k); [|reflexivity].
          apply lookup_insert_ne. congruence. }
        rewrite Hsame.
        destruct (St s k0) as [E1|(i & Hi & Hsi & Hin & W & Ec)]; [left; exact E1|].
        right. exists i. split; [exact Hi|]. split; [exact Hsi|].
        split; [|split; assumption].
        cbn in Hin. apply elem_of_cons in Hin as [->|Hin]; [|exact Hin].
        exfalso. apply Hne. assert (i = info) by congruence. subst i.
        rewrite Hsi. reflexivity.
    + exists w'. split; [exact E'|]. split; [exact Hself|].
      split; [exact Hstore|]. split; assumption.
Qed.

Lemma deactivate_consistent env db done d (w : world) :
  consistent env db done d w ->
  exists w',
    deactivate env w = (Returns tt, w')
    /\ self w' = __init__
    /\ store w' = db
    /\ handlers w' = []
    /\ blocked w' = ∅.
Proof.
  intros (G & S & H & ND & E1 & E3 & B & St & T & Q & P).
  destruct (restore_loop env db d d ND T) with (w := w)
    as (w' & E & Hself & Hstore & Hhs & Hb).
  - intros k e Hin. apply (dict_get_NoDup _ _ _ ND) in Hin.
    split; [exact Hin|]. apply (E1 k e Hin).
  - exact G.
  - exact S.
  - exact B.
  - rewrite H. intros h Hin. apply list_elem_of_fmap in Hin as (entry & -> & Hin).
    exists entry. split; [exact Hin | reflexivity].
  - intros s k. destruct (St s k) as [E|(i & Hi & Hsi & Hd & Hsome & W & Ec)];
      [left; exact E|].
    right. exists i. split; [exact Hi|]. split; [exact Hsi|].
    split; [|split; assumption].
    subst s. destruct (E3 k i Hd Hi Hsome) as [e He].
    apply dict_get_elem_of in He. apply list_elem_of_fmap. exists (k, e).
    split; [reflexivity | exact He].
  - unfold deactivate. unfold_method. rewrite S.
    assert (Hfinal : forall r : outcome unit * world,
              r = (Returns tt, w') ->
              exists w'',
                (let (o, s') := r in
                 match o with
                 | Returns _ =>
                     let (o0, s'0) :=
                       (Returns tt,
                        with_self (fun s => mk None (_saved s)) s') in
                     match o0 with
                     | Returns _ =>
                         (Returns tt,
                          with_self (fun s => mk (_gsettings s) None) s'0)
                     | Raises e => (Raises e, s'0)
                     end
                 | Raises e => (Raises e, s')
                 end) = (Returns tt, w'')
                /\ self w'' = __init__ /\ store w'' = db
                /\ handlers w'' = [] /\ blocked w'' = ∅).
    { intros r ->. eexists. split; [reflexivity|]. cbn.
      split; [reflexivity|]. split; [exact Hstore|]. split; assumption. }
    destruct d as [|x d']; exact (Hfinal _ E).
Qed.

Lemma well_typed_typed db : well_typed db = true -> typed db.
Proof.
  unfold well_typed. rewrite forallb_forall. intros H key info z Hk Hz.
  apply dict_get_elem_of, list_elem_of_In in Hk.
  specialize (H _ Hk). cbn in H. rewrite Hz in H. exact H.
Qed.

Lemma well_typed_events events :
  forallb well_typed_event events = true -> Forall typed_event events.
Proof.
  rewrite forallb_forall. intros H. apply Forall_forall. intros e Hin.
  apply list_elem_of_In in Hin.
  specialize (H _ Hin). destruct e as [s key z|]; [|exact I].
  cbn in *. intros info Hk Hs. rewrite Hk, Hs, String.eqb_refl in H. exact H.
Qed.

Lemma activated_consistent env db (events : list event) :
  schemas_installed env = true ->
  well_typed db = true ->
  forallb well_typed_event events = true ->
  (activate env (created db)).1 = Returns tt
  /\ exists d,
       consistent env (outside events db) (rev SETTINGS.*1) d
         (run env events (then_ (activate env) (created db))).
Proof.
  intros Hi Ht He. unfold schemas_installed in Hi.
  apply andb_prop in Hi as [Hi I3]. apply andb_prop in Hi as [I1 I2].
  destruct (activate_consistent env db I1 I2 I3 (well_typed_typed _ Ht))
    as (d & w1 & E & C & _).
  unfold then_. rewrite E. split; [reflexivity|].
  apply (run_consistent env db _ events (well_typed_events _ He) d w1 C).
Qed.

(** X16. With the three schemas installed and the keys of the table holding
    values of their types (at the start and in every change from outside),
    [activate] and [deactivate] both return and the manager leaves no trace
    in the settings: whatever was changed from outside while it ran, and
    however many of its queued writes had run, the database after
    [deactivate] is what it would be without the manager; every handler is
    disconnected and the attributes are [None] again. *)
Theorem settings_are_restored env db (events : list event) :
  schemas_installed env = true ->
  well_typed db = true ->
  forallb well_typed_event events = true ->
  let w1 := then_ (activate env) (created db) in
  let w2 := run env events w1 in
  let w3 := then_ (deactivate env) w2 in
  (activate env (created db)).1 = Returns tt
  /\ (deactivate env w2).1 = Returns tt
  /\ store w3 = outside events db
  /\ self w3 = __init__
  /\ handlers w3 = [].
Proof.
  intros Hi Ht He w1 w2 w3.
  destruct (activated_consistent env db events Hi Ht He) as (R & d & C).
  fold w1 w2 in C.
  destruct (deactivate_consistent env _ _ d w2 C) as (w' & E & Hs & Hst & Hh & _).
  subst w3. unfold then_. rewrite E. cbn.
  split; [exact R|]. split; [reflexivity|]. split; [exact Hst|].
  split; assumption.
Qed.

(** X17. Under the same assumptions, once the queued writes have run every
    key of the table that exists and can be written holds its clamp value;
    a key that cannot be written, and every key that is not in the table,
    holds what it would hold without the manager. *)
Theorem settings_are_clamped env db (events : list event) (s key : string) :
  schemas_installed env = true ->
  well_typed db = true ->
  forallb well_typed_event events = true ->
  let w := run env events (then_ (activate env) (created db)) in
  idle w = [] ->
  store w !! (s, key)
  = match dict_get key SETTINGS with
    | Some info =>
        if String.eqb (schema info) s && writable env s key
        then option_map (fun _ => clamp info) (outside events db !! (s, key))
        else outside events db !! (s, key)
    | None => outside events db !! (s, key)
    end.
Proof.
  intros Hi Ht He w Hidle.
  destruct (activated_consistent env db events Hi Ht He) as (_ & d & C).
  fold w in C.
  destruct C as (G & S & H & ND & E1 & E3 & B & St & T & Q & P).
  destruct (dict_get key SETTINGS) as [info|] eqn:Hk.
  - destruct (String.eqb (schema info) s) eqn:Es; cbn [andb].
    + apply String.eqb_eq in Es. subst s.
      destruct (writable env (schema info) key) eqn:W.
      * destruct (outside events db !! (schema info, key)) as [v|] eqn:Hv; cbn.
        -- assert (Hd : key ∈ rev SETTINGS.*1).
           { apply list_elem_of_In. apply -> in_rev.
             apply list_elem_of_In, list_elem_of_fmap.
             exists (key, info). split; [reflexivity|].
             apply dict_get_elem_of, Hk. }
           destruct (P key info v Hd Hk Hv) as [Hc|[Hc|[Hc|Hc]]].
           ++ destruct (St (schema info) key) as [E|(i & Hi' & _ & _ & _ & _ & E)].
              ** rewrite E, Hv. congruence.
              ** rewrite E. congruence.
           ++ exact Hc.
           ++ rewrite Hidle in Hc. apply elem_of_nil in Hc. destruct Hc.
           ++ congruence.
        -- destruct (St (schema info) key) as [E|(i & _ & _ & _ & [x Hx] & _)].
           ++ rewrite E. exact Hv.
           ++ congruence.
      * destruct (St (schema info) key) as [E|(i & _ & _ & _ & _ & W' & _)];
          [exact E | congruence].
    + destruct (St s key) as [E|(i & Hi' & Hs & _)]; [exact E|].
      assert (i = info) by congruence. subst i.
      rewrite Hs, String.eqb_refl in Es. discriminate.
  - destruct (St s key) as [E|(i & Hi' & _)]; [exact E | congruence].
Qed.

End gsettings.

(** * The listeners *)

Section listeners.

(** Decides the comparisons of two string literals in the goal. *)
Ltac literal_eqb :=
  repeat match goal with
         | |- context [String.eqb ?a ?b] =>
             let v := eval vm_compute in (String.eqb a b) in
             match v with true => idtac | false => idtac end;
             change (String.eqb a b) with v
         end.

Lemma alternates_snoc (l : list bool) (i : bool) :
  GnomeSessionManagerListener.alternates l = true ->
  last l <> Some i ->
  GnomeSessionManagerListener.alternates (l ++ [i]) = true.
Proof.
  induction l as [|a [|b l] IH]; intros Hl Hlast; [reflexivity| |].
  - cbn in *. rewrite andb_true_r. destruct a, i; try reflexivity; congruence.
  - cbn [app GnomeSessionManagerListener.alternates] in *.
    apply andb_true_iff in Hl. destruct Hl as [Hab Hl].
    rewrite Hab. apply IH; [exact Hl | exact Hlast].
Qed.

Lemma faithful_log fmt (w : GnomeSessionManagerListener.world) :
  faithful w ->
  faithful (then_ (GnomeSessionManagerListener.tell (GnomeSessionManagerListener.Log fmt)) w).
Proof.
  intros [H1 H2]. unfold faithful. cbn.
  unfold GnomeSessionManagerListener.emitted in *. rewrite omap_app. cbn.
  rewrite app_nil_r. split; assumption.
Qed.

Lemma faithful_connect name (w : GnomeSessionManagerListener.world) :
  faithful w ->
  faithful (then_ (GnomeSessionManagerListener.tell
                     (GnomeSessionManagerListener.ConnectToSignal name)) w).
Proof.
  intros [H1 H2]. unfold faithful. cbn.
  unfold GnomeSessionManagerListener.emitted in *. rewrite omap_app. cbn.
  rewrite app_nil_r. split; assumption.
Qed.

Lemma faithful_check reply (w : GnomeSessionManagerListener.world) :
  faithful w -> faithful (then_ (GnomeSessionManagerListener._check_inhibited reply) w).
Proof.
  intros H. unfold GnomeSessionManagerListener._check_inhibited, then_.
  unfold mbind, Method_bind, read. cbn.
  destruct (GnomeSessionManagerListener._iface (GnomeSessionManagerListener.self w));
    [|exact H].
  destruct reply as [i|]; [|exact H]. cbn.
  destruct H as [H1 H2].
  destruct (bool_decide _) eqn:D; cbn.
  - apply bool_decide_eq_true in D. unfold faithful. cbn.
    unfold GnomeSessionManagerListener.emitted in *.
    rewrite !omap_app. cbn. rewrite app_nil_r. split.
    + apply alternates_snoc; [exact H1|]. rewrite H2. congruence.
    + apply last_snoc.
  - unfold faithful. cbn. unfold GnomeSessionManagerListener.emitted in *.
    rewrite omap_app. cbn. rewrite app_nil_r. split; assumption.
Qed.

Lemma then_bind {S A B} (c : Method S A) (k : A -> Method S B) (s : S) :
  then_ (c ≫= k) s
  = match (c s).1 with
    | Returns a => then_ (k a) (then_ c s)
    | Raises _ => then_ c s
    end.
Proof.
  unfold then_, mbind, Method_bind. destruct (c s) as [[a|e] s']; reflexivity.
Qed.

Lemma faithful_bind {A} (c : Method GnomeSessionManagerListener.world A)
    (k : A -> Method GnomeSessionManagerListener.world unit) w :
  faithful (then_ c w) ->
  (forall a w', faithful w' -> faithful (then_ (k a) w')) ->
  faithful (then_ (c ≫= k) w).
Proof.
  intros Hc Hk. rewrite then_bind. destruct (c w).1; [apply Hk, Hc | exact Hc].
Qed.

Lemma faithful_assign_iface v (w : GnomeSessionManagerListener.world) :
  faithful w ->
  faithful (then_ (GnomeSessionManagerListener.assign
                     (fun s => GnomeSessionManagerListener.mk v
                                 (GnomeSessionManagerListener._inhibited s))) w).
Proof. intros H. exact H. Qed.

Lemma faithful_activate proxy reply (w : GnomeSessionManagerListener.world) :
  faithful w -> faithful (then_ (GnomeSessionManagerListener.activate proxy reply) w).
Proof.
  intros H. unfold GnomeSessionManagerListener.activate.
  apply faithful_bind; [destruct proxy; exact H|]. intros _ w1 H1.
  apply faithful_bind; [apply faithful_assign_iface, H1|]. intros _ w2 H2.
  apply faithful_bind; [apply faithful_check, H2|]. intros _ w3 H3.
  apply faithful_bind; [apply faithful_log, H3|]. intros _ w4 H4.
  apply faithful_bind; [apply faithful_connect, H4|]. intros _ w5 H5.
  apply faithful_connect, H5.
Qed.

Lemma faithful_handle e (w : GnomeSessionManagerListener.world) :
  faithful w -> faithful (then_ (GnomeSessionManagerListener.handle e) w).
Proof.
  intros H. destruct e; cbn [GnomeSessionManagerListener.handle];
    unfold GnomeSessionManagerListener._inhibitor_added,
           GnomeSessionManagerListener._inhibitor_removed;
    (apply faithful_bind; [apply faithful_log, H|]); intros _ w1 H1;
    apply faithful_check, H1.
Qed.

(** X18. After [activate] the session-manager listener never emits
    [inhibited-changed] twice in a row with the same value, whatever the
    session manager answers and however often it signals; and the last value
    emitted is the one the listener remembers in [_inhibited]. *)
Theorem inhibited_changed_alternates proxy reply
    (events : list GnomeSessionManagerListener.event) :
  let w := GnomeSessionManagerListener.run events
             (then_ (GnomeSessionManagerListener.activate proxy reply)
                GnomeSessionManagerListener.created) in
  GnomeSessionManagerListener.alternates
    (GnomeSessionManagerListener.emitted (GnomeSessionManagerListener.trace w)) = true
  /\ last (GnomeSessionManagerListener.emitted (GnomeSessionManagerListener.trace w))
     = GnomeSessionManagerListener._inhibited (GnomeSessionManagerListener.self w).
Proof.
  cbv zeta.
  assert (H0 : faithful (then_ (GnomeSessionManagerListener.activate proxy reply)
                           GnomeSessionManagerListener.created))
    by (apply faithful_activate; split; reflexivity).
  revert H0. generalize (then_ (GnomeSessionManagerListener.activate proxy reply)
                           GnomeSessionManagerListener.created).
  induction events as [|e events IH]; intros w H; [exact H|].
  cbn. apply IH, faithful_handle, H.
Qed.

(** ** ConsoleKit *)

Lemma ck_activate_session env ssid :
  ConsoleKitListener.session env = Some ssid ->
  let w := then_ (ConsoleKitListener.activate env) ConsoleKitListener.created in
  ConsoleKitListener.self w
  = ConsoleKitListener.mk (Some ssid) ["Lock"; "Unlock"; "ActiveChanged"]
  /\ ConsoleKitListener.emitted (ConsoleKitListener.trace w) = [].
Proof.
  unfold ConsoleKitListener.session. intros H.
  destruct env as [[|] [s|]]; cbn in H; try discriminate.
  injection H as ->. split; reflexivity.
Qed.

Lemma ck_activate_no_session env :
  ConsoleKitListener.session env = None ->
  let w := then_ (ConsoleKitListener.activate env) ConsoleKitListener.created in
  ConsoleKitListener._matches (ConsoleKitListener.self w) = []
  /\ ConsoleKitListener.emitted (ConsoleKitListener.trace w) = [].
Proof.
  unfold ConsoleKitListener.session. intros H.
  destruct env as [[|] [s|]]; cbn in H; try discriminate; split; reflexivity.
Qed.

Lemma bool_decide_path (path ssid : string) :
  bool_decide (Some path = Some ssid) = String.eqb path ssid.
Proof.
  destruct (String.eqb_spec path ssid) as [->|Hne].
  - apply bool_decide_eq_true_2. reflexivity.
  - apply bool_decide_eq_false_2. congruence.
Qed.

Lemma ck_handle_spec ssid e (w : ConsoleKitListener.world) :
  ConsoleKitListener.self w
  = ConsoleKitListener.mk (Some ssid) ["Lock"; "Unlock"; "ActiveChanged"] ->
  let w' := then_ (ConsoleKitListener.handle e) w in
  ConsoleKitListener.self w' = ConsoleKitListener.self w
  /\ ConsoleKitListener.emitted (ConsoleKitListener.trace w')
     = ConsoleKitListener.emitted (ConsoleKitListener.trace w)
       ++ option_list (ConsoleKitListener.signal_for ssid e).
Proof.
  destruct w as [s tr]. cbn [ConsoleKitListener.self]. intros ->.
  unfold ConsoleKitListener.handle, then_, mbind, Method_bind, read.
  destruct e as [path|path|is_active path]; cbn; literal_eqb; cbn;
    unfold ConsoleKitListener._lock, ConsoleKitListener._unlock,
           ConsoleKitListener._active_changed, mbind, Method_bind, read; cbn;
    rewrite bool_decide_path;
    destruct (String.eqb path ssid); cbn;
    try destruct is_active; cbn;
    unfold ConsoleKitListener.emitted; rewrite ?omap_app; cbn;
    rewrite ?app_nil_r; split; try reflexivity; rewrite <- ?app_assoc; reflexivity.
Qed.

Lemma ck_handle_deaf e (w : ConsoleKitListener.world) :
  ConsoleKitListener._matches (ConsoleKitListener.self w) = [] ->
  then_ (ConsoleKitListener.handle e) w = w.
Proof.
  intros Hm. unfold ConsoleKitListener.handle, then_, mbind, Method_bind, read.
  cbn. rewrite Hm. reflexivity.
Qed.

(** X19. The ConsoleKit listener passes on exactly the signals of its own
    session: after [activate], whatever signals the bus delivers, the
    listener has emitted [lock] for each [Lock] and [unlock] for each
    [Unlock] whose sender path is the session id, [is-active] for each
    [ActiveChanged] of that path with a true argument, in the order of their
    arrival, and nothing else; without a session id it emits nothing. *)
Theorem console_kit_filters_by_session env (events : list ConsoleKitListener.event) :
  let w := ConsoleKitListener.run events
             (then_ (ConsoleKitListener.activate env) ConsoleKitListener.created) in
  ConsoleKitListener.emitted (ConsoleKitListener.trace w)
  = match ConsoleKitListener.session env with
    | Some ssid => omap (ConsoleKitListener.signal_for ssid) events
    | None => []
    end.
Proof.
  cbv zeta. destruct (ConsoleKitListener.session env) as [ssid|] eqn:E.
  - destruct (ck_activate_session env ssid E) as [Hs He].
    revert Hs He. generalize (then_ (ConsoleKitListener.activate env)
                                ConsoleKitListener.created).
    intros w Hs He.
    change (omap (ConsoleKitListener.signal_for ssid) events)
      with ([] ++ omap (ConsoleKitListener.signal_for ssid) events).
    rewrite <- He. clear He. revert w Hs.
    induction events as [|e events IH]; intros w Hs; cbn [ConsoleKitListener.run fold_left].
    + cbn. rewrite app_nil_r. reflexivity.
    + destruct (ck_handle_spec ssid e w Hs) as [Hs' He'].
      unfold ConsoleKitListener.run in IH. rewrite IH by (rewrite Hs'; exact Hs).
      rewrite He', <- app_assoc. f_equal.
      change (omap (ConsoleKitListener.signal_for ssid) (e :: events))
        with (match ConsoleKitListener.signal_for ssid e with
              | Some y => y :: omap (ConsoleKitListener.signal_for ssid) events
              | None => omap (ConsoleKitListener.signal_for ssid) events
              end).
      destruct (ConsoleKitListener.signal_for ssid e); reflexivity.
  - destruct (ck_activate_no_session env E) as [Hm He].
    revert Hm He. generalize (then_ (ConsoleKitListener.activate env)
                                ConsoleKitListener.created).
    intros w Hm He.
    induction events as [|e events IH]; [exact He|].
    cbn [ConsoleKitListener.run fold_left]. rewrite ck_handle_deaf by exact Hm.
    exact IH.
Qed.

(** ** logind *)

Lemma sl_activate_session env ssid :
  SystemdLogindListener.session env = Some ssid ->
  let w := then_ (SystemdLogindListener.activate env) SystemdLogindListener.created in
  SystemdLogindListener.self w
  = SystemdLogindListener.mk (Some ssid)
      ["Lock"; "Unlock"; "PropertiesChanged"; "PrepareForSleep"]
  /\ SystemdLogindListener.emitted (SystemdLogindListener.trace w) = [].
Proof.
  unfold SystemdLogindListener.session. intros H.
  destruct env as [[|] [|] [s|]]; cbn in H; try discriminate.
  injection H as ->. split; reflexivity.
Qed.

Lemma sl_activate_no_session env :
  SystemdLogindListener.session env = None ->
  let w := then_ (SystemdLogindListener.activate env) SystemdLogindListener.created in
  SystemdLogindListener._matches (SystemdLogindListener.self w) = []
  /\ SystemdLogindListener.emitted (SystemdLogindListener.trace w) = [].
Proof.
  unfold SystemdLogindListener.session. intros H.
  destruct env as [[|] [|] [s|]]; cbn in H; try discriminate; split; reflexivity.
Qed.

Lemma sl_handle_spec ssid e (w : SystemdLogindListener.world) :
  SystemdLogindListener.self w
  = SystemdLogindListener.mk (Some ssid)
      ["Lock"; "Unlock"; "PropertiesChanged"; "PrepareForSleep"] ->
  let w' := then_ (SystemdLogindListener.handle e) w in
  SystemdLogindListener.self w' = SystemdLogindListener.self w
  /\ SystemdLogindListener.emitted (SystemdLogindListener.trace w')
     = SystemdLogindListener.emitted (SystemdLogindListener.trace w)
       ++ option_list (SystemdLogindListener.signal_for ssid e).
Proof.
  destruct w as [s tr]. cbn [SystemdLogindListener.self]. intros ->.
  unfold SystemdLogindListener.handle.
  destruct e as [path|path|changed invalidated active path|active path].
  - unfold SystemdLogindListener._lock. unfold then_, mbind, Method_bind, read. cbn.
    literal_eqb. cbn.
    rewrite bool_decide_path.
    destruct (String.eqb path ssid); cbn;
      unfold SystemdLogindListener.emitted; rewrite ?omap_app; cbn;
      rewrite ?app_nil_r; split; try reflexivity; rewrite <- ?app_assoc; reflexivity.
  - unfold SystemdLogindListener._unlock. unfold then_, mbind, Method_bind, read. cbn.
    literal_eqb. cbn.
    rewrite bool_decide_path.
    destruct (String.eqb path ssid); cbn;
      unfold SystemdLogindListener.emitted; rewrite ?omap_app; cbn;
      rewrite ?app_nil_r; split; try reflexivity; rewrite <- ?app_assoc; reflexivity.
  - unfold SystemdLogindListener._properties_changed. cbv zeta.
    cbn [SystemdLogindListener.signal_for].
    generalize (existsb (String.eqb "Active") changed
                || existsb (String.eqb "Active") invalidated).
    intros has.
    unfold then_, mbind, Method_bind, read. cbn. literal_eqb. cbn.
    rewrite bool_decide_path.
    destruct (String.eqb path ssid); cbn;
      [|rewrite app_nil_r; split; reflexivity].
    destruct has; cbn.
    + destruct active as [[|]|]; cbn;
        unfold SystemdLogindListener.emitted; rewrite ?omap_app; cbn;
        rewrite ?app_nil_r; split; try reflexivity; rewrite <- ?app_assoc; reflexivity.
    + unfold SystemdLogindListener.emitted; rewrite ?omap_app; cbn;
        rewrite ?app_nil_r; split; reflexivity.
  - unfold SystemdLogindListener._prepare_for_sleep. unfold then_, mbind, Method_bind, read. cbn.
    literal_eqb. cbn.
    destruct active; cbn;
      unfold SystemdLogindListener.emitted; rewrite ?omap_app; cbn;
      rewrite ?app_nil_r; split; try reflexivity; rewrite <- ?app_assoc; reflexivity.
Qed.

Lemma sl_handle_deaf e (w : SystemdLogindListener.world) :
  SystemdLogindListener._matches (SystemdLogindListener.self w) = [] ->
  then_ (SystemdLogindListener.handle e) w = w.
Proof.
  intros Hm. unfold SystemdLogindListener.handle, then_, mbind, Method_bind, read.
  cbn. rewrite Hm. reflexivity.
Qed.

(** X20. The logind listener passes on the signals of its own session, and
    locks on every suspend: after [activate], whatever signals the bus
    delivers, it has emitted, in the order of their arrival, [lock] and
    [unlock] for each [Lock] and [Unlock] of its session path, [is-active]
    for each [PropertiesChanged] of that path that names [Active] and finds
    the property true, [lock] for each [PrepareForSleep] with a true
    argument whatever its path, and nothing else; without a session id it
    emits nothing, not even on suspend. *)
Theorem logind_filters_by_session env (events : list SystemdLogindListener.event) :
  let w := SystemdLogindListener.run events
             (then_ (SystemdLogindListener.activate env) SystemdLogindListener.created) in
  SystemdLogindListener.emitted (SystemdLogindListener.trace w)
  = match SystemdLogindListener.session env with
    | Some ssid => omap (SystemdLogindListener.signal_for ssid) events
    | None => []
    end.
Proof.
  cbv zeta. destruct (SystemdLogindListener.session env) as [ssid|] eqn:E.
  - destruct (sl_activate_session env ssid E) as [Hs He].
    revert Hs He. generalize (then_ (SystemdLogindListener.activate env)
                                SystemdLogindListener.created).
    intros w Hs He.
    change (omap (SystemdLogindListener.signal_for ssid) events)
      with ([] ++ omap (SystemdLogindListener.signal_for ssid) events).
    rewrite <- He. clear He. revert w Hs.
    induction events as [|e events IH]; intros w Hs;
      cbn [SystemdLogindListener.run fold_left].
    + cbn. rewrite app_nil_r. reflexivity.
    + destruct (sl_handle_spec ssid e w Hs) as [Hs' He'].
      unfold SystemdLogindListener.run in IH. rewrite IH by (rewrite Hs'; exact Hs).
      rewrite He', <- app_assoc. f_equal.
      change (omap (SystemdLogindListener.signal_for ssid) (e :: events))
        with (match SystemdLogindListener.signal_for ssid e with
              | Some y => y :: omap (SystemdLogindListener.signal_for ssid) events
              | None => omap (SystemdLogindListener.signal_for ssid) events
              end).
      destruct (SystemdLogindListener.signal_for ssid e); reflexivity.
  - destruct (sl_activate_no_session env E) as [Hm He].
    revert Hm He. generalize (then_ (SystemdLogindListener.activate env)
                                SystemdLogindListener.created).
    intros w Hm He.
    induction events as [|e events IH]; [exact He|].
    cbn [SystemdLogindListener.run fold_left]. rewrite sl_handle_deaf by exact Hm.
    exact IH.
Qed.

End listeners.

(** * The program *)

Section program.
Import main.

Lemma news_app {A} (l added : list A) : news l (l ++ added) = added.
Proof. unfold news. apply drop_app_length. Qed.

Lemma news_same {A} (l : list A) : news l l = [].
Proof. unfold news. apply drop_all. Qed.

(** ** What every method of the manager does to the trace *)

#[global] Instance grows_preorder : PreOrder grows.
Proof.
  split.
  - intros w. exists []. symmetry. apply app_nil_r.
  - intros a b c [x Hx] [y Hy]. exists (x ++ y). rewrite Hy, Hx. symmetry. apply app_assoc.
Qed.

Ltac grows_side :=
  first
    [ exact _
    | intros; unfold grows; cbn; eexists; reflexivity
    | intros; unfold grows; cbn; exists []; symmetry; apply app_nil_r ].

Lemma grows_read_timeout e init : keeps grows (_read_timeout e init).
Proof. apply keeps_read_timeout; grows_side. Qed.

Lemma grows_inhibit : keeps grows inhibit.
Proof. apply keeps_inhibit; grows_side. Qed.

Lemma grows_uninhibit : keeps grows uninhibit.
Proof. apply keeps_uninhibit; grows_side. Qed.

Lemma grows_do_inhibit : keeps grows _do_inhibit.
Proof. apply keeps_do_inhibit; grows_side. Qed.

Lemma grows_do_command cmd : keeps grows (_do_command cmd).
Proof. apply keeps_do_command; grows_side. Qed.

Ltac grows_call :=
  idtac;
  match goal with
  | |- context [_do_command ?cmd ?env ?w] =>
      call_with (grows_do_command cmd) (_do_command cmd) env w
  | |- context [_read_timeout ?e ?i ?env ?w] =>
      call_with (grows_read_timeout e i) (_read_timeout e i) env w
  end.

Ltac grows_leaf :=
  unfold grows in *; cbn in *;
  repeat match goal with
         | H : exists _, trace _ = _ |- _ =>
             let x := fresh "added" in destruct H as [x H]; rewrite H
         end;
  rewrite <- ?app_assoc;
  first [ eexists; reflexivity | exists []; rewrite app_nil_r; reflexivity ].

Lemma grows_read_from_watcher c : keeps grows (_read_from_watcher c).
Proof.
  intros env w. unfold _read_from_watcher. unfold_m. exec grows_call; grows_leaf.
Qed.

Lemma grows_activate : keeps grows activate.
Proof.
  intros env w. unfold activate. unfold_m. exec grows_call; grows_leaf.
Qed.

Lemma grows_deactivate : keeps grows deactivate.
Proof.
  intros env w. unfold deactivate. unfold_m. exec grows_call; grows_leaf.
Qed.

(** ** The handlers of the table *)

Lemma calm_of_footprint {A} (c : M A) :
  keeps grows c -> keeps same_timers c -> keeps (same_field _timeout) c -> calm c.
Proof.
  intros G T F. split; [split; [exact G|]|].
  - intros env w Hok Hint. unfold after.
    destruct (T env w) as [Ht Hi]. specialize (F env w). unfold same_field in F.
    split; [|rewrite F; exact Hint].
    unfold timers_ok in *. rewrite Ht, Hi. exact Hok.
  - intros env w _ _. unfold after. destruct (T env w) as [_ Hi]. rewrite Hi.
    reflexivity.
Qed.

Lemma calm_lock : calm lock.
Proof.
  apply calm_of_footprint;
    [ apply keeps_lock; grows_side
    | apply keeps_lock; footprint_side
    | apply keeps_lock; field_side ].
Qed.

Lemma calm_simulate_user_activity : calm simulate_user_activity.
Proof.
  apply calm_of_footprint;
    [ apply keeps_simulate_user_activity; grows_side
    | apply keeps_simulate_user_activity; footprint_side
    | apply keeps_simulate_user_activity; field_side ].
Qed.

Lemma calm_set_active v : calm (set_active v).
Proof.
  apply calm_of_footprint;
    [ apply keeps_set_active; grows_side
    | apply keeps_set_active; footprint_side
    | apply keeps_set_active; field_side ].
Qed.

Lemma calm_active : calm active.
Proof. apply calm_of_footprint; apply keeps_active; exact _. Qed.

Lemma calm_active_time : calm active_time.
Proof. apply calm_of_footprint; apply keeps_active_time; exact _. Qed.

Lemma calm_do_inhibit : calm _do_inhibit.
Proof.
  apply calm_of_footprint;
    [ apply grows_do_inhibit | apply do_inhibit_timers
    | apply keeps_do_inhibit; field_side ].
Qed.

Lemma calm_read_from_watcher c : calm (_read_from_watcher c).
Proof.
  apply calm_of_footprint;
    [ apply grows_read_from_watcher | apply read_from_watcher_timers
    | apply read_from_watcher_same_timeout ].
Qed.

Lemma is_int_inv (s : slot) : is_int s = true -> exists t, s = PyInt t.
Proof. destruct s; try discriminate. eauto. Qed.

Lemma calm_read_timeout e init : calm (_read_timeout e init).
Proof.
  split; [split; [apply grows_read_timeout|]|].
  - intros env w Hok Hint. split; [apply read_timeout_timers_ok, Hok|].
    apply is_int_inv in Hint as [old Hold].
    unfold after, _read_timeout.
    destruct (is_event CHANGES_DONE_HINT e || is_event DELETED e || init);
      [|cbn; rewrite Hold; reflexivity].
    unfold mbind, M_bind.
    pose proof (computed_timeout_only_trace e init env w) as (Hs & _).
    destruct (computed_timeout e init env w) as [[t|x] w1]; cbn in *;
      [|rewrite Hs, Hold; reflexivity].
    rewrite Hs, Hold. cbn.
    destruct (negb (t =? old)); cbn; [|rewrite Hs, Hold; reflexivity].
    rewrite Hs.
    destruct (_inhibit_id (self w)); cbn; [|reflexivity].
    destruct (inhibit_spec env (update (with_timeout (PyInt t)) w1) t eq_refl)
      as (w2 & E & Hs2 & _).
    rewrite E. cbn. rewrite Hs2. reflexivity.
  - intros env w Hok Hint.
    apply is_int_inv in Hint as [old Hold].
    unfold after, _read_timeout.
    destruct (is_event CHANGES_DONE_HINT e || is_event DELETED e || init);
      [|reflexivity].
    unfold mbind, M_bind.
    pose proof (computed_timeout_only_trace e init env w) as (Hs & _).
    destruct (computed_timeout e init env w) as [[t|x] w1]; cbn in *;
      [|rewrite Hs; reflexivity].
    rewrite Hs, Hold. cbn.
    destruct (negb (t =? old)); cbn; [|rewrite Hs; reflexivity].
    rewrite Hs.
    destruct (_inhibit_id (self w)) as [i|] eqn:Hi; cbn; [|rewrite Hs, Hi; reflexivity].
    destruct (inhibit_spec env (update (with_timeout (PyInt t)) w1) t eq_refl)
      as (w2 & E & Hs2 & _).
    rewrite E. cbn. rewrite Hs2. cbn. split; eauto.
Qed.

Lemma tame_inhibit : tame inhibit.
Proof.
  split; [apply grows_inhibit|]. intros env w Hok Hint.
  split; [apply inhibit_timers_ok, Hok|].
  pose proof (inhibit_same_timeout env w) as F. unfold same_field in F.
  unfold after. rewrite F. exact Hint.
Qed.

Lemma tame_uninhibit : tame uninhibit.
Proof.
  split; [apply grows_uninhibit|]. intros env w Hok Hint.
  split; [apply uninhibit_timers_ok, Hok|].
  pose proof (keeps_uninhibit (same_field _timeout) ltac:(field_side)
                ltac:(field_side) ltac:(field_side) ltac:(field_side) env w) as F.
  unfold same_field in F. unfold after. rewrite F. exact Hint.
Qed.

Lemma inhibit_arms env (w : World) :
  is_int (_timeout (self w)) = true ->
  is_Some (_inhibit_id (self (after inhibit env w))).
Proof.
  intros Hint. apply is_int_inv in Hint as [t Ht].
  destruct (inhibit_spec env w t Ht) as (w' & E & Hs & _).
  unfold after. rewrite E. cbn. rewrite Hs. cbn. eauto.
Qed.

Lemma uninhibit_disarms_id env (w : World) :
  _inhibit_id (self (after uninhibit env w)) = None.
Proof.
  destruct (uninhibit_spec env w) as (w' & E & _ & H).
  unfold after. rewrite E. cbn.
  destruct (_inhibit_id (self w)) eqn:Hi.
  - destruct H as (Hs & _). rewrite Hs. reflexivity.
  - subst w'. cbn. exact Hi.
Qed.

(** ** Calls and their handlers *)

#[local] Arguments _read_from_watcher : simpl never.
#[local] Arguments lock : simpl never.
#[local] Arguments simulate_user_activity : simpl never.
#[local] Arguments set_active : simpl never.
#[local] Arguments active : simpl never.
#[local] Arguments active_time : simpl never.
#[local] Arguments uninhibit : simpl never.
#[local] Arguments activate : simpl never.
#[local] Arguments deactivate : simpl never.

Lemma active_changes_app (a b : list effect) :
  active_changes (a ++ b) = active_changes a ++ active_changes b.
Proof. unfold active_changes. rewrite emitted_app. apply omap_app. Qed.

Lemma broadcast_app (a b : list FauxGnomeScreensaverService.effect) :
  FauxGnomeScreensaverService.broadcast (a ++ b)
  = FauxGnomeScreensaverService.broadcast a ++ FauxGnomeScreensaverService.broadcast b.
Proof. apply omap_app. Qed.

(** The signals of the manager reach the service and nothing else. *)
Lemma forward_signals (sigs : list signal) (p : Program) :
  let p' := fold_left (fun p s => on_xss_signal s p) sigs p in
  gset_manager p' = gset_manager p
  /\ xss_manager p' = xss_manager p
  /\ gsm_listener p' = gsm_listener p
  /\ ck_listener p' = ck_listener p
  /\ sl_listener p' = sl_listener p
  /\ quitting p' = quitting p
  /\ FauxGnomeScreensaverService.self (gs_service p')
     = FauxGnomeScreensaverService.self (gs_service p)
  /\ FauxGnomeScreensaverService.broadcast
       (FauxGnomeScreensaverService.trace (gs_service p'))
     = FauxGnomeScreensaverService.broadcast
         (FauxGnomeScreensaverService.trace (gs_service p))
       ++ match FauxGnomeScreensaverService._service
                  (FauxGnomeScreensaverService.self (gs_service p)) with
          | Some _ =>
              omap (fun s => match s with
                             | active_changed a => Some a
                             | _ => None
                             end) sigs
          | None => []
          end.
Proof.
  revert p. induction sigs as [|s sigs IH]; intros p; cbn.
  - repeat split. destruct (FauxGnomeScreensaverService._service _);
      symmetry; apply app_nil_r.
  - specialize (IH (on_xss_signal s p)). cbn in IH.
    destruct IH as (H1 & H2 & H3 & H4 & H5 & H6 & H7 & H8).
    rewrite H1, H2, H3, H4, H5, H6, H7, H8. clear.
    destruct s as [a|t]; cbn; [|repeat split].
    unfold FauxGnomeScreensaverService.active_changed, then_.
    unfold mbind, Method_bind, read, FauxGnomeScreensaverService.tell, modify.
    cbn.
    destruct (FauxGnomeScreensaverService._service
                (FauxGnomeScreensaverService.self (gs_service p))) eqn:E; cbn.
    + rewrite E. repeat split. rewrite !broadcast_app. cbn.
      rewrite !app_nil_r, <- app_assoc. reflexivity.
    + rewrite E. repeat split.
Qed.

Lemma xss_call_spec {A} (c : M A) env (p : Program) :
  keeps grows c ->
  let p' := xss_call c env p in
  gset_manager p' = gset_manager p
  /\ xss_manager p' = after c env (xss_manager p)
  /\ gsm_listener p' = gsm_listener p
  /\ ck_listener p' = ck_listener p
  /\ sl_listener p' = sl_listener p
  /\ quitting p' = quitting p
  /\ FauxGnomeScreensaverService.self (gs_service p')
     = FauxGnomeScreensaverService.self (gs_service p)
  /\ (is_Some (FauxGnomeScreensaverService._service
                 (FauxGnomeScreensaverService.self (gs_service p))) ->
      FauxGnomeScreensaverService.broadcast
        (FauxGnomeScreensaverService.trace (gs_service p))
      = active_changes (trace (xss_manager p)) ->
      FauxGnomeScreensaverService.broadcast
        (FauxGnomeScreensaverService.trace (gs_service p'))
      = active_changes (trace (after c env (xss_manager p)))).
Proof.
  intros G p'. subst p'.
  destruct (G env (xss_manager p)) as [added Hadd].
  fold (after c env (xss_manager p)) in Hadd.
  assert (Hn : news (emitted (trace (xss_manager p)))
                 (emitted (trace (after c env (xss_manager p))))
               = emitted added)
    by (rewrite Hadd, emitted_app; apply news_app).
  unfold xss_call. cbv zeta. rewrite Hn.
  destruct (forward_signals (emitted added)
              (with_xss_manager (after c env (xss_manager p)) p))
    as (H1 & H2 & H3 & H4 & H5 & H6 & H7 & H8).
  cbn in *.
  split; [exact H1|]. split; [exact H2|]. split; [exact H3|]. split; [exact H4|].
  split; [exact H5|]. split; [exact H6|]. split; [exact H7|].
  intros [x Hx] Hb. rewrite H8, Hx, Hb, Hadd, active_changes_app. reflexivity.
Qed.

Lemma xss_call_settled {A} (c : M A) env (p : Program) :
  tame c -> settled p -> settled (xss_call c env p).
Proof.
  intros [G T] (Hok & Hint & Hsvc & Hb).
  destruct (xss_call_spec c env p G) as (_ & H2 & _ & _ & _ & _ & H7 & H8).
  destruct (T env (xss_manager p) Hok Hint) as [Hok' Hint'].
  unfold settled. rewrite H2, H7.
  split; [exact Hok'|]. split; [exact Hint'|]. split; [exact Hsvc|].
  apply H8; assumption.
Qed.

Lemma xss_call_agrees {A} (c : M A) env (p : Program) :
  calm c -> settled p -> agrees p -> agrees (xss_call c env p).
Proof.
  intros [[G T] C] (Hok & Hint & _) Ha.
  destruct (xss_call_spec c env p G) as (_ & H2 & H3 & _).
  unfold agrees. rewrite H2, H3, (C env (xss_manager p) Hok Hint). exact Ha.
Qed.

Lemma harmless_xss_call {A} (c : M A) env : calm c -> harmless (xss_call c env).
Proof.
  intros C p. destruct (xss_call_spec c env p (proj1 (proj1 C)))
    as (H1 & _ & H3 & H4 & H5 & _).
  split; [exact H3|]. split; [exact H1|]. split; [exact H4|]. split; [exact H5|].
  split; [apply xss_call_settled, C | apply xss_call_agrees, C].
Qed.

Lemma harmless_quit : harmless (with_quitting true).
Proof.
  intros p. do 4 (split; [reflexivity|]).
  split; [intros H; exact H | intros _ H; exact H].
Qed.

Lemma harmless_fold {S} (f : S -> Program -> Program) (sigs : list S) :
  (forall s, harmless (f s)) ->
  harmless (fun p => fold_left (fun p s => f s p) sigs p).
Proof.
  intros Hf. induction sigs as [|s sigs IH]; intros p; cbn.
  - do 4 (split; [reflexivity|]).
    split; [intros H; exact H | intros _ H; exact H].
  - destruct (Hf s p) as (A1 & A2 & A3 & A4 & A5 & A6).
    destruct (IH (f s p)) as (B1 & B2 & B3 & B4 & B5 & B6).
    rewrite B1, B2, B3, B4, A1, A2, A3, A4.
    do 4 (split; [reflexivity|]).
    split; [intros H; apply B5, A5, H|].
    intros Hs Ha. apply B6; [apply A5, Hs | apply A6; assumption].
Qed.

Lemma harmless_gs_signal env s : harmless (on_gs_signal env s).
Proof.
  destruct s; cbn;
    first [ apply harmless_quit | apply harmless_xss_call ];
    first [ apply calm_lock | apply calm_simulate_user_activity
          | apply calm_set_active | apply calm_active | apply calm_active_time ].
Qed.

Lemma harmless_ck_signal env s : harmless (on_ck_signal env s).
Proof.
  destruct s; cbn; apply harmless_xss_call;
    first [ apply calm_lock | apply calm_simulate_user_activity
          | apply calm_set_active ].
Qed.

Lemma harmless_sl_signal env s : harmless (on_sl_signal env s).
Proof.
  destruct s; cbn; apply harmless_xss_call;
    first [ apply calm_lock | apply calm_simulate_user_activity
          | apply calm_set_active ].
Qed.

(** ** The listeners and the service *)

Ltac unfold_meth :=
  unfold then_, mbind, Method_bind, mret, Method_ret, read, modify, throw.

Ltac gsm_trace :=
  cbn;
  rewrite <- ?app_assoc;
  unfold GnomeSessionManagerListener.emitted;
  first [ rewrite omap_app, news_app | rewrite news_same ];
  cbn.

Lemma reports_check_after (logs : list GnomeSessionManagerListener.effect) reply :
  GnomeSessionManagerListener.emitted logs = [] ->
  reports (fun g =>
    GnomeSessionManagerListener._check_inhibited reply
      (GnomeSessionManagerListener.mk_world (GnomeSessionManagerListener.self g)
         (GnomeSessionManagerListener.trace g ++ logs))).
Proof.
  intros Hlogs g.
  unfold GnomeSessionManagerListener._check_inhibited,
    GnomeSessionManagerListener.tell, GnomeSessionManagerListener.assign.
  unfold_meth. cbn.
  assert (Hnone : news (GnomeSessionManagerListener.emitted
                          (GnomeSessionManagerListener.trace g))
                    (GnomeSessionManagerListener.emitted
                       (GnomeSessionManagerListener.trace g ++ logs)) = []).
  { unfold GnomeSessionManagerListener.emitted in *.
    rewrite omap_app, Hlogs, app_nil_r. apply news_same. }
  destruct (GnomeSessionManagerListener._iface (GnomeSessionManagerListener.self g));
    cbn; [|left; split; [exact Hnone | reflexivity]].
  destruct reply as [i|]; cbn; [|left; split; [exact Hnone | reflexivity]].
  destruct (bool_decide (Some i ≠ _)) eqn:D; cbn.
  - right. exists i. split; [|reflexivity].
    rewrite <- !app_assoc. unfold GnomeSessionManagerListener.emitted in *.
    rewrite omap_app, news_app, omap_app, Hlogs. reflexivity.
  - left. split; [|reflexivity].
    rewrite <- !app_assoc. unfold GnomeSessionManagerListener.emitted in *.
    rewrite omap_app, news_app, omap_app, Hlogs. reflexivity.
Qed.

Lemma reports_handle e : reports (GnomeSessionManagerListener.handle e).
Proof.
  destruct e as [reply|reply]; cbn;
    [ pose proof (reports_check_after
                    [GnomeSessionManagerListener.Log
                       "Received InhibitorAdded signal from %s"] reply eq_refl) as H
    | pose proof (reports_check_after
                    [GnomeSessionManagerListener.Log
                       "Received InhibitorRemoved signal from %s"] reply eq_refl) as H ];
    intros g; exact (H g).
Qed.

Lemma reports_activate proxy reply :
  reports (GnomeSessionManagerListener.activate proxy reply).
Proof.
  intros g. unfold GnomeSessionManagerListener.activate,
    GnomeSessionManagerListener._check_inhibited,
    GnomeSessionManagerListener.tell, GnomeSessionManagerListener.assign.
  unfold_meth. cbn.
  destruct proxy; cbn; [|left; split; [apply news_same | reflexivity]].
  destruct reply as [i|]; cbn; [|left; split; [apply news_same | reflexivity]].
  destruct (bool_decide (Some i ≠ _)) eqn:D; cbn.
  - right. exists i. split; [|reflexivity].
    rewrite <- !app_assoc. unfold GnomeSessionManagerListener.emitted.
    rewrite omap_app, news_app. reflexivity.
  - left. split; [|reflexivity].
    rewrite <- !app_assoc. unfold GnomeSessionManagerListener.emitted.
    rewrite omap_app, news_app. reflexivity.
Qed.

(** A method call changes neither the owner nor what was broadcast. *)
Lemma call_silent m (g : FauxGnomeScreensaverService.world) :
  let g' := then_ (FauxGnomeScreensaverService.call m) g in
  FauxGnomeScreensaverService.self g' = FauxGnomeScreensaverService.self g
  /\ FauxGnomeScreensaverService.broadcast (FauxGnomeScreensaverService.trace g')
     = FauxGnomeScreensaverService.broadcast (FauxGnomeScreensaverService.trace g).
Proof.
  unfold FauxGnomeScreensaverService.call, FauxGnomeScreensaverService.owner_emit,
    FauxGnomeScreensaverService.tell.
  unfold_meth. cbn.
  destruct m; cbn;
    try (destruct (FauxGnomeScreensaverService.exported g) as [[[|]]|]; cbn);
    (split; [reflexivity|]);
    rewrite ?broadcast_app; cbn; rewrite ?app_nil_r; reflexivity.
Qed.

Lemma log_return_silent m (g : FauxGnomeScreensaverService.world) :
  let g' := then_ (FauxGnomeScreensaverService.log_return m) g in
  FauxGnomeScreensaverService.self g' = FauxGnomeScreensaverService.self g
  /\ FauxGnomeScreensaverService.broadcast (FauxGnomeScreensaverService.trace g')
     = FauxGnomeScreensaverService.broadcast (FauxGnomeScreensaverService.trace g).
Proof.
  unfold FauxGnomeScreensaverService.log_return, FauxGnomeScreensaverService.tell.
  unfold_meth.
  destruct m; cbn; (split; [reflexivity|]);
    rewrite ?broadcast_app; cbn; rewrite ?app_nil_r; reflexivity.
Qed.

Lemma settled_with_gs_service (g : FauxGnomeScreensaverService.world) (p : Program) :
  FauxGnomeScreensaverService.self g
  = FauxGnomeScreensaverService.self (gs_service p) ->
  FauxGnomeScreensaverService.broadcast (FauxGnomeScreensaverService.trace g)
  = FauxGnomeScreensaverService.broadcast
      (FauxGnomeScreensaverService.trace (gs_service p)) ->
  settled p -> settled (with_gs_service g p).
Proof.
  intros Hs Hb (H1 & H2 & H3 & H4). unfold settled. cbn.
  rewrite Hs, Hb. repeat split; assumption.
Qed.

Lemma step_steady o e (p : Program) :
  settled p /\ agrees p -> settled (step o e p) /\ agrees (step o e p).
Proof.
  intros [Hs Ha]. destruct e; cbn [step].
  - destruct (harmless_xss_call (_read_from_watcher c) (env o)
                (calm_read_from_watcher c) p) as (_ & _ & _ & _ & H5 & H6).
    split; [apply H5, Hs | apply H6; assumption].
  - destruct (harmless_xss_call (_read_timeout event_type false) (env o)
                (calm_read_timeout event_type false) p) as (_ & _ & _ & _ & H5 & H6).
    split; [apply H5, Hs | apply H6; assumption].
  - destruct (harmless_xss_call _do_inhibit (env o) calm_do_inhibit p)
      as (_ & _ & _ & _ & H5 & H6).
    split; [apply H5, Hs | apply H6; assumption].
  - (* a method call *)
    unfold gs_call. cbv zeta.
    destruct (call_silent m (gs_service p)) as [Hself Hb].
    set (g' := then_ (FauxGnomeScreensaverService.call m) (gs_service p)) in *.
    set (sigs := news _ _).
    assert (Hs1 : settled (with_gs_service g' p))
      by (apply settled_with_gs_service; assumption).
    assert (Ha1 : agrees (with_gs_service g' p)) by exact Ha.
    destruct (harmless_fold (on_gs_signal (env o)) sigs
                (harmless_gs_signal (env o)) (with_gs_service g' p))
      as (_ & _ & _ & _ & H5 & H6).
    set (p2 := fold_left _ sigs _) in *.
    destruct (log_return_silent m (gs_service p2)) as [Hself2 Hb2].
    split.
    + apply settled_with_gs_service; [exact Hself2 | exact Hb2 | apply H5, Hs1].
    + apply (H6 Hs1 Ha1).
  - (* a signal of the session manager *)
    unfold gsm_call. cbv zeta.
    pose proof (reports_handle e (gsm_listener p)) as R. cbv zeta in R.
    set (g' := then_ (GnomeSessionManagerListener.handle e) (gsm_listener p)) in *.
    destruct R as [[-> Hi]|(i & -> & Hi)]; cbn [fold_left].
    + split; [exact Hs|]. unfold agrees. cbn. rewrite Hi. exact Ha.
    + assert (Hs1 : settled (with_gsm_listener g' p)) by exact Hs.
      unfold on_gsm_signal. destruct i.
      * destruct (xss_call_spec inhibit (env o) (with_gsm_listener g' p) grows_inhibit)
          as (_ & H2 & H3 & _).
        split; [apply xss_call_settled; [apply tame_inhibit | exact Hs1]|].
        unfold agrees. rewrite H2, H3. cbn. rewrite Hi.
        split; [reflexivity|]. intros _. apply inhibit_arms.
        destruct Hs as (_ & Hint & _). exact Hint.
      * destruct (xss_call_spec uninhibit (env o) (with_gsm_listener g' p) grows_uninhibit)
          as (_ & H2 & H3 & _).
        split; [apply xss_call_settled; [apply tame_uninhibit | exact Hs1]|].
        unfold agrees. rewrite H2, H3. cbn. rewrite Hi, uninhibit_disarms_id.
        split; [intros [x Hx]; discriminate | discriminate].
  - unfold ck_call. cbv zeta.
    set (g' := then_ _ (ck_listener p)). set (sigs := news _ _).
    destruct (harmless_fold (on_ck_signal (env o)) sigs
                (harmless_ck_signal (env o)) (with_ck_listener g' p))
      as (_ & _ & _ & _ & H5 & H6).
    split; [apply H5; exact Hs | apply H6; [exact Hs | exact Ha]].
  - unfold sl_call. cbv zeta.
    set (g' := then_ _ (sl_listener p)). set (sigs := news _ _).
    destruct (harmless_fold (on_sl_signal (env o)) sigs
                (harmless_sl_signal (env o)) (with_sl_listener g' p))
      as (_ & _ & _ & _ & H5 & H6).
    split; [apply H5; exact Hs | apply H6; [exact Hs | exact Ha]].
  - split; [exact Hs | exact Ha].
  - split; [exact Hs | exact Ha].
Qed.

Lemma run_steady events (p : Program) :
  settled p /\ agrees p -> settled (run events p) /\ agrees (run events p).
Proof.
  revert p. induction events as [|[o e] events IH]; intros p H; [exact H|].
  cbn. apply IH, step_steady, H.
Qed.

(** Without a D-Bus object the signals of the manager are dropped. *)
Lemma forward_inactive (sigs : list signal) (p : Program) :
  FauxGnomeScreensaverService._service
    (FauxGnomeScreensaverService.self (gs_service p)) = None ->
  gs_service (fold_left (fun p s => on_xss_signal s p) sigs p) = gs_service p.
Proof.
  revert p. induction sigs as [|s sigs IH]; intros p Hp; [reflexivity|].
  cbn [fold_left].
  assert (E : gs_service (on_xss_signal s p) = gs_service p).
  { destruct s; cbn; [|reflexivity].
    unfold FauxGnomeScreensaverService.active_changed. unfold_meth.
    rewrite Hp. reflexivity. }
  rewrite IH; [exact E | rewrite E; exact Hp].
Qed.

(** The stages of a start that succeeds. *)
Lemma activate_all_stages o b (p0 p : Program) :
  activate_all o b p0 = (true, p) ->
  exists p1 p2 p3 p4 p5,
    activate_object o b GSET_MANAGER p0 = (true, p1)
    /\ activate_object o b XSS_MANAGER p1 = (true, p2)
    /\ activate_object o b GS_SERVICE p2 = (true, p3)
    /\ activate_object o b GSM_LISTENER p3 = (true, p4)
    /\ activate_object o b CK_LISTENER p4 = (true, p5)
    /\ activate_object o b SL_LISTENER p5 = (true, p).
Proof.
  unfold activate_all, for_objects, order. cbn [fold_left fst snd].
  destruct (activate_object o b GSET_MANAGER p0) as [[|] p1] eqn:E1;
    cbn [fst snd]; [|intros [=]].
  destruct (activate_object o b XSS_MANAGER p1) as [[|] p2] eqn:E2;
    cbn [fst snd]; [|intros [=]].
  destruct (activate_object o b GS_SERVICE p2) as [[|] p3] eqn:E3;
    cbn [fst snd]; [|intros [=]].
  destruct (activate_object o b GSM_LISTENER p3) as [[|] p4] eqn:E4;
    cbn [fst snd]; [|intros [=]].
  destruct (activate_object o b CK_LISTENER p4) as [[|] p5] eqn:E5;
    cbn [fst snd]; [|intros [=]].
  intros H. exists p1, p2, p3, p4, p5. repeat split; assumption.
Qed.

Lemma gsm_call_steady c env (p : Program) :
  reports c -> settled p /\ agrees p ->
  settled (gsm_call c env p) /\ agrees (gsm_call c env p).
Proof.
  intros R [Hs Ha]. unfold gsm_call. cbv zeta.
  specialize (R (gsm_listener p)). cbv zeta in R.
  set (g' := then_ c (gsm_listener p)) in *.
  destruct R as [[-> Hi]|(i & -> & Hi)]; cbn [fold_left].
  - split; [exact Hs|]. unfold agrees. cbn. rewrite Hi. exact Ha.
  - assert (Hs1 : settled (with_gsm_listener g' p)) by exact Hs.
    unfold on_gsm_signal. destruct i.
    + destruct (xss_call_spec inhibit env (with_gsm_listener g' p) grows_inhibit)
        as (_ & H2 & H3 & _).
      split; [apply xss_call_settled; [apply tame_inhibit | exact Hs1]|].
      unfold agrees. rewrite H2, H3. cbn. rewrite Hi.
      split; [reflexivity|]. intros _. apply inhibit_arms.
      destruct Hs as (_ & Hint & _). exact Hint.
    + destruct (xss_call_spec uninhibit env (with_gsm_listener g' p) grows_uninhibit)
        as (_ & H2 & H3 & _).
      split; [apply xss_call_settled; [apply tame_uninhibit | exact Hs1]|].
      unfold agrees. rewrite H2, H3. cbn. rewrite Hi, uninhibit_disarms_id.
      split; [intros [x Hx]; discriminate | discriminate].
Qed.

Lemma ck_call_steady c env (p : Program) :
  settled p /\ agrees p -> settled (ck_call c env p) /\ agrees (ck_call c env p).
Proof.
  intros [Hs Ha]. unfold ck_call. cbv zeta.
  set (g' := then_ _ (ck_listener p)). set (sigs := news _ _).
  destruct (harmless_fold (on_ck_signal env) sigs
              (harmless_ck_signal env) (with_ck_listener g' p))
    as (_ & _ & _ & _ & H5 & H6).
  split; [apply H5; exact Hs | apply H6; [exact Hs | exact Ha]].
Qed.

Lemma sl_call_steady c env (p : Program) :
  settled p /\ agrees p -> settled (sl_call c env p) /\ agrees (sl_call c env p).
Proof.
  intros [Hs Ha]. unfold sl_call. cbv zeta.
  set (g' := then_ _ (sl_listener p)). set (sigs := news _ _).
  destruct (harmless_fold (on_sl_signal env) sigs
              (harmless_sl_signal env) (with_sl_listener g' p))
    as (_ & _ & _ & _ & H5 & H6).
  split; [apply H5; exact Hs | apply H6; [exact Hs | exact Ha]].
Qed.

(** The manager after its activation in a fresh program. *)
Lemma xss_stage o b (p1 p2 : Program) no_dpms :
  activate_object o b XSS_MANAGER p1 = (true, p2) ->
  xss_manager p1 = created no_dpms ->
  gs_service p1 = FauxGnomeScreensaverService.created ->
  gsm_listener p1 = GnomeSessionManagerListener.created ->
  timers_ok (xss_manager p2)
  /\ is_int (_timeout (self (xss_manager p2))) = true
  /\ _inhibit_id (self (xss_manager p2)) = None
  /\ active_changes (trace (xss_manager p2)) = []
  /\ gs_service p2 = FauxGnomeScreensaverService.created
  /\ gsm_listener p2 = GnomeSessionManagerListener.created.
Proof.
  intros E Hx Hgs Hgsm. cbn [activate_object] in E. injection E as R <-.
  destruct (xss_call_spec activate (env o) p1 grows_activate)
    as (_ & Hx2 & Hg2 & _ & _ & _ & _ & _).
  rewrite Hx2, Hg2, Hx in *.
  destruct (activate_sources (env o) (created no_dpms) eq_refl eq_refl eq_refl eq_refl)
    as (Hi & _ & _ & _).
  pose proof (activate_signals (env o) (created no_dpms)) as Hsig. cbv zeta in Hsig.
  destruct (activate (env o) (created no_dpms)).1 eqn:E; [|discriminate R].
  destruct Hsig as (_ & Hem & Ht).
  split; [apply activate_timers_ok, created_timers_ok|].
  split; [rewrite Ht; reflexivity|]. split; [exact Hi|].
  split; [unfold active_changes; rewrite Hem; reflexivity|].
  split; [|exact Hgsm].
  unfold xss_call. cbv zeta. rewrite forward_inactive; [exact Hgs|].
  cbn. rewrite Hgs. reflexivity.
Qed.

Lemma gs_stage o b (p2 p3 : Program) :
  activate_object o b GS_SERVICE p2 = (true, p3) ->
  timers_ok (xss_manager p2) ->
  is_int (_timeout (self (xss_manager p2))) = true ->
  _inhibit_id (self (xss_manager p2)) = None ->
  active_changes (trace (xss_manager p2)) = [] ->
  gs_service p2 = FauxGnomeScreensaverService.created ->
  gsm_listener p2 = GnomeSessionManagerListener.created ->
  settled p3 /\ agrees p3.
Proof.
  intros E Hok Hint Hnone Hac Hgs Hgsm.
  cbn [activate_object] in E. cbv zeta in E. injection E as R <-.
  unfold gs_call. cbv zeta. rewrite Hgs in *.
  unfold FauxGnomeScreensaverService.activate in *.
  destruct (session_bus b); [|discriminate R]. clear R.
  unfold settled, agrees.
  unfold_meth. cbn -[timers_ok active_changes]. rewrite ?Hac, ?Hnone, ?Hgsm.
  split.
  - split; [exact Hok|]. split; [exact Hint|]. split; [eauto | reflexivity].
  - split; [intros [x Hx]; discriminate | discriminate].
Qed.

Lemma started_steady o b no_dpms db (p : Program) :
  activate_all o b (constructed no_dpms db) = (true, p) ->
  settled p /\ agrees p.
Proof.
  intros H. apply activate_all_stages in H.
  destruct H as (p1 & p2 & p3 & p4 & p5 & E1 & E2 & E3 & E4 & E5 & E6).
  assert (H1 : xss_manager p1 = created no_dpms
               /\ gs_service p1 = FauxGnomeScreensaverService.created
               /\ gsm_listener p1 = GnomeSessionManagerListener.created).
  { cbn [activate_object] in E1. cbv zeta in E1. injection E1 as _ <-.
    repeat split. }
  destruct H1 as (Hx & Hgs & Hgsm).
  destruct (xss_stage o b p1 p2 no_dpms E2 Hx Hgs Hgsm)
    as (Hok & Hint & Hnone & Hac & Hgs2 & Hgsm2).
  pose proof (gs_stage o b p2 p3 E3 Hok Hint Hnone Hac Hgs2 Hgsm2) as H3.
  cbn [activate_object] in E4, E5, E6. cbv zeta in E4, E5, E6.
  injection E4 as _ <-. injection E5 as _ <-. injection E6 as _ <-.
  apply sl_call_steady, ck_call_steady, gsm_call_steady; [apply reports_activate|].
  exact H3.
Qed.

(** X21. When the six calls of [activate] in [main] have returned, then at
    every point of the main loop the inhibition timer of the manager is
    armed exactly when the session manager was last found idle inhibited,
    whatever the loop has dispatched since the start. *)
Theorem timer_follows_session_manager o b no_dpms db (events : list (Outside * event)) :
  (activate_all o b (constructed no_dpms db)).1 = true ->
  let p := run events (activate_all o b (constructed no_dpms db)).2 in
  armed (xss_manager p)
  = bool_decide (GnomeSessionManagerListener._inhibited
                   (GnomeSessionManagerListener.self (gsm_listener p)) = Some true)
  /\ (is_Some (_inhibit_id (self (xss_manager p)))
      <-> GnomeSessionManagerListener._inhibited
            (GnomeSessionManagerListener.self (gsm_listener p)) = Some true).
Proof.
  intros Hstart p.
  destruct (activate_all o b (constructed no_dpms db)) as [r p0] eqn:E.
  cbn in Hstart. subst r.
  destruct (run_steady events p0 (started_steady o b no_dpms db p0 E)) as [Hs Ha].
  subst p. cbn [snd]. split; [|exact Ha].
  destruct Hs as (Hok & _). unfold agrees in Ha. unfold armed, timers_ok in *.
  destruct (_inhibit_id (self (xss_manager (run events p0)))) as [id|].
  - rewrite (bool_decide_eq_true_2 _ (proj1 Ha (ex_intro _ id eq_refl))).
    rewrite bool_decide_eq_false_2; [reflexivity|].
    intros Ht. rewrite Ht, dom_empty_L in Hok.
    assert (Hin : id ∈ (∅ : gset nat)) by (rewrite Hok; apply elem_of_singleton; reflexivity).
    apply elem_of_empty in Hin. exact Hin.
  - apply dom_empty_inv_L in Hok. rewrite (bool_decide_eq_true_2 _ Hok).
    rewrite bool_decide_eq_false_2; [reflexivity|].
    intros Hi. apply Ha in Hi. destruct Hi as [x Hx]. discriminate.
Qed.


(** ** The table of handlers *)

(** What a method call makes the owner emit. *)
Lemma call_emits m (g : FauxGnomeScreensaverService.world) :
  news (FauxGnomeScreensaverService.emitted (FauxGnomeScreensaverService.trace g))
    (FauxGnomeScreensaverService.emitted
       (FauxGnomeScreensaverService.trace
          (then_ (FauxGnomeScreensaverService.call m) g)))
  = if live g then
      match m with
      | FauxGnomeScreensaverService.Quit => [FauxGnomeScreensaverService.quit]
      | FauxGnomeScreensaverService.Lock => [FauxGnomeScreensaverService.lock]
      | FauxGnomeScreensaverService.SimulateUserActivity =>
          [FauxGnomeScreensaverService.simulate_user_activity]
      | FauxGnomeScreensaverService.SetActive v =>
          [FauxGnomeScreensaverService.set_active v]
      | FauxGnomeScreensaverService.GetActive => [FauxGnomeScreensaverService.get_active]
      | FauxGnomeScreensaverService.GetActiveTime =>
          [FauxGnomeScreensaverService.get_active_time]
      | FauxGnomeScreensaverService.ShowMessage _ _ _ => []
      end
    else [].
Proof.
  unfold live, FauxGnomeScreensaverService.call, FauxGnomeScreensaverService.owner_emit,
    FauxGnomeScreensaverService.tell.
  unfold_meth. cbn.
  destruct m; cbn;
    try (destruct (FauxGnomeScreensaverService.exported g) as [[[|]]|]; cbn);
    rewrite <- ?app_assoc; unfold FauxGnomeScreensaverService.emitted;
    rewrite omap_app, news_app; try reflexivity;
    destruct (FauxGnomeScreensaverService.exported g) as [[[|]]|]; reflexivity.
Qed.

Lemma xss_call_manager {A} (c : M A) env (p : Program) :
  calm c ->
  xss_manager (xss_call c env p) = after c env (xss_manager p)
  /\ quitting (xss_call c env p) = quitting p.
Proof.
  intros C. destruct (xss_call_spec c env p (proj1 (proj1 C)))
    as (_ & H2 & _ & _ & _ & H6 & _).
  split; assumption.
Qed.

(** Only [Quit] ends the loop, and only while the exported object has
    its owner. *)
Lemma method_call_quitting o m (p : Program) :
  quitting (step o (MethodCall m) p)
  = match m with
    | FauxGnomeScreensaverService.Quit => live (gs_service p) || quitting p
    | _ => quitting p
    end.
Proof.
  cbn [step]. unfold gs_call. cbv zeta. rewrite call_emits.
  cbn [quitting with_gs_service].
  set (g' := then_ (FauxGnomeScreensaverService.call m) (gs_service p)).
  destruct (live (gs_service p)); [|destruct m; reflexivity].
  destruct m; cbn [fold_left on_gs_signal]; try reflexivity.
  - apply (xss_call_manager lock (env o) (with_gs_service g' p) calm_lock).
  - apply (xss_call_manager simulate_user_activity (env o) (with_gs_service g' p)
             calm_simulate_user_activity).
  - apply (xss_call_manager (set_active value) (env o) (with_gs_service g' p)
             (calm_set_active value)).
  - apply (xss_call_manager active (env o) (with_gs_service g' p) calm_active).
  - apply (xss_call_manager active_time (env o) (with_gs_service g' p)
             calm_active_time).
Qed.


(** X24. A signal of ConsoleKit that the listener owes a signal to ends in
    the method of the manager that the table of [main] gives it: [Lock] of
    the own session in [lock], [Unlock] in setting [active] to [False],
    [ActiveChanged] with a true argument in [simulate_user_activity]; every
    other signal leaves the manager as it was. *)
Theorem console_kit_signals_reach_the_manager o e ssid (p : Program) :
  ConsoleKitListener.self (ck_listener p)
  = ConsoleKitListener.mk (Some ssid) ["Lock"; "Unlock"; "ActiveChanged"] ->
  xss_manager (step o (ConsoleKit e) p)
  = match ConsoleKitListener.signal_for ssid e with
    | Some ConsoleKitListener.lock_signal => after lock (env o) (xss_manager p)
    | Some ConsoleKitListener.unlock_signal =>
        after (set_active false) (env o) (xss_manager p)
    | Some ConsoleKitListener.is_active_signal =>
        after simulate_user_activity (env o) (xss_manager p)
    | None => xss_manager p
    end.
Proof.
  intros Hs. cbn [step]. unfold ck_call. cbv zeta.
  destruct (ck_handle_spec ssid e (ck_listener p) Hs) as [_ He]. rewrite He, news_app.
  set (g' := then_ (ConsoleKitListener.handle e) (ck_listener p)).
  destruct (ConsoleKitListener.signal_for ssid e) as [[| |]|];
    cbn [option_list fold_left on_ck_signal]; [| | |reflexivity].
  - apply (xss_call_manager lock (env o) (with_ck_listener g' p) calm_lock).
  - apply (xss_call_manager (set_active false) (env o) (with_ck_listener g' p)
             (calm_set_active false)).
  - apply (xss_call_manager simulate_user_activity (env o) (with_ck_listener g' p)
             calm_simulate_user_activity).
Qed.

(** X25. The same for logind, where a suspend locks the screen: [Lock] of
    the own session and [PrepareForSleep] with a true argument end in
    [lock], [Unlock] in setting [active] to [False], a change of [Active] to
    true in [simulate_user_activity]; every other signal leaves the manager
    as it was. *)
Theorem logind_signals_reach_the_manager o e ssid (p : Program) :
  SystemdLogindListener.self (sl_listener p)
  = SystemdLogindListener.mk (Some ssid)
      ["Lock"; "Unlock"; "PropertiesChanged"; "PrepareForSleep"] ->
  xss_manager (step o (Logind e) p)
  = match SystemdLogindListener.signal_for ssid e with
    | Some SystemdLogindListener.lock_signal => after lock (env o) (xss_manager p)
    | Some SystemdLogindListener.unlock_signal =>
        after (set_active false) (env o) (xss_manager p)
    | Some SystemdLogindListener.is_active_signal =>
        after simulate_user_activity (env o) (xss_manager p)
    | None => xss_manager p
    end.
Proof.
  intros Hs. cbn [step]. unfold sl_call. cbv zeta.
  destruct (sl_handle_spec ssid e (sl_listener p) Hs) as [_ He]. rewrite He, news_app.
  set (g' := then_ (SystemdLogindListener.handle e) (sl_listener p)).
  destruct (SystemdLogindListener.signal_for ssid e) as [[| |]|];
    cbn [option_list fold_left on_sl_signal]; [| | |reflexivity].
  - apply (xss_call_manager lock (env o) (with_sl_listener g' p) calm_lock).
  - apply (xss_call_manager (set_active false) (env o) (with_sl_listener g' p)
             (calm_set_active false)).
  - apply (xss_call_manager simulate_user_activity (env o) (with_sl_listener g' p)
             calm_simulate_user_activity).
Qed.

(** A fold of handlers that keep [quitting] keeps it. *)
Lemma fold_quitting {S} (f : S -> Program -> Program) (sigs : list S) (p : Program) :
  (forall s p, quitting (f s p) = quitting p) ->
  quitting (fold_left (fun p s => f s p) sigs p) = quitting p.
Proof.
  intros Hf. revert p. induction sigs as [|s sigs IH]; intros p; [reflexivity|].
  cbn [fold_left]. rewrite IH. apply Hf.
Qed.

Lemma step_quitting o e (p : Program) :
  asks_to_quit e = false -> quitting (step o e p) = quitting p.
Proof.
  intros Hq. destruct e; cbn [step]; try discriminate Hq.
  - apply (xss_call_manager _ _ _ (calm_read_from_watcher c)).
  - apply (xss_call_manager _ _ _ (calm_read_timeout event_type false)).
  - apply (xss_call_manager _ _ _ calm_do_inhibit).
  - pose proof (method_call_quitting o m p) as H. cbn [step] in H.
    rewrite H. destruct m; try reflexivity. discriminate Hq.
  - unfold gsm_call. cbv zeta. rewrite fold_quitting; [reflexivity|].
    intros i q. unfold on_gsm_signal. destruct i.
    + destruct (xss_call_spec inhibit (env o) q grows_inhibit)
        as (_ & _ & _ & _ & _ & H6 & _). exact H6.
    + destruct (xss_call_spec uninhibit (env o) q grows_uninhibit)
        as (_ & _ & _ & _ & _ & H6 & _). exact H6.
  - unfold ck_call. cbv zeta. rewrite fold_quitting; [reflexivity|].
    intros s q. destruct s; cbn [on_ck_signal];
      first [ apply (xss_call_manager _ _ _ calm_lock)
            | apply (xss_call_manager _ _ _ (calm_set_active false))
            | apply (xss_call_manager _ _ _ calm_simulate_user_activity) ].
  - unfold sl_call. cbv zeta. rewrite fold_quitting; [reflexivity|].
    intros s q. destruct s; cbn [on_sl_signal];
      first [ apply (xss_call_manager _ _ _ calm_lock)
            | apply (xss_call_manager _ _ _ (calm_set_active false))
            | apply (xss_call_manager _ _ _ calm_simulate_user_activity) ].
  - reflexivity.
Qed.

(** X26. The program leaves its main loop only on request: as long as the
    loop has dispatched neither SIGHUP or SIGTERM nor a [Quit] method call,
    [mainloop.quit()] has not been called, whatever else happened. *)
Theorem quits_only_on_request (events : list (Outside * event)) (p : Program) :
  quitting p = false ->
  forallb (fun oe => negb (asks_to_quit oe.2)) events = true ->
  quitting (run events p) = false.
Proof.
  revert p. induction events as [|[o e] events IH]; intros p Hp Hev; [exact Hp|].
  cbn in Hev. apply andb_true_iff in Hev. destruct Hev as [He Hev].
  apply negb_true_iff in He.
  cbn [run fold_left]. apply IH; [|exact Hev].
  rewrite step_quitting; assumption.
Qed.

End program.

(** ** On the example session *)

Lemma settings_are_restored_witness :
  GSettingsManager.schemas_installed GSettingsManager.example_env = true
  /\ GSettingsManager.well_typed GSettingsManager.example_db = true
  /\ forallb GSettingsManager.well_typed_event GSettingsManager.example_events = true
  /\ GSettingsManager.store
       (then_ (GSettingsManager.deactivate GSettingsManager.example_env)
          (GSettingsManager.run GSettingsManager.example_env
             GSettingsManager.example_events
             (then_ (GSettingsManager.activate GSettingsManager.example_env)
                (GSettingsManager.created GSettingsManager.example_db))))
     = GSettingsManager.outside GSettingsManager.example_events
         GSettingsManager.example_db.
Proof.
  assert (H1 : GSettingsManager.schemas_installed GSettingsManager.example_env = true)
    by (vm_compute; reflexivity).
  assert (H2 : GSettingsManager.well_typed GSettingsManager.example_db = true)
    by (vm_compute; reflexivity).
  assert (H3 : forallb GSettingsManager.well_typed_event
                 GSettingsManager.example_events = true)
    by (vm_compute; reflexivity).
  pose proof (settings_are_restored GSettingsManager.example_env
                GSettingsManager.example_db GSettingsManager.example_events H1 H2 H3)
    as (_ & _ & H & _).
  split; [exact H1|]. split; [exact H2|]. split; [exact H3 | exact H].
Defined.

Lemma settings_are_clamped_witness :
  GSettingsManager.store
    (GSettingsManager.run GSettingsManager.example_env GSettingsManager.example_events
       (then_ (GSettingsManager.activate GSettingsManager.example_env)
          (GSettingsManager.created GSettingsManager.example_db)))
    !! (GSettingsManager.SCHEMA_SESSION, "idle-delay") = Some 0
  /\ GSettingsManager.outside GSettingsManager.example_events GSettingsManager.example_db
     !! (GSettingsManager.SCHEMA_SESSION, "idle-delay") = Some 120.
Proof.
  assert (H1 : GSettingsManager.schemas_installed GSettingsManager.example_env = true)
    by (vm_compute; reflexivity).
  assert (H2 : GSettingsManager.well_typed GSettingsManager.example_db = true)
    by (vm_compute; reflexivity).
  assert (H3 : forallb GSettingsManager.well_typed_event
                 GSettingsManager.example_events = true)
    by (vm_compute; reflexivity).
  assert (H4 : GSettingsManager.idle
                 (GSettingsManager.run GSettingsManager.example_env
                    GSettingsManager.example_events
                    (then_ (GSettingsManager.activate GSettingsManager.example_env)
                       (GSettingsManager.created GSettingsManager.example_db))) = [])
    by (vm_compute; reflexivity).
  assert (H5 : GSettingsManager.outside GSettingsManager.example_events
                 GSettingsManager.example_db
               !! (GSettingsManager.SCHEMA_SESSION, "idle-delay") = Some 120)
    by (vm_compute; reflexivity).
  pose proof (settings_are_clamped GSettingsManager.example_env
                GSettingsManager.example_db GSettingsManager.example_events
                GSettingsManager.SCHEMA_SESSION "idle-delay" H1 H2 H3 H4) as H.
  rewrite H5 in H. split; [exact H | exact H5].
Defined.

Lemma timer_follows_session_manager_witness :
  (main.activate_all main.example_outside main.example_buses
     (main.constructed false GSettingsManager.example_db)).1 = true
  /\ main.armed
       (main.xss_manager
          (main.run main.example_events
             (main.activate_all main.example_outside main.example_buses
                (main.constructed false GSettingsManager.example_db)).2)) = true.
Proof.
  assert (H1 : (main.activate_all main.example_outside main.example_buses
                  (main.constructed false GSettingsManager.example_db)).1 = true)
    by (vm_compute; reflexivity).
  assert (H2 : bool_decide
                 (GnomeSessionManagerListener._inhibited
                    (GnomeSessionManagerListener.self
                       (main.gsm_listener
                          (main.run main.example_events
                             (main.activate_all main.example_outside main.example_buses
                                (main.constructed false GSettingsManager.example_db)).2)))
                  = Some true) = true)
    by (vm_compute; reflexivity).
  pose proof (timer_follows_session_manager main.example_outside main.example_buses
                false GSettingsManager.example_db main.example_events H1) as [H _].
  cbv zeta in H. rewrite H2 in H. split; [exact H1 | exact H].
Defined.


Lemma console_kit_signals_reach_the_manager_witness :
  ConsoleKitListener.self (main.ck_listener main.example_program)
  = ConsoleKitListener.mk (Some "/org/freedesktop/ConsoleKit/Session1")
      ["Lock"; "Unlock"; "ActiveChanged"]
  /\ main.xss_manager
       (main.step main.example_outside
          (main.ConsoleKit
             (ConsoleKitListener.Unlock "/org/freedesktop/ConsoleKit/Session1"))
          main.example_program)
     = after (set_active false) example_env (main.xss_manager main.example_program).
Proof.
  assert (H1 : ConsoleKitListener.self (main.ck_listener main.example_program)
               = ConsoleKitListener.mk (Some "/org/freedesktop/ConsoleKit/Session1")
                   ["Lock"; "Unlock"; "ActiveChanged"])
    by (vm_compute; reflexivity).
  assert (H2 : ConsoleKitListener.signal_for "/org/freedesktop/ConsoleKit/Session1"
                 (ConsoleKitListener.Unlock "/org/freedesktop/ConsoleKit/Session1")
               = Some ConsoleKitListener.unlock_signal)
    by (vm_compute; reflexivity).
  pose proof (console_kit_signals_reach_the_manager main.example_outside
                (ConsoleKitListener.Unlock "/org/freedesktop/ConsoleKit/Session1")
                "/org/freedesktop/ConsoleKit/Session1" main.example_program H1) as H.
  rewrite H2 in H. split; [exact H1 | exact H].
Defined.

Lemma logind_signals_reach_the_manager_witness :
  SystemdLogindListener.self (main.sl_listener main.example_program)
  = SystemdLogindListener.mk (Some "/org/freedesktop/login1/session/_31")
      ["Lock"; "Unlock"; "PropertiesChanged"; "PrepareForSleep"]
  /\ main.xss_manager
       (main.step main.example_outside
          (main.Logind
             (SystemdLogindListener.PrepareForSleep true "/org/freedesktop/login1"))
          main.example_program)
     = after lock example_env (main.xss_manager main.example_program).
Proof.
  assert (H1 : SystemdLogindListener.self (main.sl_listener main.example_program)
               = SystemdLogindListener.mk (Some "/org/freedesktop/login1/session/_31")
                   ["Lock"; "Unlock"; "PropertiesChanged"; "PrepareForSleep"])
    by (vm_compute; reflexivity).
  assert (H2 : SystemdLogindListener.signal_for "/org/freedesktop/login1/session/_31"
                 (SystemdLogindListener.PrepareForSleep true "/org/freedesktop/login1")
               = Some SystemdLogindListener.lock_signal)
    by (vm_compute; reflexivity).
  pose proof (logind_signals_reach_the_manager main.example_outside
                (SystemdLogindListener.PrepareForSleep true "/org/freedesktop/login1")
                "/org/freedesktop/login1/session/_31" main.example_program H1) as H.
  rewrite H2 in H. split; [exact H1 | exact H].
Defined.

Lemma quits_only_on_request_witness :
  main.quitting main.example_program = false
  /\ forallb (fun oe => negb (main.asks_to_quit oe.2)) main.example_events = true
  /\ main.quitting (main.run main.example_events main.example_program) = false.
Proof.
  assert (H1 : main.quitting main.example_program = false) by (vm_compute; reflexivity).
  assert (H2 : forallb (fun oe => negb (main.asks_to_quit oe.2)) main.example_events
               = true)
    by (vm_compute; reflexivity).
  pose proof (quits_only_on_request main.example_events main.example_program H1 H2)
    as H.
  split; [exact H1|]. split; [exact H2 | exact H].
Defined.
